(** * The reactivity core: Dep, Watcher and the observer

    A shallow embedding of [src/core/observer/dep.js] (classes [Dep] and
    [Watcher], the target stack) and of the observer module ([Observer],
    [observe], [defineReactive], [set]).

    JavaScript objects live in explicit stores and are referred to by
    number: a [Dep] by its [id], a [Watcher] by its [id], plain objects and
    arrays by an address.  Every operation is a function on the whole
    [State]; an operation that can finish by a [throw] returns a
    [Completion] next to the state it leaves behind. *)

From stdpp Require Import gmap list sorting strings pretty.
From Stdlib Require Import ZArith.

(** ** Values *)

(** Numbers: only what [===] distinguishes matters to this module, that is
    [NaN] (unequal to itself) and the two zeros (equal to each other). *)
Inductive JsNum :=
  | NaN
  | NegZero
  | Fin (z : Z).

Inductive JsVal :=
  | VUndef
  | VNull
  | VBool (b : bool)
  | VNum (n : JsNum)
  | VStr (s : string)
  | VRef (a : nat).

Definition num_eq (x y : JsNum) : bool :=
  match x, y with
  | NaN, _ | _, NaN => false
  | NegZero, NegZero => true
  | NegZero, Fin z | Fin z, NegZero => (z =? 0)%Z
  | Fin a, Fin b => (a =? b)%Z
  end.

(** [a === b] *)
Definition strict_eq (a b : JsVal) : bool :=
  match a, b with
  | VUndef, VUndef => true
  | VNull, VNull => true
  | VBool x, VBool y => eqb x y
  | VNum x, VNum y => num_eq x y
  | VStr s, VStr t => String.eqb s t
  | VRef p, VRef q => (p =? q)%nat
  | _, _ => false
  end.

(** [isObject(v)]: [v !== null && typeof v === 'object'] *)
Definition isObject (v : JsVal) : bool :=
  match v with VRef _ => true | _ => false end.

Inductive Completion (A : Type) :=
  | Normal (a : A)
  | Throw (e : JsVal).
Arguments Normal {A} a.
Arguments Throw {A} e.

(** The [TypeError] raised by the engine itself. *)
Definition TypeError : JsVal := VStr "TypeError".

(** ** Records *)

Record Watcher := {
  w_vm : nat;
  w_deep : bool;
  w_user : bool;
  w_lazy : bool;
  w_sync : bool;
  w_dirty : bool;
  w_active : bool;
  w_deps : list nat;
  w_newDeps : list nat;
  w_depIds : gset nat;
  w_newDepIds : gset nat;
  w_value : JsVal
}.

(** The part of a component instance the watcher touches. *)
Record Vm := {
  vm_watcher : option nat;
  vm_watchers : list nat;
  vm_isBeingDestroyed : bool
}.

(** Accessor functions found on a property.  A user-written getter reads a
    storage slot and a user-written setter writes one; the reactive pair is
    the closure pair created by one call of [defineReactive]. *)
Inductive Getter :=
  | GUser (slot : nat)
  | GReactive (c : nat).

Inductive Setter :=
  | SUser (slot : nat)
  | SReactive (c : nat).

Inductive Property :=
  | PData (v : JsVal) (enumerable configurable writable : bool)
  | PAccessor (g : option Getter) (s : option Setter)
              (enumerable configurable : bool).

Inductive ObjKind :=
  | KPlain
  | KArray
  | KOther.

(** An object of the heap.  [o_elems] holds the indexed elements of an
    array, which are plain data properties under a writable [length], and
    [o_props] the other own properties; [o_inherited] lists what is
    visible through the prototype chain; [o_ob] is the own [__ob__] when
    it holds an [Observer]; [o_augmented] says that the prototype was
    replaced by [arrayMethods]. *)
Record Obj := {
  o_kind : ObjKind;
  o_elems : list JsVal;
  o_props : list (string * Property);
  o_inherited : list (string * JsVal);
  o_ob : option nat;
  o_extensible : bool;
  o_isVue : bool;
  o_isVNode : bool;
  o_augmented : bool
}.

Record Observer := {
  ob_value : nat;
  ob_dep : nat;
  ob_vmCount : nat
}.

(** The variables closed over by [reactiveGetter] and [reactiveSetter]. *)
Record Cell := {
  c_obj : nat;
  c_dep : nat;
  c_val : JsVal;
  c_childOb : option nat;
  c_getter : option Getter;
  c_setter : option Setter;
  c_customSetter : bool;
  c_shallow : bool
}.

(** Calls that leave the modelled files, in the order they are made, and
    the entries of [Dep.notify]. *)
Inductive Event :=
  | EvGetter (w : nat)
  | EvHandleError (e : JsVal) (w : nat)
  | EvQueueWatcher (w : nat)
  | EvCallback (w : nat) (value oldValue : JsVal)
  | EvNotify (d : nat)
  | EvCustomSetter (c : nat)
  | EvWarn.

Record State := {
  dep_uid : nat;
  subs : gmap nat (list nat);
  watcher_uid : nat;
  watchers : gmap nat Watcher;
  targetStack : list (option nat);
  target : option nat;
  vms : gmap nat Vm;
  config_async : bool;
  shouldObserve : bool;
  objs : gmap nat Obj;
  observers : list Observer;
  cells : list Cell;
  slots : gmap nat JsVal;
  log : list Event
}.

(** What one call of a watcher's [getter] does: the Deps whose [depend()]
    it reaches, in order, and how it completes. *)
Record GetterRun := {
  reads : list nat;
  result : Completion JsVal
}.

(** The surroundings of the module: the build flag, the functions supplied
    by users and the helpers imported from files that are not modelled. *)
Class Host := {
  production : bool;
  isServerRendering : bool;
  getter : nat → State → GetterRun;
  traverse : State → JsVal → list nat;
  isValidArrayIndex : string → option nat;
  inObjectPrototype : string → bool
}.

(** ** Field updates *)

Definition with_dep_uid (f : nat → nat) (st : State) : State :=
  {| dep_uid := f (dep_uid st); subs := subs st; watcher_uid := watcher_uid st;
     watchers := watchers st; targetStack := targetStack st; target := target st;
     vms := vms st; config_async := config_async st;
     shouldObserve := shouldObserve st; objs := objs st;
     observers := observers st; cells := cells st; slots := slots st;
     log := log st |}.

Definition with_subs (f : gmap nat (list nat) → gmap nat (list nat))
    (st : State) : State :=
  {| dep_uid := dep_uid st; subs := f (subs st); watcher_uid := watcher_uid st;
     watchers := watchers st; targetStack := targetStack st; target := target st;
     vms := vms st; config_async := config_async st;
     shouldObserve := shouldObserve st; objs := objs st;
     observers := observers st; cells := cells st; slots := slots st;
     log := log st |}.

Definition with_watcher_uid (f : nat → nat) (st : State) : State :=
  {| dep_uid := dep_uid st; subs := subs st; watcher_uid := f (watcher_uid st);
     watchers := watchers st; targetStack := targetStack st; target := target st;
     vms := vms st; config_async := config_async st;
     shouldObserve := shouldObserve st; objs := objs st;
     observers := observers st; cells := cells st; slots := slots st;
     log := log st |}.

Definition with_watchers (f : gmap nat Watcher → gmap nat Watcher)
    (st : State) : State :=
  {| dep_uid := dep_uid st; subs := subs st; watcher_uid := watcher_uid st;
     watchers := f (watchers st); targetStack := targetStack st;
     target := target st; vms := vms st; config_async := config_async st;
     shouldObserve := shouldObserve st; objs := objs st;
     observers := observers st; cells := cells st; slots := slots st;
     log := log st |}.

Definition with_target (s : list (option nat)) (t : option nat)
    (st : State) : State :=
  {| dep_uid := dep_uid st; subs := subs st; watcher_uid := watcher_uid st;
     watchers := watchers st; targetStack := s; target := t;
     vms := vms st; config_async := config_async st;
     shouldObserve := shouldObserve st; objs := objs st;
     observers := observers st; cells := cells st; slots := slots st;
     log := log st |}.

Definition with_vms (f : gmap nat Vm → gmap nat Vm) (st : State) : State :=
  {| dep_uid := dep_uid st; subs := subs st; watcher_uid := watcher_uid st;
     watchers := watchers st; targetStack := targetStack st; target := target st;
     vms := f (vms st); config_async := config_async st;
     shouldObserve := shouldObserve st; objs := objs st;
     observers := observers st; cells := cells st; slots := slots st;
     log := log st |}.

Definition with_objs (f : gmap nat Obj → gmap nat Obj) (st : State) : State :=
  {| dep_uid := dep_uid st; subs := subs st; watcher_uid := watcher_uid st;
     watchers := watchers st; targetStack := targetStack st; target := target st;
     vms := vms st; config_async := config_async st;
     shouldObserve := shouldObserve st; objs := f (objs st);
     observers := observers st; cells := cells st; slots := slots st;
     log := log st |}.

Definition with_observers (f : list Observer → list Observer)
    (st : State) : State :=
  {| dep_uid := dep_uid st; subs := subs st; watcher_uid := watcher_uid st;
     watchers := watchers st; targetStack := targetStack st; target := target st;
     vms := vms st; config_async := config_async st;
     shouldObserve := shouldObserve st; objs := objs st;
     observers := f (observers st); cells := cells st; slots := slots st;
     log := log st |}.

Definition with_cells (f : list Cell → list Cell) (st : State) : State :=
  {| dep_uid := dep_uid st; subs := subs st; watcher_uid := watcher_uid st;
     watchers := watchers st; targetStack := targetStack st; target := target st;
     vms := vms st; config_async := config_async st;
     shouldObserve := shouldObserve st; objs := objs st;
     observers := observers st; cells := f (cells st); slots := slots st;
     log := log st |}.

Definition with_slots (f : gmap nat JsVal → gmap nat JsVal)
    (st : State) : State :=
  {| dep_uid := dep_uid st; subs := subs st; watcher_uid := watcher_uid st;
     watchers := watchers st; targetStack := targetStack st; target := target st;
     vms := vms st; config_async := config_async st;
     shouldObserve := shouldObserve st; objs := objs st;
     observers := observers st; cells := cells st; slots := f (slots st);
     log := log st |}.

Definition emit (e : Event) (st : State) : State :=
  {| dep_uid := dep_uid st; subs := subs st; watcher_uid := watcher_uid st;
     watchers := watchers st; targetStack := targetStack st; target := target st;
     vms := vms st; config_async := config_async st;
     shouldObserve := shouldObserve st; objs := objs st;
     observers := observers st; cells := cells st; slots := slots st;
     log := log st ++ [e] |}.

Definition with_watcher (f : Watcher → Watcher) (w : nat) (st : State) : State :=
  with_watchers (alter f w) st.

Definition set_dirty (b : bool) (r : Watcher) : Watcher :=
  {| w_vm := w_vm r; w_deep := w_deep r; w_user := w_user r;
     w_lazy := w_lazy r; w_sync := w_sync r; w_dirty := b;
     w_active := w_active r; w_deps := w_deps r; w_newDeps := w_newDeps r;
     w_depIds := w_depIds r; w_newDepIds := w_newDepIds r;
     w_value := w_value r |}.

Definition set_active (b : bool) (r : Watcher) : Watcher :=
  {| w_vm := w_vm r; w_deep := w_deep r; w_user := w_user r;
     w_lazy := w_lazy r; w_sync := w_sync r; w_dirty := w_dirty r;
     w_active := b; w_deps := w_deps r; w_newDeps := w_newDeps r;
     w_depIds := w_depIds r; w_newDepIds := w_newDepIds r;
     w_value := w_value r |}.

Definition set_value (v : JsVal) (r : Watcher) : Watcher :=
  {| w_vm := w_vm r; w_deep := w_deep r; w_user := w_user r;
     w_lazy := w_lazy r; w_sync := w_sync r; w_dirty := w_dirty r;
     w_active := w_active r; w_deps := w_deps r; w_newDeps := w_newDeps r;
     w_depIds := w_depIds r; w_newDepIds := w_newDepIds r;
     w_value := v |}.

Definition set_deps (ds nds : list nat) (ids nids : gset nat)
    (r : Watcher) : Watcher :=
  {| w_vm := w_vm r; w_deep := w_deep r; w_user := w_user r;
     w_lazy := w_lazy r; w_sync := w_sync r; w_dirty := w_dirty r;
     w_active := w_active r; w_deps := ds; w_newDeps := nds;
     w_depIds := ids; w_newDepIds := nids;
     w_value := w_value r |}.

(** ** Dep *)

(** Modelled from the spec: [remove] of [util/index] is not among the
    sources.  "[unregister(computation)] removes it": the item is taken out
    of the list where it first occurs, and a list without it is left as it
    is. *)
Fixpoint remove (arr : list nat) (item : nat) : list nat :=
  match arr with
  | [] => []
  | x :: rest => if decide (x = item) then rest else x :: remove rest item
  end.

(** [new Dep()]: [this.id = uid++; this.subs = []] *)
Definition newDep (st : State) : nat * State :=
  (dep_uid st, with_subs (<[dep_uid st := []]>) (with_dep_uid S st)).

(** [this.subs] of the Dep [d]. *)
Definition subsOf (st : State) (d : nat) : list nat :=
  default [] (subs st !! d).

Definition addSub (d sub : nat) (st : State) : State :=
  with_subs (<[d := subsOf st d ++ [sub]]>) st.

Definition removeSub (d sub : nat) (st : State) : State :=
  with_subs (<[d := remove (subsOf st d) sub]>) st.

(** The target stack grows at its head; [Dep.target] is [None] both for
    [null] and for [undefined]. *)
Definition pushTarget (t : option nat) (st : State) : State :=
  with_target (t :: targetStack st) t st.

Definition popTarget (st : State) : State :=
  let s := tail (targetStack st) in
  with_target s (mjoin (head s)) st.

(** ** Watcher: dependency collection *)

Definition addDep (w d : nat) (st : State) : State :=
  match watchers st !! w with
  | None => st
  | Some r =>
      if decide (d ∈ w_newDepIds r) then st
      else
        let st1 :=
          with_watcher (set_deps (w_deps r) (w_newDeps r ++ [d]) (w_depIds r)
                          ({[d]} ∪ w_newDepIds r)) w st in
        if decide (d ∈ w_depIds r) then st1 else addSub d w st1
  end.

(** [Dep.prototype.depend] *)
Definition depend (d : nat) (st : State) : State :=
  match target st with
  | Some w => addDep w d st
  | None => st
  end.

Definition cleanupDeps (w : nat) (st : State) : State :=
  match watchers st !! w with
  | None => st
  | Some r =>
      let st1 :=
        foldl (λ s d, if decide (d ∈ w_newDepIds r) then s else removeSub d w s)
              st (reverse (w_deps r)) in
      with_watcher (set_deps (w_newDeps r) [] (w_newDepIds r) ∅) w st1
  end.

Section Engine.
Context {host : Host}.

(** The [try] and [catch] blocks of [get]: the value, the error still to
    be thrown after [finally], and the state. *)
Definition call_getter (w : nat) (r : Watcher) (st : State)
    : JsVal * option JsVal * State :=
  let run := getter w st in
  let st1 := foldl (λ s d, depend d s) (emit (EvGetter w) st) (reads run) in
  match result run with
  | Normal v => (v, None, st1)
  | Throw e =>
      if w_user r then (VUndef, None, emit (EvHandleError e w) st1)
      else (VUndef, Some e, st1)
  end.

(** [Watcher.prototype.get] *)
Definition get (w : nat) (st : State) : Completion JsVal * State :=
  match watchers st !! w with
  | None => (Throw TypeError, st)
  | Some r =>
      let '(value, pending, st1) := call_getter w r (pushTarget (Some w) st) in
      (* finally *)
      let st2 :=
        if w_deep r then foldl (λ s d, depend d s) st1 (traverse st1 value)
        else st1 in
      let st3 := cleanupDeps w (popTarget st2) in
      match pending with
      | Some e => (Throw e, st3)
      | None => (Normal value, st3)
      end
  end.

(** The Deps whose [depend()] is called while [get] runs for [w] from
    [st]: those of the getter, then those of [traverse]. *)
Definition fired (w : nat) (st : State) : list nat :=
  match watchers st !! w with
  | None => []
  | Some r =>
      let '(value, _, st1) := call_getter w r (pushTarget (Some w) st) in
      reads (getter w (pushTarget (Some w) st))
      ++ (if w_deep r then traverse st1 value else [])
  end.

(** [Watcher.prototype.run] *)
Definition run (w : nat) (st : State) : Completion unit * State :=
  match watchers st !! w with
  | None => (Throw TypeError, st)
  | Some r =>
      if w_active r then
        match get w st with
        | (Throw e, st1) => (Throw e, st1)
        | (Normal value, st1) =>
            if negb (strict_eq value (w_value r)) || isObject value || w_deep r
            then
              (Normal (),
               emit (EvCallback w value (w_value r))
                    (with_watcher (set_value value) w st1))
            else (Normal (), st1)
        end
      else (Normal (), st)
  end.

(** Modelled from the spec: [queueWatcher] belongs to the scheduler, a file
    that is not among the sources.  "[enqueue(computation)] [...] If a
    flush is not already pending, schedule one for the next
    microtask-equivalent boundary"; "[flush()]: [...] run each in turn".
    Outside asynchronous scheduling, that is in a build that is not a
    production build while [config.async] is off, no flush is put off (the
    comment in [Dep.notify]: "subs aren't sorted in scheduler if not running
    async"): the flush is made inside the call, and the watcher is [run]
    there.  The scheduler is taken to be idle when the call is made, with
    no flush pending and none under way, and of what it does only the call
    back into this file is kept. *)
Definition queueWatcher (w : nat) (st : State) : Completion unit * State :=
  let st1 := emit (EvQueueWatcher w) st in
  if negb production && negb (config_async st) then run w st1
  else (Normal (), st1).

(** [Watcher.prototype.update] *)
Definition update (w : nat) (st : State) : Completion unit * State :=
  match watchers st !! w with
  | None => (Throw TypeError, st)
  | Some r =>
      if w_lazy r then (Normal (), with_watcher (set_dirty true) w st)
      else if w_sync r then run w st
      else queueWatcher w st
  end.

(** [Watcher.prototype.evaluate] *)
Definition evaluate (w : nat) (st : State) : Completion unit * State :=
  match get w st with
  | (Throw e, st1) => (Throw e, st1)
  | (Normal value, st1) =>
      (Normal (),
       with_watcher (set_dirty false) w (with_watcher (set_value value) w st1))
  end.

(** [Watcher.prototype.depend] *)
Definition watcher_depend (w : nat) (st : State) : State :=
  match watchers st !! w with
  | None => st
  | Some r => foldl (λ s d, depend d s) st (reverse (w_deps r))
  end.

(** [Watcher.prototype.teardown] *)
Definition teardown (w : nat) (st : State) : State :=
  match watchers st !! w with
  | None => st
  | Some r =>
      if w_active r then
        let st1 :=
          match vms st !! w_vm r with
          | Some v =>
              if vm_isBeingDestroyed v then st
              else
                with_vms (<[w_vm r :=
                  {| vm_watcher := vm_watcher v;
                     vm_watchers := remove (vm_watchers v) w;
                     vm_isBeingDestroyed := vm_isBeingDestroyed v |}]>) st
          | None => st
          end in
        let st2 := foldl (λ s d, removeSub d w s) st1 (reverse (w_deps r)) in
        with_watcher (set_active false) w st2
      else st
  end.

(** ** Dep.notify *)

(** [subs.sort((a, b) => a.id - b.id)] *)
Definition sort_by_id (l : list nat) : list nat := merge_sort (≤) l.

(** The loop [for (let i = 0, l = subs.length; i < l; i++) subs[i].update()]
    over the local array [snapshot], [n] iterations being left. *)
Fixpoint notify_loop (upd : nat → State → Completion unit * State)
    (snapshot : list nat) (i n : nat) (st : State) : Completion unit * State :=
  match n with
  | 0 => (Normal (), st)
  | S n' =>
      match snapshot !! i with
      | None => (Throw TypeError, st)
      | Some w =>
          match upd w st with
          | (Normal _, st1) => notify_loop upd snapshot (S i) n' st1
          | (Throw e, st1) => (Throw e, st1)
          end
      end
  end.

Definition notify_with (upd : nat → State → Completion unit * State)
    (d : nat) (st : State) : Completion unit * State :=
  let snapshot := subsOf st d in
  let snapshot :=
    if negb production && negb (config_async st) then sort_by_id snapshot
    else snapshot in
  notify_loop upd snapshot 0 (length snapshot) (emit (EvNotify d) st).

Definition notify (d : nat) (st : State) : Completion unit * State :=
  notify_with update d st.

(** The subscribers [notify] is going to update, in order, as fixed when
    it is entered. *)
Definition snapshot_order (st : State) (d : nat) : list nat :=
  if negb production && negb (config_async st) then sort_by_id (subsOf st d)
  else subsOf st d.

(** [update()] on each watcher of a list in turn, up to the first one that
    throws. *)
Fixpoint update_each (upd : nat → State → Completion unit * State)
    (ws : list nat) (st : State) : Completion unit * State :=
  match ws with
  | [] => (Normal (), st)
  | w :: rest =>
      match upd w st with
      | (Normal _, st1) => update_each upd rest st1
      | (Throw e, st1) => (Throw e, st1)
      end
  end.

(** [new Watcher(vm, expOrFn, cb, options, isRenderWatcher)]; the getter
    is the one the host associates with the new id. *)
Definition newWatcher (vm : nat) (deep user lazy sync isRenderWatcher : bool)
    (st : State) : Completion nat * State :=
  let w := S (watcher_uid st) in
  let st1 :=
    with_vms (alter (λ v,
      {| vm_watcher := if isRenderWatcher then Some w else vm_watcher v;
         vm_watchers := vm_watchers v ++ [w];
         vm_isBeingDestroyed := vm_isBeingDestroyed v |}) vm) st in
  let r :=
    {| w_vm := vm; w_deep := deep; w_user := user; w_lazy := lazy;
       w_sync := sync; w_dirty := lazy; w_active := true; w_deps := [];
       w_newDeps := []; w_depIds := ∅; w_newDepIds := ∅;
       w_value := VUndef |} in
  let st2 := with_watchers (<[w := r]>) (with_watcher_uid S st1) in
  if lazy then (Normal w, st2)
  else
    match get w st2 with
    | (Throw e, st3) => (Throw e, st3)
    | (Normal value, st3) => (Normal w, with_watcher (set_value value) w st3)
    end.

(** ** The observer *)

Fixpoint lookupProp (key : string) (ps : list (string * Property))
    : option Property :=
  match ps with
  | [] => None
  | (k, p) :: rest => if decide (k = key) then Some p else lookupProp key rest
  end.

Fixpoint lookupInherited (key : string) (ps : list (string * JsVal))
    : option JsVal :=
  match ps with
  | [] => None
  | (k, v) :: rest => if decide (k = key) then Some v else lookupInherited key rest
  end.

(** Redefinition keeps the place of the key, a new key goes last. *)
Fixpoint defineProp (key : string) (p : Property)
    (ps : list (string * Property)) : list (string * Property) :=
  match ps with
  | [] => [(key, p)]
  | (k, q) :: rest =>
      if decide (k = key) then (k, p) :: rest
      else (k, q) :: defineProp key p rest
  end.

Definition prop_enumerable (p : Property) : bool :=
  match p with
  | PData _ e _ _ => e
  | PAccessor _ _ e _ => e
  end.

Definition prop_configurable (p : Property) : bool :=
  match p with
  | PData _ _ c _ => c
  | PAccessor _ _ _ c => c
  end.

(** [Object.keys(obj)] *)
Definition keysOf (o : Obj) : list string :=
  (filter (λ kp, prop_enumerable kp.2 = true) (o_props o)).*1.

Definition isArray (o : Obj) : bool :=
  match o_kind o with KArray => true | _ => false end.

Definition isPlainObject (o : Obj) : bool :=
  match o_kind o with KPlain => true | _ => false end.

(** [key in target] for a name that is neither an element index nor one
    of the names kept outside [o_props] and [o_inherited]: [__ob__] of an
    object that holds an Observer, and [length] of an array. *)
Definition key_in (o : Obj) (key : string) : bool :=
  bool_decide (is_Some (lookupProp key (o_props o)))
  || bool_decide (is_Some (lookupInherited key (o_inherited o))).

Definition set_ob (k : option nat) (o : Obj) : Obj :=
  {| o_kind := o_kind o; o_elems := o_elems o; o_props := o_props o;
     o_inherited := o_inherited o; o_ob := k; o_extensible := o_extensible o;
     o_isVue := o_isVue o; o_isVNode := o_isVNode o;
     o_augmented := o_augmented o |}.

Definition set_augmented (b : bool) (o : Obj) : Obj :=
  {| o_kind := o_kind o; o_elems := o_elems o; o_props := o_props o;
     o_inherited := o_inherited o; o_ob := o_ob o;
     o_extensible := o_extensible o; o_isVue := o_isVue o;
     o_isVNode := o_isVNode o; o_augmented := b |}.

Definition set_props (ps : list (string * Property)) (o : Obj) : Obj :=
  {| o_kind := o_kind o; o_elems := o_elems o; o_props := ps;
     o_inherited := o_inherited o; o_ob := o_ob o;
     o_extensible := o_extensible o; o_isVue := o_isVue o;
     o_isVNode := o_isVNode o; o_augmented := o_augmented o |}.

Definition set_elems (es : list JsVal) (o : Obj) : Obj :=
  {| o_kind := o_kind o; o_elems := es; o_props := o_props o;
     o_inherited := o_inherited o; o_ob := o_ob o;
     o_extensible := o_extensible o; o_isVue := o_isVue o;
     o_isVNode := o_isVNode o; o_augmented := o_augmented o |}.

Definition set_val (v : JsVal) (c : Cell) : Cell :=
  {| c_obj := c_obj c; c_dep := c_dep c; c_val := v;
     c_childOb := c_childOb c; c_getter := c_getter c;
     c_setter := c_setter c; c_customSetter := c_customSetter c;
     c_shallow := c_shallow c |}.

Definition set_childOb (k : option nat) (c : Cell) : Cell :=
  {| c_obj := c_obj c; c_dep := c_dep c; c_val := c_val c;
     c_childOb := k; c_getter := c_getter c;
     c_setter := c_setter c; c_customSetter := c_customSetter c;
     c_shallow := c_shallow c |}.

Definition inc_vmCount (o : Observer) : Observer :=
  {| ob_value := ob_value o; ob_dep := ob_dep o;
     ob_vmCount := S (ob_vmCount o) |}.

(** [ob.dep.depend()] for the Observer numbered [k]. *)
Definition depend_ob (k : nat) (st : State) : State :=
  match observers st !! k with
  | Some ob => depend (ob_dep ob) st
  | None => st
  end.

(** A loop whose body may run out of fuel. *)
Fixpoint foldM {A : Type} (f : A → State → option State) (l : list A)
    (st : State) : option State :=
  match l with
  | [] => Some st
  | x :: rest =>
      match f x st with
      | Some st1 => foldM f rest st1
      | None => None
      end
  end.

(** [dependArray(value)] for the array at address [a]. *)
Fixpoint dependArray (fuel : nat) (a : nat) (st : State) : option State :=
  match fuel with
  | 0 => None
  | S f =>
      match objs st !! a with
      | None => Some st
      | Some o =>
          foldM (λ e s,
            match e with
            | VRef b =>
                match objs s !! b with
                | Some oe =>
                    let s1 :=
                      match o_ob oe with
                      | Some k => depend_ob k s
                      | None => s
                      end in
                    if isArray oe then dependArray f b s1 else Some s1
                | None => Some s
                end
            | _ => Some s
            end) (o_elems o) st
      end
  end.

Definition slotOf (st : State) (s : nat) : JsVal :=
  default VUndef (slots st !! s).

(** [reactiveGetter] of the cell [c]. *)
Fixpoint reactiveGetter (fuel : nat) (c : nat) (st : State)
    : option (JsVal * State) :=
  match fuel with
  | 0 => None
  | S f =>
      match cells st !! c with
      | None => None
      | Some cell =>
          match
            match c_getter cell with
            | None => Some (c_val cell, st)
            | Some (GUser s) => Some (slotOf st s, st)
            | Some (GReactive c') => reactiveGetter f c' st
            end
          with
          | None => None
          | Some (value, st1) =>
              match target st1 with
              | None => Some (value, st1)
              | Some _ =>
                  let st2 := depend (c_dep cell) st1 in
                  match c_childOb cell with
                  | None => Some (value, st2)
                  | Some k =>
                      let st3 := depend_ob k st2 in
                      match value with
                      | VRef b =>
                          match objs st3 !! b with
                          | Some o =>
                              if isArray o then
                                match dependArray f b st3 with
                                | Some st4 => Some (value, st4)
                                | None => None
                                end
                              else Some (value, st3)
                          | None => Some (value, st3)
                          end
                      | _ => Some (value, st3)
                      end
                  end
              end
          end
      end
  end.

(** [getter.call(obj)] *)
Definition callGetter (fuel : nat) (g : Getter) (st : State)
    : option (JsVal * State) :=
  match g with
  | GUser s => Some (slotOf st s, st)
  | GReactive c => reactiveGetter fuel c st
  end.

(** [obj[key]] for a name that is not an element index. *)
Definition readProp (fuel : nat) (a : nat) (key : string) (st : State)
    : option (JsVal * State) :=
  match objs st !! a with
  | None => Some (VUndef, st)
  | Some o =>
      match lookupProp key (o_props o) with
      | Some (PData v _ _ _) => Some (v, st)
      | Some (PAccessor (Some g) _ _ _) => callGetter fuel g st
      | Some (PAccessor None _ _ _) => Some (VUndef, st)
      | None => Some (default VUndef (lookupInherited key (o_inherited o)), st)
      end
  end.

(** The accessor property installed by [defineReactive]. *)
Definition reactiveProperty (c : nat) : Property :=
  PAccessor (Some (GReactive c)) (Some (SReactive c)) true true.

(** [Observer], [observe] and [defineReactive] call each other.  The
    bodies of [defineReactive], [walk], [observeArray] and [new Observer]
    are written first, over the [observe] they call. *)
Section ObserverBodies.
Variable fuel : nat.
Variable observe : JsVal → bool → State → option (Completion (option nat) * State).

(** [property && property.get] and [property && property.set] *)
Definition accessorsOf (property : option Property)
    : option Getter * option Setter :=
  match property with
  | Some (PAccessor g s _ _) => (g, s)
  | _ => (None, None)
  end.

(** [if ((!getter || setter) && arguments.length === 2) val = obj[key]] *)
Definition initialVal (a : nat) (key : string) (getter : option Getter)
    (setter : option Setter) (val : option JsVal) (st : State)
    : option (JsVal * State) :=
  if (bool_decide (getter = None) || bool_decide (is_Some setter))
     && bool_decide (val = None)
  then readProp fuel a key st
  else Some (default VUndef val, st).

(** [defineReactive(obj, key, val, customSetter, shallow)]; [val] is [None]
    when the call has two arguments. *)
Definition defineReactive_body (a : nat) (key : string) (val : option JsVal)
    (customSetter shallow : bool) (st : State)
    : option (Completion unit * State) :=
  let '(d, st1) := newDep st in
  match objs st1 !! a with
  | None => Some (Throw TypeError, st1)
  | Some o =>
      let property := lookupProp key (o_props o) in
      if bool_decide (prop_configurable <$> property = Some false)
      then Some (Normal (), st1)
      else
        let '(getter, setter) := accessorsOf property in
        match initialVal a key getter setter val st1 with
        | None => None
        | Some (val, st2) =>
            match
              if shallow then Some (Normal None, st2)
              else observe val false st2
            with
            | None => None
            | Some (Throw e, st3) => Some (Throw e, st3)
            | Some (Normal childOb, st3) =>
                let c := length (cells st3) in
                let st4 :=
                  with_cells (λ cs, cs ++
                    [{| c_obj := a; c_dep := d; c_val := val;
                        c_childOb := childOb; c_getter := getter;
                        c_setter := setter;
                        c_customSetter := customSetter;
                        c_shallow := shallow |}]) st3 in
                match objs st4 !! a with
                | None => Some (Throw TypeError, st4)
                | Some o4 =>
                    if bool_decide (is_Some (lookupProp key (o_props o4)))
                       || o_extensible o4
                    then
                      Some (Normal (),
                            with_objs (<[a := set_props
                              (defineProp key (reactiveProperty c)
                                 (o_props o4)) o4]>) st4)
                    else Some (Throw TypeError, st4)
                end
            end
        end
  end.

(** [walk(obj)], over [keys = Object.keys(obj)] *)
Fixpoint walk (a : nat) (keys : list string) (st : State)
    : option (Completion unit * State) :=
  match keys with
  | [] => Some (Normal (), st)
  | key :: rest =>
      match defineReactive_body a key None false false st with
      | None => None
      | Some (Throw e, st1) => Some (Throw e, st1)
      | Some (Normal _, st1) => walk a rest st1
      end
  end.

(** [observeArray(items)]: the loop from index [i], [n] iterations being
    left. *)
Fixpoint observeArray (a : nat) (i n : nat) (st : State)
    : option (Completion unit * State) :=
  match n with
  | 0 => Some (Normal (), st)
  | S n' =>
      let item := default VUndef (objs st !! a ≫= λ o, o_elems o !! i) in
      match observe item false st with
      | None => None
      | Some (Throw e, st1) => Some (Throw e, st1)
      | Some (Normal _, st1) => observeArray a (S i) n' st1
      end
  end.

(** [new Observer(value)] for the object [o] at address [a]. *)
Definition newObserver (a : nat) (o : Obj) (st : State)
    : option (Completion nat * State) :=
  let '(d, st1) := newDep st in
  let k := length (observers st1) in
  let st2 :=
    with_observers (λ l, l ++
      [{| ob_value := a; ob_dep := d; ob_vmCount := 0 |}]) st1 in
  let st3 := with_objs (alter (set_ob (Some k)) a) st2 in
  match
    if isArray o then
      observeArray a 0 (length (o_elems o))
        (with_objs (alter (set_augmented true) a) st3)
    else walk a (keysOf o) st3
  with
  | None => None
  | Some (Throw e, st4) => Some (Throw e, st4)
  | Some (Normal _, st4) => Some (Normal k, st4)
  end.

End ObserverBodies.

Fixpoint observe (fuel : nat) (value : JsVal) (asRootData : bool) (st : State)
    : option (Completion (option nat) * State) :=
  match fuel with
  | 0 => None
  | S f =>
      match value with
      | VRef a =>
          match objs st !! a with
          | None => Some (Normal None, st)
          | Some o =>
              if o_isVNode o then Some (Normal None, st)
              else
                match
                  match o_ob o with
                  | Some k => Some (Normal (Some k), st)
                  | None =>
                      if shouldObserve st && negb isServerRendering
                         && (isArray o || isPlainObject o)
                         && o_extensible o && negb (o_isVue o)
                      then
                        match newObserver f (observe f) a o st with
                        | None => None
                        | Some (Throw e, st1) => Some (Throw e, st1)
                        | Some (Normal k, st1) => Some (Normal (Some k), st1)
                        end
                      else Some (Normal None, st)
                  end
                with
                | None => None
                | Some (Throw e, st1) => Some (Throw e, st1)
                | Some (Normal ob, st1) =>
                    Some (Normal ob,
                          match ob with
                          | Some k =>
                              if asRootData
                              then with_observers (alter inc_vmCount k) st1
                              else st1
                          | None => st1
                          end)
                end
          end
      | _ => Some (Normal None, st)
      end
  end.

Definition defineReactive (fuel : nat) (a : nat) (key : string)
    (val : option JsVal) (customSetter shallow : bool) (st : State)
    : option (Completion unit * State) :=
  defineReactive_body fuel (observe fuel) a key val customSetter shallow st.

(** [newVal === value || (newVal !== newVal && value !== value)] *)
Definition unchanged (newVal value : JsVal) : bool :=
  strict_eq newVal value
  || (negb (strict_eq newVal newVal) && negb (strict_eq value value)).

(** [reactiveSetter] of the cell [c]. *)
Fixpoint reactiveSetter (fuel : nat) (c : nat) (newVal : JsVal) (st : State)
    : option (Completion unit * State) :=
  match fuel with
  | 0 => None
  | S f =>
      match cells st !! c with
      | None => None
      | Some cell =>
          match
            match c_getter cell with
            | Some g => callGetter f g st
            | None => Some (c_val cell, st)
            end
          with
          | None => None
          | Some (value, st1) =>
              if unchanged newVal value then Some (Normal (), st1)
              else
                let st2 :=
                  if negb production && c_customSetter cell
                  then emit (EvCustomSetter c) st1 else st1 in
                if bool_decide (is_Some (c_getter cell))
                   && bool_decide (c_setter cell = None)
                then Some (Normal (), st2)
                else
                  match
                    match c_setter cell with
                    | Some (SUser s) =>
                        Some (Normal (), with_slots (<[s := newVal]>) st2)
                    | Some (SReactive c') => reactiveSetter f c' newVal st2
                    | None =>
                        Some (Normal (),
                              with_cells (alter (set_val newVal) c) st2)
                    end
                  with
                  | None => None
                  | Some (Throw e, st3) => Some (Throw e, st3)
                  | Some (Normal _, st3) =>
                      match
                        if c_shallow cell then Some (Normal None, st3)
                        else observe f newVal false st3
                      with
                      | None => None
                      | Some (Throw e, st4) => Some (Throw e, st4)
                      | Some (Normal childOb, st4) =>
                          Some (notify (c_dep cell)
                                  (with_cells (alter (set_childOb childOb) c)
                                     st4))
                      end
                  end
          end
      end
  end.

(** [target[key] = val] in strict code, for a name that is not an element
    index. *)
Definition assign (fuel : nat) (a : nat) (key : string) (val : JsVal)
    (st : State) : option (Completion unit * State) :=
  match objs st !! a with
  | None => Some (Throw TypeError, st)
  | Some o =>
      match lookupProp key (o_props o) with
      | Some (PData _ e c true) =>
          Some (Normal (),
                with_objs (<[a := set_props
                  (defineProp key (PData val e c true) (o_props o)) o]>) st)
      | Some (PData _ _ _ false) => Some (Throw TypeError, st)
      | Some (PAccessor _ (Some (SUser s)) _ _) =>
          Some (Normal (), with_slots (<[s := val]>) st)
      | Some (PAccessor _ (Some (SReactive c)) _ _) =>
          reactiveSetter fuel c val st
      | Some (PAccessor _ None _ _) => Some (Throw TypeError, st)
      | None =>
          if o_extensible o then
            Some (Normal (),
                  with_objs (<[a := set_props
                    (o_props o ++ [(key, PData val true true true)]) o]>) st)
          else Some (Throw TypeError, st)
      end
  end.

(** The [RangeError] raised for a length that no array can have. *)
Definition RangeError : JsVal := VStr "RangeError".

(** The largest length of an array, 2^32 - 1. *)
Definition max_array_length : Z := 4294967295.

(** [target.length = n] on the elements of an array that is not longer
    than [n].  The indices that are added hold no element; such a hole is
    kept as [undefined], the value that reading it gives. *)
Definition growTo (n : nat) (es : list JsVal) : list JsVal :=
  es ++ replicate (n - length es) VUndef.

(** [target.length = Math.max(target.length, key); target.splice(key, 1, val)]
    on the elements of an array, where the array takes the element. *)
Definition splice1 (i : nat) (val : JsVal) (es : list JsVal) : list JsVal :=
  let es1 := growTo i es in
  take i es1 ++ val :: drop (S i) es1.

(** Modelled from the spec: the file that wraps the mutating array methods
    is not among the sources.  A wrapped method "(a) performs the
    underlying mutation, (b) reifies any newly-inserted composite values,
    and (c) announces the array's own Subject"; an array that was never
    reified has the plain method.

    The two statements [target.length = Math.max(target.length, key)] and
    [target.splice(key, 1, val)] of [set].  The assignment to [length]
    throws a [RangeError] for a length above 2^32 - 1, and lets the array
    grow otherwise, a non-extensible one as well.  [splice] then writes the
    element: an index at or past the old end is a new property, which a
    non-extensible array refuses with a [TypeError], the length staying as
    grown; at the index 2^32 - 1, which is the name of an ordinary
    property and no element, the value is assigned to that property and
    the length that follows, 2^32, is refused with a [RangeError].
    [notify] is reached when [splice] returns. *)
Definition spliceArray (fuel : nat) (a i : nat) (val : JsVal) (st : State)
    : option (Completion unit * State) :=
  match objs st !! a with
  | None => Some (Throw TypeError, st)
  | Some o =>
      let es := o_elems o in
      if bool_decide (length es < i)
         && bool_decide (max_array_length < Z.of_nat i)%Z
      then Some (Throw RangeError, st)
      else
        let st0 := with_objs (<[a := set_elems (growTo i es) o]>) st in
        if bool_decide (length es ≤ i) && negb (o_extensible o)
        then Some (Throw TypeError, st0)
        else if bool_decide (length es ≤ i)
                && bool_decide (Z.of_nat i = max_array_length)
        then
          match assign fuel a (pretty i) val st0 with
          | None => None
          | Some (Throw e, st1) => Some (Throw e, st1)
          | Some (Normal _, st1) => Some (Throw RangeError, st1)
          end
        else
          let st1 :=
            with_objs (<[a := set_elems (splice1 i val es) o]>) st in
          match (if o_augmented o then o_ob o else None) with
          | None => Some (Normal (), st1)
          | Some k =>
              match observe fuel val false st1 with
              | None => None
              | Some (Throw e, st2) => Some (Throw e, st2)
              | Some (Normal _, st2) =>
                  match observers st2 !! k with
                  | Some ob => Some (notify (ob_dep ob) st2)
                  | None => Some (Throw TypeError, st2)
                  end
              end
          end
  end.

Definition warn (st : State) : State :=
  if production then st else emit EvWarn st.

(** [set(target, key, val)], exported as [Vue.set]. *)
Definition set (fuel : nat) (target : JsVal) (key : string) (val : JsVal)
    (st : State) : option (Completion JsVal * State) :=
  let returning (r : option (Completion unit * State)) :=
    match r with
    | None => None
    | Some (Throw e, st1) => Some (Throw e, st1)
    | Some (Normal _, st1) => Some (Normal val, st1)
    end in
  match target with
  | VRef a =>
      match objs st !! a with
      | None => Some (Throw TypeError, st)
      | Some o =>
          match (if isArray o then isValidArrayIndex key else None) with
          | Some i => returning (spliceArray fuel a i val st)
          | None =>
              if key_in o key && negb (inObjectPrototype key)
              then returning (assign fuel a key val st)
              else
                let ob := o_ob o ≫= λ k, observers st !! k in
                if o_isVue o
                   || match ob with
                      | Some r => negb (ob_vmCount r =? 0)
                      | None => false
                      end
                then Some (Normal val, warn st)
                else
                  match ob with
                  | None => returning (assign fuel a key val st)
                  | Some r =>
                      match
                        defineReactive fuel (ob_value r) key (Some val)
                          false false st
                      with
                      | None => None
                      | Some (Throw e, st1) => Some (Throw e, st1)
                      | Some (Normal _, st1) =>
                          returning (Some (notify (ob_dep r) st1))
                      end
                  end
          end
      end
  | _ =>
      (* undefined, null or a primitive: the warning, then [key in target] *)
      Some (Throw TypeError, warn st)
  end.

(** ** States and steps *)

Definition init : State :=
  {| dep_uid := 0; subs := ∅; watcher_uid := 0; watchers := ∅;
     targetStack := []; target := None; vms := ∅; config_async := true;
     shouldObserve := true; objs := ∅; observers := []; cells := [];
     slots := ∅; log := [] |}.

(** What the code around the module may do to the state: anything that
    leaves the Deps, the watchers, the target stack, the observers and the
    closures of [defineReactive] alone. *)
Definition host_step (st st' : State) : Prop :=
  dep_uid st' = dep_uid st ∧ subs st' = subs st
  ∧ watcher_uid st' = watcher_uid st ∧ watchers st' = watchers st
  ∧ targetStack st' = targetStack st ∧ target st' = target st
  ∧ observers st' = observers st ∧ cells st' = cells st.

(** One call of an operation of the module, [addSub] left out: the only
    call of [addSub] in the sources is the one in [addDep]. *)
Inductive step : State → State → Prop :=
  | step_newDep st : step st (newDep st).2
  | step_removeSub d w st : step st (removeSub d w st)
  | step_depend d st : step st (depend d st)
  | step_notify d st : step st (notify d st).2
  | step_pushTarget t st : step st (pushTarget t st)
  | step_popTarget st : step st (popTarget st)
  | step_newWatcher vm deep user lazy sync rw st :
      step st (newWatcher vm deep user lazy sync rw st).2
  | step_get w st : step st (get w st).2
  | step_addDep w d st : step st (addDep w d st)
  | step_cleanupDeps w st : step st (cleanupDeps w st)
  | step_update w st : step st (update w st).2
  | step_run w st : step st (run w st).2
  | step_evaluate w st : step st (evaluate w st).2
  | step_watcher_depend w st : step st (watcher_depend w st)
  | step_teardown w st : step st (teardown w st)
  | step_observe fuel v root st r st' :
      observe fuel v root st = Some (r, st') → step st st'
  | step_defineReactive fuel a key val cs sh st r st' :
      defineReactive fuel a key val cs sh st = Some (r, st') → step st st'
  | step_reactiveGetter fuel c st v st' :
      reactiveGetter fuel c st = Some (v, st') → step st st'
  | step_reactiveSetter fuel c v st r st' :
      reactiveSetter fuel c v st = Some (r, st') → step st st'
  | step_set fuel t key v st r st' :
      set fuel t key v st = Some (r, st') → step st st'
  | step_host st st' : host_step st st' → step st st'.

Inductive reachable : State → Prop :=
  | reachable_init : reachable init
  | reachable_step st st' : reachable st → step st st' → reachable st'.

(** The links between Deps and watchers are sound: no subscriber twice,
    the id sets of a watcher are those of its Dep lists, a subscriber of a
    Dep holds that Dep, watcher ids are below the counter, and
    [Dep.target] is the top of the target stack. *)
Record graph_ok (st : State) : Prop := {
  ok_nodup : ∀ d, NoDup (subsOf st d);
  ok_ids : ∀ w r, watchers st !! w = Some r →
    w_depIds r = list_to_set (w_deps r)
    ∧ w_newDepIds r = list_to_set (w_newDeps r);
  ok_link : ∀ d w, w ∈ subsOf st d →
    ∃ r, watchers st !! w = Some r ∧ (d ∈ w_depIds r ∨ d ∈ w_newDepIds r);
  ok_uid : ∀ w, is_Some (watchers st !! w) → w ≤ watcher_uid st;
  ok_target : target st = mjoin (head (targetStack st))
}.

(** ** The heap during observation *)

(** The number of objects that carry no [__ob__]. *)
Definition unobserved (st : State) : nat :=
  size (filter (λ ao, o_ob ao.2 = None) (objs st)).

(** A property as user code defines it: data, or accessors that are not
    the closures of [defineReactive]. *)
Definition user_prop (p : Property) : bool :=
  match p with
  | PData _ _ _ _ => true
  | PAccessor g s _ _ =>
      match g with Some (GReactive _) => false | _ => true end
      && match s with Some (SReactive _) => false | _ => true end
  end.

(** The heap as user code and [observe] leave it: an object has each of
    its property names once, and an object that was never observed has
    user properties only. *)
Record heap_ok (st : State) : Prop := {
  hp_keys : ∀ a o, objs st !! a = Some o → NoDup (o_props o).*1;
  hp_user : ∀ a o key p, objs st !! a = Some o → o_ob o = None →
    lookupProp key (o_props o) = Some p → user_prop p = true
}.

(** The test [observe] makes before [new Observer(value)]. *)
Definition observable (st : State) (o : Obj) : bool :=
  shouldObserve st && negb isServerRendering
  && (isArray o || isPlainObject o) && o_extensible o && negb (o_isVue o).

(** [st'] is [st] after some observation: nothing but the heap, the
    closures, the observers and the Dep counter has changed, closures were
    only added, and the objects that had an observer in [st], those at the
    addresses [X] apart, are as they were. *)
Record grown_but (X : nat → Prop) (st st' : State) : Prop := {
  gr_log : log st' = log st;
  gr_watchers : watchers st' = watchers st;
  gr_target : target st' = target st;
  gr_targetStack : targetStack st' = targetStack st;
  gr_slots : slots st' = slots st;
  gr_shouldObserve : shouldObserve st' = shouldObserve st;
  gr_cells : ∃ l, cells st' = cells st ++ l;
  gr_observed : ∀ b o, ¬ X b → objs st !! b = Some o → is_Some (o_ob o) →
    objs st' !! b = Some o;
  gr_unobserved : unobserved st' ≤ unobserved st
}.

(** What [observe(value)] answers with [ob], leaving [st'], when called
    in [st]. *)
Definition reified (value : JsVal) (st : State) (ob : option nat)
    (st' : State) : Prop :=
  match value with
  | VRef a =>
      (∀ k, ob = Some k → ∃ o', objs st' !! a = Some o' ∧ o_ob o' = Some k)
      ∧ (∀ o, objs st !! a = Some o → o_isVNode o = false →
           is_Some (o_ob o) ∨ observable st o = true → is_Some ob)
  | _ => ob = None
  end.

(** What a reactive field holds, [getter ? getter.call(obj) : val], when
    the getter it wraps, if any, is a user getter. *)
Definition storedValue (st : State) (cell : Cell) : JsVal :=
  match c_getter cell with
  | Some (GUser s) => slotOf st s
  | _ => c_val cell
  end.

(** The entries of [notify] on the Dep [d] recorded in a log. *)
Definition is_notify (d : nat) (e : Event) : bool :=
  match e with
  | EvNotify d' => bool_decide (d' = d)
  | _ => false
  end.

Definition announcements (d : nat) (l : list Event) : nat :=
  length (filter (λ e, is_notify d e = true) l).

(** [st'] is [st] after some work of watchers: the heap, the closures and
    the observers are as they were, and the log has grown by entries that
    are not entries of [notify]. *)
Record quiet_step (st st' : State) : Prop := {
  qs_objs : objs st' = objs st;
  qs_cells : cells st' = cells st;
  qs_slots : slots st' = slots st;
  qs_observers : observers st' = observers st;
  qs_shouldObserve : shouldObserve st' = shouldObserve st;
  qs_log : ∃ l, log st' = log st ++ l ∧ ∀ d, announcements d l = 0
}.

(** A change of one watcher that leaves its Dep lists alone. *)
Definition keeps_deps (f : Watcher → Watcher) : Prop :=
  ∀ r, w_deps (f r) = w_deps r ∧ w_newDeps (f r) = w_newDeps r
       ∧ w_depIds (f r) = w_depIds r ∧ w_newDepIds (f r) = w_newDepIds r.

(** A property of states that every elementary change made by [observe]
    keeps. *)
Record stable_obs (P : State → Prop) : Prop := {
  st_newDep : ∀ st, P st → P (newDep st).2;
  st_depend : ∀ d st, P st → P (depend d st);
  st_set_ob : ∀ a k st o, objs st !! a = Some o → o_ob o = None →
    P st → P (with_objs (alter (set_ob (Some k)) a) st);
  st_augment : ∀ a st, P st → P (with_objs (alter (set_augmented true) a) st);
  st_props : ∀ a o ps st, objs st !! a = Some o →
    P st → P (with_objs (<[a := set_props ps o]>) st);
  st_observers : ∀ f st, P st → P (with_observers f st);
  st_cells : ∀ f st, P st → P (with_cells f st)
}.

(** A property that the setters and [notify] keep as well. *)
Record stable (P : State → Prop) : Prop := {
  st_obs : stable_obs P;
  st_elems : ∀ a o es st, objs st !! a = Some o →
    P st → P (with_objs (<[a := set_elems es o]>) st);
  st_slots : ∀ f st, P st → P (with_slots f st);
  st_emit : ∀ e st, P st → P (emit e st);
  st_notify : ∀ d st, P st → P (notify d st).2
}.

(** ** The rest of the observer's interface *)

Definition with_shouldObserve (b : bool) (st : State) : State :=
  {| dep_uid := dep_uid st; subs := subs st; watcher_uid := watcher_uid st;
     watchers := watchers st; targetStack := targetStack st; target := target st;
     vms := vms st; config_async := config_async st;
     shouldObserve := b; objs := objs st;
     observers := observers st; cells := cells st; slots := slots st;
     log := log st |}.

(** [toggleObserving(value)] *)
Definition toggleObserving (value : bool) (st : State) : State :=
  with_shouldObserve value st.

(** [Vue.observable = obj => { observe(obj); return obj }] *)
Definition Vue_observable (fuel : nat) (obj : JsVal) (st : State)
    : option (Completion JsVal * State) :=
  match observe fuel obj false st with
  | None => None
  | Some (Throw e, st1) => Some (Throw e, st1)
  | Some (Normal _, st1) => Some (Normal obj, st1)
  end.

(** [hasOwn(target, key)], the call of [Object.prototype.hasOwnProperty],
    for a name that is not an element index: the own properties, [__ob__]
    on an object that holds an Observer, and [length] on an array. *)
Definition hasOwn (o : Obj) (key : string) : bool :=
  bool_decide (is_Some (lookupProp key (o_props o)))
  || (bool_decide (key = "__ob__") && bool_decide (is_Some (o_ob o)))
  || (isArray o && bool_decide (key = "length")).

(** [delete target[key]] in strict code, for an own property: [None] is
    the [TypeError] thrown for a property that is not configurable.
    [__ob__] is defined configurable by [def]; [length] of an array is
    not configurable. *)
Definition deleteOwn (key : string) (o : Obj) : option Obj :=
  match lookupProp key (o_props o) with
  | Some p =>
      if prop_configurable p
      then Some (set_props (filter (λ kp, kp.1 ≠ key) (o_props o)) o)
      else None
  | None =>
      if bool_decide (key = "__ob__") && bool_decide (is_Some (o_ob o))
      then Some (set_ob None o)
      else None
  end.

(** Modelled from the spec: the file that wraps the mutating array methods
    is not among the sources.  [target.splice(key, 1)] through a wrapped
    method "(a) performs the underlying mutation, (b) reifies any
    newly-inserted composite values, and (c) announces the array's own
    Subject"; nothing is inserted here, and an array that was never
    reified has the plain method. *)
Definition spliceOut (a i : nat) (st : State) : Completion unit * State :=
  match objs st !! a with
  | None => (Throw TypeError, st)
  | Some o =>
      let st1 := with_objs (<[a := set_elems (delete i (o_elems o)) o]>) st in
      match (if o_augmented o then o_ob o else None) with
      | None => (Normal (), st1)
      | Some k =>
          match observers st1 !! k with
          | Some ob => notify (ob_dep ob) st1
          | None => (Throw TypeError, st1)
          end
      end
  end.

(** The own properties of a string: [length] and the indices of its
    characters. *)
Definition hasOwnString (s key : string) : bool :=
  bool_decide (key = "length")
  || existsb (λ i, bool_decide (key = pretty i)) (seq 0 (String.length s)).

(** [del(target, key)], exported as [Vue.delete]. *)
Definition del (target : JsVal) (key : string) (st : State)
    : Completion unit * State :=
  match target with
  | VRef a =>
      match objs st !! a with
      | None => (Throw TypeError, st)
      | Some o =>
          match (if isArray o then isValidArrayIndex key else None) with
          | Some i => spliceOut a i st
          | None =>
              let ob := o_ob o ≫= λ k, observers st !! k in
              if o_isVue o
                 || match ob with
                    | Some r => negb (ob_vmCount r =? 0)
                    | None => false
                    end
              then (Normal (), warn st)
              else if negb (hasOwn o key) then (Normal (), st)
              else
                match deleteOwn key o with
                | None => (Throw TypeError, st)
                | Some o' =>
                    let st1 := with_objs (<[a := o']>) st in
                    match ob with
                    | None => (Normal (), st1)
                    | Some r => notify (ob_dep r) st1
                    end
                end
          end
      end
  | VUndef | VNull =>
      (* the warning, then [target.__ob__] *)
      (Throw TypeError, warn st)
  | VStr s =>
      (* the warning; [delete] of an own property of a string throws *)
      if hasOwnString s key then (Throw TypeError, warn st)
      else (Normal (), warn st)
  | VBool _ | VNum _ => (Normal (), warn st)
  end.

(** The names that are kept outside [o_props]: [__ob__], held in [o_ob]
    when it is an Observer, and the [length] of an array.  [key] is none
    of them, and the object has no [__ob__] besides the one in [o_ob],
    own or inherited. *)
Definition ordinary_key (o : Obj) (key : string) : bool :=
  negb (bool_decide (key = "__ob__"))
  && negb (isArray o && bool_decide (key = "length"))
  && bool_decide (lookupProp "__ob__" (o_props o) = None)
  && bool_decide (lookupInherited "__ob__" (o_inherited o) = None).

(** [obj[key]] for an own property [p] that user code defined. *)
Definition valueOf (st : State) (p : Property) : JsVal :=
  match p with
  | PData v _ _ _ => v
  | PAccessor (Some (GUser s)) _ _ _ => slotOf st s
  | PAccessor _ _ _ _ => VUndef
  end.

(** The object at [b] is one that [observe] answers with an Observer:
    it is no VNode, and it holds an Observer or passes the test made
    before [new Observer]. *)
Definition reifiable (st : State) (b : nat) : Prop :=
  ∃ oe, objs st !! b = Some oe ∧ o_isVNode oe = false
        ∧ (is_Some (o_ob oe) ∨ observable st oe = true).

Definition holds_observer (st : State) (b : nat) : Prop :=
  ∃ oe, objs st !! b = Some oe ∧ is_Some (o_ob oe).

(** A property of states that every elementary change made by
    [observe(value)], without [asRootData], keeps: observers and closures
    are only added. *)
Record stable_new (P : State → Prop) : Prop := {
  sn_newDep : ∀ st, P st → P (newDep st).2;
  sn_depend : ∀ d st, P st → P (depend d st);
  sn_set_ob : ∀ a k st o, objs st !! a = Some o → o_ob o = None →
    P st → P (with_objs (alter (set_ob (Some k)) a) st);
  sn_augment : ∀ a st, P st → P (with_objs (alter (set_augmented true) a) st);
  sn_props : ∀ a o ps st, objs st !! a = Some o →
    P st → P (with_objs (<[a := set_props ps o]>) st);
  sn_observer : ∀ a d st, P st →
    P (with_observers (λ l, l ++
         [{| ob_value := a; ob_dep := d; ob_vmCount := 0 |}]) st);
  sn_cell : ∀ x st, P st → P (with_cells (λ cs, cs ++ [x]) st)
}.

End Engine.

(** * A scenario *)

(** Two Deps, one instance and a few watchers.  The getter of watcher 1
    reads Dep 1 as long as watcher 2 does not exist and Dep 0 (twice)
    afterwards; watcher 2 reads Dep 0; the getters of watchers 3 and 4
    throw after reading. *)
Definition demo_getter (w : nat) (st : State) : GetterRun :=
  match w with
  | 1 =>
      {| reads := if bool_decide (is_Some (watchers st !! 2)) then [0; 0]
                  else [1];
         result := Normal (VNum (Fin 1)) |}
  | 2 => {| reads := [0]; result := Normal VUndef |}
  | 3 => {| reads := [0; 1]; result := Throw (VStr "boom") |}
  | 4 => {| reads := [1]; result := Throw (VStr "boom") |}
  | _ => {| reads := []; result := Normal VUndef |}
  end.

Definition demo_host (prod : bool) : Host :=
  {| production := prod;
     isServerRendering := false;
     getter := demo_getter;
     traverse := λ _ _, [];
     isValidArrayIndex := λ key,
       if String.eqb key "0" then Some 0
       else if String.eqb key "1" then Some 1 else None;
     inObjectPrototype := λ key, String.eqb key "toString" |}.

Definition dev_host : Host := demo_host false.
Definition prod_host : Host := demo_host true.

Definition with_config_async (b : bool) (st : State) : State :=
  {| dep_uid := dep_uid st; subs := subs st; watcher_uid := watcher_uid st;
     watchers := watchers st; targetStack := targetStack st; target := target st;
     vms := vms st; config_async := b;
     shouldObserve := shouldObserve st; objs := objs st;
     observers := observers st; cells := cells st; slots := slots st;
     log := log st |}.

Definition demo_vm (destroying : bool) (ws : list nat) : Vm :=
  {| vm_watcher := None; vm_watchers := ws;
     vm_isBeingDestroyed := destroying |}.

(** The instance and the two Deps. *)
Definition demo1 : State :=
  (newDep (newDep (with_vms (<[0 := demo_vm false []]>) init)).2).2.

(** Watcher 1, then watcher 2, are created ([config.async] being off from
    there on); then watcher 1 is run again. *)
Definition demo2 : State :=
  (newWatcher (host := dev_host) 0 false false false false false demo1).2.

Definition demo3 : State :=
  with_config_async false
    (newWatcher (host := dev_host) 0 false false false false false demo2).2.

Definition demo4 : State := (run (host := dev_host) 1 demo3).2.

(** A lazy [user] watcher (3) and a lazy internal one (4), whose getters
    throw. *)
Definition demo5 : State :=
  (newWatcher (host := dev_host) 0 false false true false false
     (newWatcher (host := dev_host) 0 false true true false false demo4).2).2.

(** The instance is being destroyed. *)
Definition demo6 : State :=
  with_vms (<[0 := demo_vm true [1; 2; 3; 4]]>) demo5.

(** After [demo4], the lazy [user] watcher 3 is created, a sync watcher 4
    whose getter throws is created, and watcher 3 is evaluated. *)
Definition demo7 : State :=
  (evaluate (host := dev_host) 3
     (newWatcher (host := dev_host) 0 false false false true false
        (newWatcher (host := dev_host) 0 false true true false false
           demo4).2).2).2.

(** After [demo5], the lazy watcher 3 is evaluated and [config.async] is
    switched on. *)
Definition demo8 : State :=
  with_config_async true (evaluate (host := dev_host) 3 demo5).2.

(** A heap: the object [{a: 1, b: {c: 2}}] at addresses 0 and 1, an empty
    array at 2, an object at 3 whose property [g] has a getter (reading
    slot 0, which holds 5) and no setter, and the object [{c: 9}] at 4. *)
Definition plain_object (ps : list (string * Property)) : Obj :=
  {| o_kind := KPlain; o_elems := []; o_props := ps; o_inherited := [];
     o_ob := None; o_extensible := true; o_isVue := false;
     o_isVNode := false; o_augmented := false |}.

Definition data (v : JsVal) : Property := PData v true true true.

Definition heap0 : State :=
  with_slots (λ _, {[0 := VNum (Fin 5)]})
    (with_objs (λ _, list_to_map
       [(0, plain_object [("a", data (VNum (Fin 1))); ("b", data (VRef 1))]);
        (1, plain_object [("c", data (VNum (Fin 2)))]);
        (2, {| o_kind := KArray; o_elems := []; o_props := [];
               o_inherited := []; o_ob := None; o_extensible := true;
               o_isVue := false; o_isVNode := false;
               o_augmented := false |});
        (3, plain_object [("g", PAccessor (Some (GUser 0)) None true true)]);
        (4, plain_object [("c", data (VNum (Fin 9)))])])
       init).

(** The state a call of [observe] leaves, the heap as it was when the
    call does not return. *)
Definition observed (fuel : nat) (value : JsVal) (asRootData : bool)
    (st : State) : State :=
  match observe (host := dev_host) fuel value asRootData st with
  | Some (_, st') => st'
  | None => st
  end.

(** The object at 0 and the array at 2 are observed as root data, the
    object at 3 is observed. *)
Definition heap1 : State :=
  observed 3 (VRef 3) false
    (observed 3 (VRef 2) true (observed 3 (VRef 0) true heap0)).

(** The heap after the first of these calls, and, in [heap1], the closure
    of the field [b] of the object at 0, the closure of the field [g] of
    the object at 3, and the object at 0. *)
Definition heap0' : State := observed 3 (VRef 0) true heap0.

Definition cell_b : Cell :=
  {| c_obj := 0; c_dep := 2; c_val := VRef 1; c_childOb := Some 1;
     c_getter := None; c_setter := None; c_customSetter := false;
     c_shallow := false |}.

Definition cell_g : Cell :=
  {| c_obj := 3; c_dep := 7; c_val := VUndef; c_childOb := None;
     c_getter := Some (GUser 0); c_setter := None; c_customSetter := false;
     c_shallow := false |}.

Definition root_object : Obj :=
  {| o_kind := KPlain; o_elems := [];
     o_props := [("a", reactiveProperty 0); ("b", reactiveProperty 2)];
     o_inherited := []; o_ob := Some 0; o_extensible := true;
     o_isVue := false; o_isVNode := false; o_augmented := false |}.

(** In [heap1]: the closure of the field [a] of the object at 0, the
    object at 1, the array at 2 and the object at 4, which has no
    Observer. *)
Definition cell_a : Cell :=
  {| c_obj := 0; c_dep := 1; c_val := VNum (Fin 1); c_childOb := None;
     c_getter := None; c_setter := None; c_customSetter := false;
     c_shallow := false |}.

Definition child_object : Obj :=
  {| o_kind := KPlain; o_elems := [];
     o_props := [("c", reactiveProperty 1)];
     o_inherited := []; o_ob := Some 1; o_extensible := true;
     o_isVue := false; o_isVNode := false; o_augmented := false |}.

Definition root_array : Obj :=
  {| o_kind := KArray; o_elems := []; o_props := []; o_inherited := [];
     o_ob := Some 2; o_extensible := true; o_isVue := false;
     o_isVNode := false; o_augmented := true |}.

Definition loose_object : Obj := plain_object [("c", data (VNum (Fin 9)))].

(** Watcher 1 is created over the observed heap: its getter reads Dep 1,
    the Dep of the field [a] of the object at 0. *)
Definition heap2 : State :=
  (newWatcher (host := dev_host) 0 false false false false false heap1).2.

(** The object at 4 is put into the array at 2 with [set], and watcher 1 is
    under evaluation. *)
Definition heap3 : State :=
  pushTarget (Some 1)
    match set (host := dev_host) 2 (VRef 2) "0" (VRef 4) heap2 with
    | Some (_, st') => st'
    | None => heap2
    end.

Definition filled_array : Obj :=
  {| o_kind := KArray; o_elems := [VRef 4]; o_props := []; o_inherited := [];
     o_ob := Some 2; o_extensible := true; o_isVue := false;
     o_isVNode := false; o_augmented := true |}.

(** The check of [heap_ok] on a given heap. *)
Definition heap_okb (st : State) : bool :=
  bool_decide (map_Forall (λ _ o,
    NoDup (o_props o).*1
    ∧ (o_ob o = None → Forall (λ kp, user_prop kp.2 = true) (o_props o)))
    (objs st)).

(** * Properties *)

Section Properties.
Context {host : Host}.

(** ** Lists of subscribers *)

Lemma elem_of_remove x item l : x ∈ remove l item → x ∈ l.
Proof.
  induction l as [|y l IH]; simpl; [done|].
  case_decide; set_solver.
Qed.

Lemma elem_of_remove_ne x item l : x ≠ item → x ∈ l → x ∈ remove l item.
Proof.
  intros Hne. induction l as [|y l IH]; simpl; [done|].
  case_decide; set_solver.
Qed.

Lemma NoDup_remove_first item l : NoDup l → NoDup (remove l item).
Proof.
  induction 1 as [|y l Hy Hl IH]; simpl; [constructor|].
  case_decide; [done|]. constructor; [|done].
  intros Hin. apply Hy. by eapply elem_of_remove.
Qed.

Lemma not_elem_of_remove item l : NoDup l → item ∉ remove l item.
Proof.
  induction 1 as [|y l Hy Hl IH]; simpl; [set_solver|].
  case_decide; [by subst|]. set_solver.
Qed.

Lemma remove_absent item l : item ∉ l → remove l item = l.
Proof.
  induction l as [|y l IH]; simpl; [done|]. intros Hn.
  case_decide; [set_solver|]. f_equal. apply IH. set_solver.
Qed.

Lemma subsOf_addSub d w st d' :
  subsOf (addSub d w st) d' =
    if decide (d = d') then subsOf st d ++ [w] else subsOf st d'.
Proof.
  unfold subsOf, addSub; simpl. case_decide as Hd.
  - subst. by rewrite lookup_insert_eq.
  - by rewrite lookup_insert_ne.
Qed.

Lemma subsOf_removeSub d w st d' :
  subsOf (removeSub d w st) d' =
    if decide (d = d') then remove (subsOf st d) w else subsOf st d'.
Proof.
  unfold subsOf, removeSub; simpl. case_decide as Hd.
  - subst. by rewrite lookup_insert_eq.
  - by rewrite lookup_insert_ne.
Qed.

(** ** The link invariant *)

Lemma graph_ok_ext st st' :
  graph_ok st →
  subs st' = subs st → watchers st' = watchers st →
  watcher_uid st' = watcher_uid st →
  targetStack st' = targetStack st → target st' = target st →
  graph_ok st'.
Proof.
  intros [H1 H2 H3 H4 H5] Es Ew Eu Ek Et.
  split; unfold subsOf in *; rewrite ?Es, ?Ew, ?Eu, ?Ek, ?Et; done.
Qed.

Lemma keeps_deps_set_dirty b : keeps_deps (set_dirty b).
Proof. by intros r. Qed.

Lemma keeps_deps_set_active b : keeps_deps (set_active b).
Proof. by intros r. Qed.

Lemma keeps_deps_set_value v : keeps_deps (set_value v).
Proof. by intros r. Qed.

Lemma graph_ok_with_watcher f w st :
  keeps_deps f → graph_ok st → graph_ok (with_watcher f w st).
Proof.
  intros Hf [H1 H2 H3 H4 H5]. split; simpl; try done.
  - intros w' r'. rewrite lookup_alter. case_decide as Hw; [|by apply H2].
    subst w'. destruct (watchers st !! w) as [r|] eqn:Er; [|done].
    intros [= <-]. destruct (Hf r) as (-> & -> & -> & ->). by apply (H2 w).
  - intros d w' Hin. destruct (H3 d w' Hin) as (r & Er & Hd).
    destruct (decide (w = w')) as [->|Hne].
    + exists (f r). rewrite lookup_alter_eq, Er. split; [done|].
      destruct (Hf r) as (_ & _ & -> & ->). done.
    + exists r. by rewrite lookup_alter_ne.
  - intros w' Hs. apply H4. by rewrite lookup_alter_is_Some in Hs.
Qed.

Lemma graph_ok_emit e st : graph_ok st → graph_ok (emit e st).
Proof. intros Hok. by eapply graph_ok_ext. Qed.

Lemma graph_ok_removeSub d w st : graph_ok st → graph_ok (removeSub d w st).
Proof.
  intros [H1 H2 H3 H4 H5]. split; try done.
  - intros d'. rewrite subsOf_removeSub. case_decide; [|done].
    by apply NoDup_remove_first.
  - intros d' w'. rewrite subsOf_removeSub. case_decide; [|by apply H3].
    subst d'. intros Hin%elem_of_remove. by apply H3.
Qed.

Lemma graph_ok_addDep w d st : graph_ok st → graph_ok (addDep w d st).
Proof.
  intros Hok. unfold addDep.
  destruct (watchers st !! w) as [r|] eqn:Er; [|done].
  case_decide as Hnew; [done|].
  destruct Hok as [H1 H2 H3 H4 H5].
  destruct (H2 w r Er) as [Hids Hnids].
  set (r' := set_deps (w_deps r) (w_newDeps r ++ [d]) (w_depIds r)
               ({[d]} ∪ w_newDepIds r)).
  assert (Hok1 : graph_ok (with_watcher r' w st)).
  { split; simpl; try done.
    - intros w' r0. rewrite lookup_alter. case_decide as Hw; [|by apply H2].
      subst w'. rewrite Er. intros [= <-]. simpl. split; [done|].
      rewrite Hnids. set_solver.
    - intros d' w' Hin. destruct (H3 d' w' Hin) as (r0 & Er0 & Hd).
      destruct (decide (w = w')) as [->|Hne].
      + exists (r' r). rewrite lookup_alter_eq, Er. split; [done|].
        simpl. rewrite Er in Er0. injection Er0 as <-. set_solver.
      + exists r0. by rewrite lookup_alter_ne.
    - intros w' Hs. apply H4. by rewrite lookup_alter_is_Some in Hs. }
  case_decide as Hold; [done|].
  destruct Hok1 as [K1 K2 K3 K4 K5]. split; try done.
  - intros d'. rewrite subsOf_addSub. case_decide as Hd; [|by apply K1].
    subst d'. apply NoDup_app. split_and!; [apply K1| |apply NoDup_singleton].
    intros x Hx ->%list_elem_of_singleton.
    destruct (H3 d w Hx) as (r0 & Er0 & Hd). rewrite Er in Er0.
    injection Er0 as <-. tauto.
  - intros d' w'. rewrite subsOf_addSub. case_decide as Hd; [|by apply K3].
    subst d'. rewrite elem_of_app, list_elem_of_singleton.
    intros [Hin| ->]; [by apply K3|].
    exists (r' r). simpl. rewrite lookup_alter_eq, Er. split; [done|].
    right. set_solver.
Qed.

Lemma graph_ok_depend d st : graph_ok st → graph_ok (depend d st).
Proof.
  intros Hok. unfold depend. destruct (target st); [|done].
  by apply graph_ok_addDep.
Qed.

Lemma graph_ok_depend_all ds st :
  graph_ok st → graph_ok (foldl (λ s d, depend d s) st ds).
Proof.
  revert st. induction ds as [|d ds IH]; intros st Hok; simpl; [done|].
  apply IH. by apply graph_ok_depend.
Qed.

Lemma graph_ok_pushTarget t st : graph_ok st → graph_ok (pushTarget t st).
Proof. intros [H1 H2 H3 H4 H5]. by split. Qed.

Lemma graph_ok_popTarget st : graph_ok st → graph_ok (popTarget st).
Proof. intros [H1 H2 H3 H4 H5]. by split. Qed.

(** The loop of [cleanupDeps] and of [teardown]: [removeSub] on the Deps
    of a list that are not in [keep]. *)
Lemma drop_stale_spec (keep : gset nat) w ds st :
  let st' :=
    foldl (λ s d, if decide (d ∈ keep) then s else removeSub d w s) st ds in
  watchers st' = watchers st ∧ watcher_uid st' = watcher_uid st
  ∧ targetStack st' = targetStack st ∧ target st' = target st
  ∧ vms st' = vms st ∧ log st' = log st
  ∧ (∀ d x, x ∈ subsOf st' d → x ∈ subsOf st d)
  ∧ (∀ d x, x ≠ w → x ∈ subsOf st d → x ∈ subsOf st' d)
  ∧ (∀ d, d ∈ keep ∨ d ∉ ds → subsOf st' d = subsOf st d)
  ∧ (∀ d, NoDup (subsOf st d) → NoDup (subsOf st' d))
  ∧ (∀ d, NoDup (subsOf st d) → d ∈ ds → d ∉ keep → w ∉ subsOf st' d).
Proof.
  revert st. induction ds as [|d0 ds IH]; intros st; simpl.
  { split_and!; try done. intros d _ Hd. by apply not_elem_of_nil in Hd. }
  set (st0 := if decide (d0 ∈ keep) then st else removeSub d0 w st).
  destruct (IH st0)
    as (E1 & E2 & E3 & E4 & E5 & E6 & Ha & Hb & Hc & Hn & Hd).
  assert (Hsub : ∀ d, subsOf st0 d =
    if decide (d0 ∈ keep) then subsOf st d
    else if decide (d0 = d) then remove (subsOf st d0) w else subsOf st d).
  { intros d. unfold st0. case_decide; [done|]. apply subsOf_removeSub. }
  assert (Hnd0 : ∀ d, NoDup (subsOf st d) → NoDup (subsOf st0 d)).
  { intros d Hnd. rewrite Hsub. repeat case_decide; subst;
      auto using NoDup_remove_first. }
  split_and!.
  - rewrite E1. unfold st0. by case_decide.
  - rewrite E2. unfold st0. by case_decide.
  - rewrite E3. unfold st0. by case_decide.
  - rewrite E4. unfold st0. by case_decide.
  - rewrite E5. unfold st0. by case_decide.
  - rewrite E6. unfold st0. by case_decide.
  - intros d x Hx%Ha. rewrite Hsub in Hx.
    repeat case_decide; subst; eauto using elem_of_remove.
  - intros d x Hne Hx. apply Hb; [done|]. rewrite Hsub.
    repeat case_decide; subst; auto using elem_of_remove_ne.
  - intros d Hd0. rewrite Hc, Hsub.
    + repeat case_decide; subst; try done.
      destruct Hd0 as [?|Hd0]; [done|]. exfalso. apply Hd0. by left.
    + destruct Hd0 as [?|Hd0]; [by left|]. right.
      intros ?. apply Hd0. by right.
  - intros d Hnd. by apply Hn, Hnd0.
  - intros d Hnd Hin Hk. destruct (decide (d ∈ ds)) as [Hds|Hds].
    + apply Hd; auto.
    + apply elem_of_cons in Hin as [->|?]; [|done].
      rewrite Hc by auto. rewrite Hsub.
      rewrite decide_False by done. rewrite decide_True by done.
      by apply not_elem_of_remove.
Qed.

Lemma graph_ok_cleanupDeps w st : graph_ok st → graph_ok (cleanupDeps w st).
Proof.
  intros Hok. unfold cleanupDeps.
  destruct (watchers st !! w) as [r|] eqn:Er; [|done].
  pose proof (drop_stale_spec (w_newDepIds r) w (reverse (w_deps r)) st)
    as (E1 & E2 & E3 & E4 & _ & _ & Ha & Hb & Hc & Hn & Hd).
  set (st1 := foldl _ st _) in *.
  destruct Hok as [H1 H2 H3 H4 H5].
  destruct (H2 w r Er) as [Hids Hnids].
  split; simpl.
  - intros d. apply Hn, H1.
  - intros w' r0. rewrite E1, lookup_alter. case_decide as Hw; [|by apply H2].
    subst w'. rewrite Er. intros [= <-]. simpl. split; [done|set_solver].
  - intros d w' Hin. change (w' ∈ subsOf st1 d) in Hin.
    destruct (H3 d w' (Ha _ _ Hin)) as (r0 & Er0 & Hr0).
    rewrite E1. destruct (decide (w = w')) as [<-|Hne].
    + rewrite lookup_alter_eq, Er. eexists; split; [done|]. simpl.
      rewrite Er in Er0. injection Er0 as <-.
      destruct (decide (d ∈ w_newDepIds r)) as [?|Hstale]; [by left|].
      destruct Hr0 as [Hr0|?]; [|done]. exfalso.
      apply (Hd d); [apply H1| |done|done].
      apply elem_of_reverse. rewrite Hids in Hr0. set_solver.
    + exists r0. by rewrite lookup_alter_ne.
  - intros w' Hs. rewrite E2. apply H4.
    rewrite E1, lookup_alter_is_Some in Hs. done.
  - by rewrite E3, E4.
Qed.

Lemma graph_ok_newDep st : graph_ok st → graph_ok (newDep st).2.
Proof.
  intros [H1 H2 H3 H4 H5]. split; try done; simpl.
  - intros d. unfold subsOf; simpl.
    destruct (decide (dep_uid st = d)) as [->|Hne].
    + rewrite lookup_insert_eq. constructor.
    + rewrite lookup_insert_ne by done. apply H1.
  - intros d w. unfold subsOf; simpl.
    destruct (decide (dep_uid st = d)) as [->|Hne].
    + rewrite lookup_insert_eq. simpl. by intros ?%not_elem_of_nil.
    + rewrite lookup_insert_ne by done. apply H3.
Qed.

Lemma graph_ok_get w st : graph_ok st → graph_ok (get w st).2.
Proof.
  intros Hok. unfold get.
  destruct (watchers st !! w) as [r|]; [|done].
  assert (Hc : graph_ok (call_getter w r (pushTarget (Some w) st)).2).
  { unfold call_getter.
    assert (graph_ok (foldl (λ s d, depend d s)
              (emit (EvGetter w) (pushTarget (Some w) st))
              (reads (getter w (pushTarget (Some w) st))))).
    { by apply graph_ok_depend_all, graph_ok_emit, graph_ok_pushTarget. }
    destruct (result _); [done|].
    destruct (w_user r); simpl; [by apply graph_ok_emit|done]. }
  destruct (call_getter w r _) as [[value pending] st1]. simpl in Hc.
  assert (graph_ok (cleanupDeps w (popTarget
    (if w_deep r then foldl (λ s d, depend d s) st1 (traverse st1 value)
     else st1)))).
  { apply graph_ok_cleanupDeps, graph_ok_popTarget.
    destruct (w_deep r); [by apply graph_ok_depend_all|done]. }
  by destruct pending.
Qed.

Lemma graph_ok_run w st : graph_ok st → graph_ok (run w st).2.
Proof.
  intros Hok. unfold run.
  destruct (watchers st !! w) as [r|]; [|done].
  destruct (w_active r); [|done].
  pose proof (graph_ok_get w st Hok) as Hg.
  destruct (get w st) as [[v|e] st1]; simpl in *; [|done].
  destruct (_ || _); [|done]. simpl.
  by apply graph_ok_emit, graph_ok_with_watcher, Hg;
    apply keeps_deps_set_value.
Qed.

Lemma graph_ok_update w st : graph_ok st → graph_ok (update w st).2.
Proof.
  intros Hok. unfold update.
  destruct (watchers st !! w) as [r|]; [|done].
  destruct (w_lazy r); simpl.
  { apply graph_ok_with_watcher; [apply keeps_deps_set_dirty|done]. }
  destruct (w_sync r); [by apply graph_ok_run|].
  unfold queueWatcher.
  destruct (_ && _); [by apply graph_ok_run, graph_ok_emit|].
  by apply graph_ok_emit.
Qed.

Lemma graph_ok_evaluate w st : graph_ok st → graph_ok (evaluate w st).2.
Proof.
  intros Hok. unfold evaluate.
  pose proof (graph_ok_get w st Hok) as Hg.
  destruct (get w st) as [[v|e] st1]; simpl in *; [|done].
  apply graph_ok_with_watcher; [apply keeps_deps_set_dirty|].
  apply graph_ok_with_watcher; [apply keeps_deps_set_value|done].
Qed.

Lemma graph_ok_watcher_depend w st :
  graph_ok st → graph_ok (watcher_depend w st).
Proof.
  intros Hok. unfold watcher_depend.
  destruct (watchers st !! w); [by apply graph_ok_depend_all|done].
Qed.

Lemma teardown_loop_eq w ds st :
  foldl (λ s d, removeSub d w s) st ds =
  foldl (λ s d, if decide (d ∈ (∅ : gset nat)) then s else removeSub d w s)
        st ds.
Proof.
  revert st. induction ds as [|d ds IH]; intros st; cbn [foldl]; [done|].
  rewrite decide_False by set_solver. apply IH.
Qed.

Lemma graph_ok_remove_all w ds st :
  graph_ok st → graph_ok (foldl (λ s d, removeSub d w s) st ds).
Proof.
  revert st. induction ds as [|d ds IH]; intros st Hok; simpl; [done|].
  by apply IH, graph_ok_removeSub.
Qed.

Lemma graph_ok_teardown w st : graph_ok st → graph_ok (teardown w st).
Proof.
  intros Hok. unfold teardown.
  destruct (watchers st !! w) as [r|]; [|done].
  destruct (w_active r); [|done].
  apply graph_ok_with_watcher; [apply keeps_deps_set_active|].
  apply graph_ok_remove_all.
  destruct (vms st !! w_vm r) as [v|]; [|done].
  destruct (vm_isBeingDestroyed v); [done|]. by eapply graph_ok_ext.
Qed.

(** [notify] over any [update] that keeps a property of states keeps it. *)
Lemma notify_loop_preserves (P : State → Prop) upd snapshot i n st :
  (∀ w s, P s → P (upd w s).2) →
  P st → P (notify_loop upd snapshot i n st).2.
Proof.
  intros Hupd. revert i st. induction n as [|n IH]; intros i st HP; simpl;
    [done|].
  destruct (snapshot !! i) as [w|]; [|done].
  pose proof (Hupd w st HP) as H1.
  destruct (upd w st) as [[[]|e] st1]; simpl in *; [by apply IH|done].
Qed.

Lemma graph_ok_notify d st : graph_ok st → graph_ok (notify d st).2.
Proof.
  intros Hok. unfold notify, notify_with.
  apply notify_loop_preserves; [apply graph_ok_update|by apply graph_ok_emit].
Qed.

Lemma graph_ok_newWatcher vm deep user lazy sync rw st :
  graph_ok st → graph_ok (newWatcher vm deep user lazy sync rw st).2.
Proof.
  intros [H1 H2 H3 H4 H5]. unfold newWatcher.
  set (w := S (watcher_uid st)).
  set (r := Build_Watcher _ _ _ _ _ _ _ _ _ _ _ _).
  set (st2 := with_watchers _ _).
  assert (Hfresh : watchers st !! w = None).
  { destruct (watchers st !! w) eqn:E; [|done].
    assert (w ≤ watcher_uid st) by (apply H4; by rewrite E).
    unfold w in *. lia. }
  assert (Hok2 : graph_ok st2).
  { split; simpl; try done.
    - intros w' r0. rewrite lookup_insert. case_decide as Hw; [|by apply H2].
      intros [= <-]. simpl. set_solver.
    - intros d w' Hin. destruct (H3 d w' Hin) as (r0 & Er0 & Hr0).
      exists r0. rewrite lookup_insert_ne; [done|]. intros <-. congruence.
    - intros w'. rewrite lookup_insert_is_Some.
      intros [<-|[_ Hs]]; [unfold w; lia|]. apply H4 in Hs. lia. }
  destruct lazy; [done|].
  pose proof (graph_ok_get w st2 Hok2) as Hg.
  destruct (get w st2) as [[v|e] st3]; simpl in *; [|done].
  apply graph_ok_with_watcher; [apply keeps_deps_set_value|done].
Qed.

(** ** Properties kept by the observer *)

Lemma foldM_preserves {A} (P : State → Prop) (f : A → State → option State)
    l st st' :
  (∀ x s s', f x s = Some s' → P s → P s') →
  foldM f l st = Some st' → P st → P st'.
Proof.
  intros Hf. revert st. induction l as [|x l IH]; intros st; simpl.
  { by intros [= <-]. }
  destruct (f x st) as [s1|] eqn:E; [|done]. eauto.
Qed.

Section StableObs.
Variable P : State → Prop.
Hypothesis HP : stable_obs P.

Lemma depend_ob_stable k st : P st → P (depend_ob k st).
Proof.
  unfold depend_ob. destruct (observers st !! k); [|done].
  apply (st_depend P HP).
Qed.

Lemma dependArray_stable fuel a st st' :
  dependArray fuel a st = Some st' → P st → P st'.
Proof.
  revert a st st'. induction fuel as [|f IH]; intros a st st'; simpl; [done|].
  destruct (objs st !! a) as [o|]; [|by intros [= <-]].
  apply foldM_preserves. intros e s s'.
  destruct e as [| | | | |b]; try by intros [= <-].
  destruct (objs s !! b) as [oe|]; [|by intros [= <-]].
  assert (P s → P (match o_ob oe with
                   | Some k => depend_ob k s | None => s end)) as Hd.
  { destruct (o_ob oe); [apply depend_ob_stable|done]. }
  destruct (isArray oe); [|intros [= <-]; done].
  intros Hda Hs. eapply IH; eauto.
Qed.

Lemma reactiveGetter_stable fuel c st v st' :
  reactiveGetter fuel c st = Some (v, st') → P st → P st'.
Proof.
  revert c st v st'. induction fuel as [|f IH]; intros c st v st'; simpl;
    [done|].
  destruct (cells st !! c) as [cell|]; [|done].
  intros Hr Hst.
  assert (∃ value st1,
    match c_getter cell with
    | None => Some (c_val cell, st)
    | Some (GUser s) => Some (slotOf st s, st)
    | Some (GReactive c') => reactiveGetter f c' st
    end = Some (value, st1) ∧ P st1) as (value & st1 & E1 & H1).
  { destruct (c_getter cell) as [[s|c']|].
    - eauto.
    - destruct (reactiveGetter f c' st) as [[v1 s1]|] eqn:E; [|done].
      eauto.
    - eauto. }
  rewrite E1 in Hr.
  destruct (target st1); [|by simplify_eq].
  pose proof (st_depend P HP (c_dep cell) st1 H1) as H2.
  destruct (c_childOb cell) as [k|]; [|by simplify_eq].
  pose proof (depend_ob_stable k _ H2) as H3.
  destruct value as [| | | | |b]; try by simplify_eq.
  destruct (objs _ !! b) as [o|]; [|by simplify_eq].
  destruct (isArray o); [|by simplify_eq].
  destruct (dependArray f b _) as [st4|] eqn:E4; [|done].
  simplify_eq. eapply dependArray_stable; eauto.
Qed.

Lemma callGetter_stable fuel g st v st' :
  callGetter fuel g st = Some (v, st') → P st → P st'.
Proof.
  destruct g; simpl; [by intros [= _ <-]|apply reactiveGetter_stable].
Qed.

Lemma readProp_stable fuel a key st v st' :
  readProp fuel a key st = Some (v, st') → P st → P st'.
Proof.
  unfold readProp. destruct (objs st !! a) as [o|]; [|by intros [= _ <-]].
  destruct (lookupProp key (o_props o)) as [[?|[g|] ?]|];
    try by intros [= _ <-].
  apply callGetter_stable.
Qed.

Section Bodies.
Variable fuel : nat.
Variable obs : JsVal → bool → State → option (Completion (option nat) * State).
Hypothesis Hobs : ∀ v root st r st', obs v root st = Some (r, st') → P st → P st'.

Lemma defineReactive_body_stable a key val cs sh st r st' :
  defineReactive_body fuel obs a key val cs sh st = Some (r, st') →
  P st → P st'.
Proof.
  unfold defineReactive_body. intros Hd Hst.
  pose proof (st_newDep P HP st Hst) as H1.
  destruct (newDep st) as [d st1]. simpl in H1.
  destruct (objs st1 !! a) as [o|]; [|by simplify_eq].
  case_bool_decide; [by simplify_eq|].
  destruct (accessorsOf (lookupProp key (o_props o))) as [getter0 setter0].
  destruct (initialVal fuel a key getter0 setter0 val st1)
    as [[val1 st2]|] eqn:E2; [|done].
  assert (P st2) as H2.
  { unfold initialVal in E2.
    destruct (_ && _); [by eapply readProp_stable|by simplify_eq]. }
  destruct (if sh then _ else _) as [[[childOb|e] st3]|] eqn:E3; [| |done].
  - assert (P st3) as H3.
    { destruct sh; [by simplify_eq|by eapply Hobs]. }
    destruct (objs (with_cells _ st3) !! a) as [o4|] eqn:E4.
    + destruct (bool_decide (is_Some (lookupProp key (o_props o4)))
                || o_extensible o4); simplify_eq.
      * apply (st_props P HP); [done|]. by apply (st_cells P HP).
      * by apply (st_cells P HP).
    + simplify_eq. by apply (st_cells P HP).
  - simplify_eq. destruct sh; [done|by eapply Hobs].
Qed.

Lemma walk_stable a keys st r st' :
  walk fuel obs a keys st = Some (r, st') → P st → P st'.
Proof.
  revert st. induction keys as [|key keys IH]; intros st; simpl.
  { by intros [= _ <-]. }
  destruct (defineReactive_body _ _ _ _ _ _ _ _) as [[[[]|e] st1]|] eqn:E;
    [| |done].
  - intros Hw Hst. eapply IH; [done|]. by eapply defineReactive_body_stable.
  - intros [= _ <-] Hst. by eapply defineReactive_body_stable.
Qed.

Lemma observeArray_stable a i n st r st' :
  observeArray obs a i n st = Some (r, st') → P st → P st'.
Proof.
  revert i st. induction n as [|n IH]; intros i st; simpl.
  { by intros [= _ <-]. }
  destruct (obs _ false st) as [[[k|e] st1]|] eqn:E; [| |done].
  - intros Hw Hst. eapply IH; [done|]. by eapply Hobs.
  - intros [= _ <-] Hst. by eapply Hobs.
Qed.

Lemma newObserver_stable a o st r st' :
  objs st !! a = Some o → o_ob o = None →
  newObserver fuel obs a o st = Some (r, st') → P st → P st'.
Proof.
  intros Ha Hob. unfold newObserver. intros Hn Hst.
  pose proof (st_newDep P HP st Hst) as H1.
  destruct (newDep st) as [d st1] eqn:End.
  assert (objs st1 = objs st) as Eo by (by injection End as _ <-).
  simpl in H1.
  set (st2 := with_observers _ st1) in *.
  assert (P (with_objs (alter (set_ob (Some (length (observers st1)))) a) st2))
    as H3.
  { eapply (st_set_ob P HP); [|done|by apply (st_observers P HP)].
    simpl. by rewrite Eo. }
  destruct (isArray o).
  - destruct (observeArray _ _ _ _ _) as [[[[]|e] st4]|] eqn:E4; [| |done];
      simplify_eq; (eapply observeArray_stable; [done|]);
      by apply (st_augment P HP).
  - destruct (walk _ _ _ _ _) as [[[[]|e] st4]|] eqn:E4; [| |done];
      simplify_eq; by eapply walk_stable.
Qed.

End Bodies.

Lemma observe_stable fuel v root st r st' :
  observe fuel v root st = Some (r, st') → P st → P st'.
Proof.
  revert v root st r st'.
  induction fuel as [|f IH]; intros v root st r st'; simpl; [done|].
  destruct v as [| | | | |a]; try by intros [= _ <-].
  destruct (objs st !! a) as [o|] eqn:Ea; [|by intros [= _ <-]].
  destruct (o_isVNode o); [by intros [= _ <-]|].
  intros Ho Hst.
  assert (∀ ob st1, P st1 →
    P (match ob with
       | Some k => if root then with_observers (alter inc_vmCount k) st1
                   else st1
       | None => st1 end)) as Hroot.
  { intros [k|] st1 H1; [|done]. destruct root; [|done].
    by apply (st_observers P HP). }
  destruct (o_ob o) as [k|] eqn:Eob.
  { simplify_eq. by apply (Hroot (Some k)). }
  destruct (_ && _).
  - destruct (newObserver _ _ _ _ _) as [[[k|e] st1]|] eqn:En; [| |done].
    + simplify_eq. apply (Hroot (Some k)).
      eapply newObserver_stable; eauto.
    + simplify_eq. eapply newObserver_stable; eauto.
  - by simplify_eq.
Qed.

Lemma defineReactive_stable fuel a key val cs sh st r st' :
  defineReactive fuel a key val cs sh st = Some (r, st') → P st → P st'.
Proof. apply defineReactive_body_stable, observe_stable. Qed.

End StableObs.

Section Stable.
Variable P : State → Prop.
Hypothesis HP : stable P.

Lemma reactiveSetter_stable fuel c v st r st' :
  reactiveSetter fuel c v st = Some (r, st') → P st → P st'.
Proof.
  revert c st r st'. induction fuel as [|f IH]; intros c st r st'; simpl;
    [done|].
  destruct (cells st !! c) as [cell|]; [|done].
  destruct (match c_getter cell with
            | Some g => callGetter f g st
            | None => Some (c_val cell, st) end) as [[value st1]|] eqn:E1;
    [|done].
  intros Hs Hst.
  assert (P st1) as H1.
  { destruct (c_getter cell); [by eapply (callGetter_stable P (st_obs P HP))|by simplify_eq]. }
  destruct (unchanged v value); [by simplify_eq|].
  remember (if negb production && c_customSetter cell
            then emit (EvCustomSetter c) st1 else st1) as st2 eqn:E2.
  assert (P st2) as H2.
  { subst st2. destruct (negb production && c_customSetter cell);
      [by apply (st_emit P HP)|done]. }
  clear E2.
  destruct (bool_decide (is_Some (c_getter cell)) && _); [by simplify_eq|].
  destruct (match c_setter cell with
            | Some (SUser s) => _ | Some (SReactive c') => _ | None => _ end)
    as [[[[]|e] st3]|] eqn:E3; [| |done].
  - assert (P st3) as H3.
    { destruct (c_setter cell) as [[s|c']|]; simplify_eq.
      + by apply (st_slots P HP).
      + by eapply IH.
      + by apply (st_cells P (st_obs P HP)). }
    destruct (if c_shallow cell then _ else _) as [[[childOb|e] st4]|] eqn:E4;
      [| |done].
    + assert (P st4) as H4.
      { destruct (c_shallow cell); [by simplify_eq|by eapply (observe_stable P (st_obs P HP))]. }
      injection Hs as Hs.
      replace st' with (notify (c_dep cell)
        (with_cells (alter (set_childOb childOb) c) st4)).2
        by (by rewrite Hs).
      apply (st_notify P HP). by apply (st_cells P (st_obs P HP)).
    + simplify_eq. destruct (c_shallow cell); [done|by eapply (observe_stable P (st_obs P HP))].
  - simplify_eq. destruct (c_setter cell) as [[s|c']|]; simplify_eq.
    by eapply IH.
Qed.

Lemma assign_stable fuel a key v st r st' :
  assign fuel a key v st = Some (r, st') → P st → P st'.
Proof.
  unfold assign. destruct (objs st !! a) as [o|] eqn:Ea; [|by intros [= _ <-]].
  destruct (lookupProp key (o_props o)) as [[? ? ? []|? [[s|c]|] ? ?]|].
  - intros [= _ <-] Hst. by apply (st_props P (st_obs P HP)).
  - by intros [= _ <-].
  - intros [= _ <-] Hst. by apply (st_slots P HP).
  - apply reactiveSetter_stable.
  - by intros [= _ <-].
  - destruct (o_extensible o); intros [= _ <-] Hst; [|done].
    by apply (st_props P (st_obs P HP)).
Qed.

Lemma spliceArray_stable fuel a i v st r st' :
  spliceArray fuel a i v st = Some (r, st') → P st → P st'.
Proof.
  unfold spliceArray.
  destruct (objs st !! a) as [o|] eqn:Ea; [|by intros [= _ <-]].
  cbv zeta.
  destruct (bool_decide (length (o_elems o) < i) && _);
    [by intros [= _ <-]|].
  pose proof (λ Hst, st_elems P HP a o (growTo i (o_elems o)) st Ea Hst)
    as H0.
  destruct (bool_decide (length (o_elems o) ≤ i) && negb _);
    [intros [= _ <-]; exact H0|].
  destruct (bool_decide (length (o_elems o) ≤ i) && _).
  { destruct (assign fuel a (pretty i) v _) as [[[[]|e] s1]|] eqn:E1;
      [| |done]; intros [= _ <-] Hst; eapply assign_stable; eauto. }
  intros Hs Hst.
  pose proof (st_elems P HP a o (splice1 i v (o_elems o)) st Ea Hst) as H1.
  destruct (if o_augmented o then o_ob o else None) as [k|];
    [|by simplify_eq].
  destruct (observe fuel v false _) as [[[ob|e] st2]|] eqn:E2; [| |done].
  - pose proof (observe_stable P (st_obs P HP) _ _ _ _ _ _ E2 H1) as H2.
    destruct (observers st2 !! k) as [obr|]; [|by simplify_eq].
    injection Hs as Hs.
    replace st' with (notify (ob_dep obr) st2).2 by (by rewrite Hs).
    by apply (st_notify P HP).
  - simplify_eq. by eapply (observe_stable P (st_obs P HP)).
Qed.

Lemma warn_stable st : P st → P (warn st).
Proof. unfold warn. destruct production; [done|apply (st_emit P HP)]. Qed.

Lemma set_stable fuel t key v st r st' :
  set fuel t key v st = Some (r, st') → P st → P st'.
Proof.
  unfold set.
  destruct t as [| | | | |a];
    try (intros [= _ <-]; apply warn_stable).
  destruct (objs st !! a) as [o|] eqn:Ea; [|by intros [= _ <-]].
  destruct (if isArray o then isValidArrayIndex key else None) as [i|].
  { destruct (spliceArray fuel a i v st) as [[[[]|e] st1]|] eqn:E1;
      [| |done]; intros [= _ <-]; by eapply spliceArray_stable. }
  destruct (key_in o key && _).
  { destruct (assign fuel a key v st) as [[[[]|e] st1]|] eqn:E1;
      [| |done]; intros [= _ <-]; by eapply assign_stable. }
  destruct (o_isVue o || _).
  { intros [= _ <-]. apply warn_stable. }
  destruct (o_ob o ≫= _) as [obr|].
  - destruct (defineReactive _ _ _ _ _ _ _) as [[[[]|e] st1]|] eqn:E1;
      [| |done].
    + intros Hs Hst.
      pose proof (defineReactive_stable P (st_obs P HP) _ _ _ _ _ _ _ _ _ E1 Hst) as H1.
      pose proof (st_notify P HP (ob_dep obr) st1 H1) as H2.
      destruct (notify (ob_dep obr) st1) as [[[]|e] st2]; by simplify_eq.
    + intros [= _ <-]. by eapply (defineReactive_stable P (st_obs P HP)).
  - destruct (assign fuel a key v st) as [[[[]|e] st1]|] eqn:E1;
      [| |done]; intros [= _ <-]; by eapply assign_stable.
Qed.

End Stable.

(** ** Every reachable state has sound links *)

Lemma stable_graph_ok : stable graph_ok.
Proof.
  split; [split|..].
  - apply graph_ok_newDep.
  - apply graph_ok_depend.
  - intros. by eapply graph_ok_ext.
  - intros. by eapply graph_ok_ext.
  - intros. by eapply graph_ok_ext.
  - intros. by eapply graph_ok_ext.
  - intros. by eapply graph_ok_ext.
  - intros. by eapply graph_ok_ext.
  - intros. by eapply graph_ok_ext.
  - apply graph_ok_emit.
  - apply graph_ok_notify.
Qed.

Lemma graph_ok_init : graph_ok init.
Proof.
  split; simpl; try done.
  - intros d. unfold subsOf. simpl. rewrite lookup_empty. constructor.
  - intros d w. unfold subsOf. simpl. rewrite lookup_empty. simpl.
    by intros ?%not_elem_of_nil.
  - intros w. rewrite lookup_empty. by intros [? ?].
Qed.

Lemma graph_ok_step st st' : step st st' → graph_ok st → graph_ok st'.
Proof.
  destruct 1; intros Hok.
  - by apply graph_ok_newDep.
  - by apply graph_ok_removeSub.
  - by apply graph_ok_depend.
  - by apply graph_ok_notify.
  - by apply graph_ok_pushTarget.
  - by apply graph_ok_popTarget.
  - by apply graph_ok_newWatcher.
  - by apply graph_ok_get.
  - by apply graph_ok_addDep.
  - by apply graph_ok_cleanupDeps.
  - by apply graph_ok_update.
  - by apply graph_ok_run.
  - by apply graph_ok_evaluate.
  - by apply graph_ok_watcher_depend.
  - by apply graph_ok_teardown.
  - eapply observe_stable; eauto using stable_graph_ok, st_obs.
  - eapply defineReactive_stable; eauto using stable_graph_ok, st_obs.
  - eapply reactiveGetter_stable; eauto using stable_graph_ok, st_obs.
  - eapply reactiveSetter_stable; eauto using stable_graph_ok.
  - eapply set_stable; eauto using stable_graph_ok.
  - destruct H as (? & ? & ? & ? & ? & ? & ? & ?). by eapply graph_ok_ext.
Qed.

Lemma reachable_graph_ok st : reachable st → graph_ok st.
Proof.
  induction 1 as [|st st' _ IH Hstep];
    [apply graph_ok_init|by eapply graph_ok_step].
Qed.

(** ** One run of [get] *)

Lemma addDep_frame w d st :
  log (addDep w d st) = log st ∧ target (addDep w d st) = target st
  ∧ targetStack (addDep w d st) = targetStack st
  ∧ vms (addDep w d st) = vms st.
Proof.
  unfold addDep. destruct (watchers st !! w); [|done].
  repeat case_decide; done.
Qed.

Lemma set_deps_same r :
  set_deps (w_deps r) (w_newDeps r) (w_depIds r) (w_newDepIds r) r = r.
Proof. by destruct r. Qed.

Lemma addDep_spec w r d st :
  graph_ok st → watchers st !! w = Some r →
  ∃ nds,
    watchers (addDep w d st) !! w
      = Some (set_deps (w_deps r) nds (w_depIds r) (list_to_set nds) r)
    ∧ (∀ x, x ∈ nds ↔ x ∈ w_newDeps r ∨ x = d)
    ∧ (d ∉ w_newDeps r → d ∉ w_deps r → w ∈ subsOf (addDep w d st) d)
    ∧ (∀ d' x, x ∈ subsOf st d' → x ∈ subsOf (addDep w d st) d').
Proof.
  intros Hok Er. destruct (ok_ids st Hok w r Er) as [Hids Hnids].
  unfold addDep. rewrite Er.
  destruct (decide (d ∈ w_newDepIds r)) as [Hnew|Hnew].
  { exists (w_newDeps r). rewrite <-Hnids, set_deps_same.
    split_and!; try done.
    - intros x. split; [by left|]. intros [?| ->]; [done|].
      rewrite Hnids in Hnew. by apply elem_of_list_to_set in Hnew.
    - intros Hn. exfalso. apply Hn. rewrite Hnids in Hnew.
      by apply elem_of_list_to_set in Hnew. }
  exists (w_newDeps r ++ [d]).
  assert (Hrec : ∀ st0, watchers st0 = alter
      (set_deps (w_deps r) (w_newDeps r ++ [d]) (w_depIds r)
         ({[d]} ∪ w_newDepIds r)) w (watchers st) →
    watchers st0 !! w = Some (set_deps (w_deps r) (w_newDeps r ++ [d])
      (w_depIds r) (list_to_set (w_newDeps r ++ [d])) r)).
  { intros st0 ->. rewrite lookup_alter_eq, Er. simpl. do 2 f_equal.
    rewrite Hnids. set_solver. }
  destruct (decide (d ∈ w_depIds r)) as [Hold|Hold].
  - split_and!; [by apply Hrec|set_solver| |done].
    intros _ Hn. exfalso. apply Hn. rewrite Hids in Hold.
    by apply elem_of_list_to_set in Hold.
  - split_and!; [by apply Hrec|set_solver| |].
    + intros _ _. rewrite subsOf_addSub, decide_True by done. set_solver.
    + intros d' x Hx. rewrite subsOf_addSub. case_decide; [|done].
      subst. apply elem_of_app. by left.
Qed.

Lemma collect_spec w ds st r :
  graph_ok st → watchers st !! w = Some r → target st = Some w →
  let st' := foldl (λ s d, depend d s) st ds in
  ∃ nds,
    watchers st' !! w
      = Some (set_deps (w_deps r) nds (w_depIds r) (list_to_set nds) r)
    ∧ (∀ x, x ∈ nds ↔ x ∈ w_newDeps r ∨ x ∈ ds)
    ∧ (∀ d, d ∈ ds → d ∉ w_newDeps r → d ∉ w_deps r → w ∈ subsOf st' d)
    ∧ (∀ d x, x ∈ subsOf st d → x ∈ subsOf st' d)
    ∧ log st' = log st ∧ target st' = target st
    ∧ targetStack st' = targetStack st ∧ vms st' = vms st
    ∧ graph_ok st'.
Proof.
  revert st r. induction ds as [|d ds IH]; intros st r Hok Er Ht; simpl.
  { exists (w_newDeps r). destruct (ok_ids st Hok w r Er) as [_ <-].
    rewrite set_deps_same. split_and!; try done; set_solver. }
  assert (depend d st = addDep w d st) as -> by (unfold depend; by rewrite Ht).
  destruct (addDep_spec w r d st Hok Er) as (nds1 & Er1 & Hn1 & Hreg & Hmono).
  destruct (addDep_frame w d st) as (El & Et & Es & Ev).
  destruct (IH (addDep w d st) _ (graph_ok_addDep w d st Hok) Er1)
    as (nds & Er2 & Hn2 & Hreg2 & Hmono2 & El2 & Et2 & Es2 & Ev2 & Hok2).
  { by rewrite Et. }
  simpl in *. exists nds. split_and!; try done; try congruence.
  - intros x. rewrite Hn2, Hn1. set_solver.
  - intros d0 Hd0 Hnn Hnd.
    destruct (decide (d0 = d)) as [->|Hne]; [by apply Hmono2, Hreg|].
    apply Hreg2; [set_solver| |done]. rewrite Hn1. set_solver.
  - intros d0 x Hx. by apply Hmono2, Hmono.
Qed.

Lemma cleanupDeps_spec w r st :
  graph_ok st → watchers st !! w = Some r →
  let st' := cleanupDeps w st in
  watchers st' !! w
    = Some (set_deps (w_newDeps r) [] (w_newDepIds r) ∅ r)
  ∧ (∀ d, d ∈ w_deps r → d ∉ w_newDeps r → w ∉ subsOf st' d)
  ∧ (∀ d, d ∈ w_newDeps r → subsOf st' d = subsOf st d)
  ∧ log st' = log st ∧ target st' = target st
  ∧ targetStack st' = targetStack st ∧ vms st' = vms st.
Proof.
  intros Hok Er. unfold cleanupDeps. rewrite Er.
  pose proof (drop_stale_spec (w_newDepIds r) w (reverse (w_deps r)) st)
    as (E1 & E2 & E3 & E4 & E5 & E6 & Ha & Hb & Hc & Hn & Hd).
  destruct (ok_ids st Hok w r Er) as [Hids Hnids].
  simpl. split_and!; try done.
  - by rewrite E1, lookup_alter_eq, Er.
  - intros d Hin Hnot. apply Hd; [apply (ok_nodup st Hok)| |].
    + by apply elem_of_reverse.
    + rewrite Hnids. by rewrite elem_of_list_to_set.
  - intros d Hin. apply Hc. left. rewrite Hnids.
    by rewrite elem_of_list_to_set.
Qed.

(** The state in which the [finally] block of [get] starts. *)
Lemma call_getter_spec w r st :
  graph_ok st → watchers st !! w = Some r → target st = Some w →
  let '(value, pending, st1) := call_getter w r st in
  let run := getter w st in
  (match result run with
   | Normal v => value = v ∧ pending = None
                 ∧ log st1 = log st ++ [EvGetter w]
   | Throw e =>
       value = VUndef
       ∧ (if w_user r
          then pending = None
               ∧ log st1 = log st ++ [EvGetter w; EvHandleError e w]
          else pending = Some e ∧ log st1 = log st ++ [EvGetter w])
   end)
  ∧ ∃ nds,
      watchers st1 !! w
        = Some (set_deps (w_deps r) nds (w_depIds r) (list_to_set nds) r)
      ∧ (∀ x, x ∈ nds ↔ x ∈ w_newDeps r ∨ x ∈ reads run)
      ∧ (∀ d, d ∈ reads run → d ∉ w_newDeps r → d ∉ w_deps r →
           w ∈ subsOf st1 d)
      ∧ (∀ d x, x ∈ subsOf st d → x ∈ subsOf st1 d)
      ∧ target st1 = target st ∧ targetStack st1 = targetStack st
      ∧ vms st1 = vms st ∧ graph_ok st1.
Proof.
  intros Hok Er Ht. unfold call_getter.
  destruct (collect_spec w (reads (getter w st)) (emit (EvGetter w) st) r)
    as (nds & Er1 & Hn & Hreg & Hmono & El & Et & Es & Ev & Hok1);
    [by apply graph_ok_emit|done|done|].
  simpl in *.
  destruct (result (getter w st)) as [v|e].
  - split; [done|]. exists nds. by split_and!.
  - destruct (w_user r).
    + split; [split; [done|]; split; [done|]; simpl; by rewrite El, <-app_assoc|].
      exists nds. split_and!; try done. by apply graph_ok_emit.
    + split; [done|]. exists nds. by split_and!.
Qed.

(** What a whole run of [get] leaves behind. *)
Lemma get_spec w r st :
  graph_ok st → watchers st !! w = Some r →
  let run := getter w (pushTarget (Some w) st) in
  let st' := (get w st).2 in
  (∃ nds,
     watchers st' !! w = Some (set_deps nds [] (list_to_set nds) ∅ r)
     ∧ (∀ d, d ∈ nds ↔ d ∈ w_newDeps r ∨ d ∈ fired w st)
     ∧ (∀ d, d ∈ w_deps r → d ∉ nds → w ∉ subsOf st' d)
     ∧ (∀ d, d ∈ fired w st → d ∉ w_newDeps r → d ∉ w_deps r →
          w ∈ subsOf st' d))
  ∧ targetStack st' = targetStack st ∧ target st' = target st
  ∧ vms st' = vms st
  ∧ match result run with
    | Normal v => (get w st).1 = Normal v ∧ log st' = log st ++ [EvGetter w]
    | Throw e =>
        if w_user r
        then (get w st).1 = Normal VUndef
             ∧ log st' = log st ++ [EvGetter w; EvHandleError e w]
        else (get w st).1 = Throw e ∧ log st' = log st ++ [EvGetter w]
    end.
Proof.
  intros Hok Er. unfold get, fired. rewrite Er.
  pose proof (call_getter_spec w r (pushTarget (Some w) st)
                (graph_ok_pushTarget _ _ Hok) Er eq_refl) as Hc.
  destruct (call_getter w r (pushTarget (Some w) st))
    as [[value pending] st1].
  destruct Hc as (Hres & nds1 & Er1 & Hn1 & Hreg1 & Hmono1 & Et1 & Es1 & Ev1
                  & Hok1).
  set (ds2 := if w_deep r then traverse st1 value else []).
  set (st2 := if w_deep r
              then foldl (λ s d, depend d s) st1 (traverse st1 value)
              else st1).
  assert (st2 = foldl (λ s d, depend d s) st1 ds2) as Est2.
  { unfold st2, ds2. by destruct (w_deep r). }
  destruct (collect_spec w ds2 st1 _ Hok1 Er1)
    as (nds & Er2 & Hn2 & Hreg2 & Hmono2 & El2 & Et2 & Es2 & Ev2 & Hok2).
  { by rewrite Et1. }
  rewrite <-Est2 in *. simpl in Er2, Hn2, Hreg2.
  destruct (cleanupDeps_spec w _ (popTarget st2)
              (graph_ok_popTarget _ Hok2) Er2)
    as (Er3 & Hun & Hkeep & El3 & Et3 & Es3 & Ev3).
  simpl in Er3, Hun, Hkeep, El3, Et3, Es3, Ev3.
  assert (∀ x, x ∈ nds ↔ x ∈ w_newDeps r ∨
            x ∈ reads (getter w (pushTarget (Some w) st)) ++ ds2) as Hnds.
  { intros x. rewrite Hn2, Hn1, elem_of_app. tauto. }
  assert ((∃ nds0,
     watchers (cleanupDeps w (popTarget st2)) !! w
       = Some (set_deps nds0 [] (list_to_set nds0) ∅ r)
     ∧ (∀ d, d ∈ nds0 ↔ d ∈ w_newDeps r ∨
          d ∈ reads (getter w (pushTarget (Some w) st)) ++ ds2)
     ∧ (∀ d, d ∈ w_deps r → d ∉ nds0 →
          w ∉ subsOf (cleanupDeps w (popTarget st2)) d)
     ∧ (∀ d, d ∈ reads (getter w (pushTarget (Some w) st)) ++ ds2 →
          d ∉ w_newDeps r → d ∉ w_deps r →
          w ∈ subsOf (cleanupDeps w (popTarget st2)) d))
    ∧ targetStack (cleanupDeps w (popTarget st2)) = targetStack st
    ∧ target (cleanupDeps w (popTarget st2)) = target st
    ∧ vms (cleanupDeps w (popTarget st2)) = vms st
    ∧ log (cleanupDeps w (popTarget st2)) = log st1) as (Hmain & Hs & Ht & Hv & Hl).
  { split_and!.
    - exists nds. split_and!; [exact Er3|done|by apply Hun|].
      intros d Hd Hnn Hnd. rewrite Hkeep by (apply Hnds; by right).
      apply elem_of_app in Hd as [Hd|Hd].
      + by apply Hmono2, Hreg1.
      + destruct (decide (d ∈ nds1)) as [Hin|Hnin].
        * apply Hmono2, Hreg1; [|done|done]. apply Hn1 in Hin. tauto.
        * by apply Hreg2.
    - rewrite Es3. simpl. by rewrite Es2, Es1.
    - rewrite Et3. simpl. rewrite Es2, Es1. simpl.
      symmetry. apply (ok_target st Hok).
    - rewrite Ev3. simpl. by rewrite Ev2, Ev1.
    - rewrite El3. simpl. by rewrite El2. }
  split; [|split; [|split; [|split]]].
  - by destruct pending.
  - by destruct pending.
  - by destruct pending.
  - by destruct pending.
  - simpl in Hres.
    destruct (result (getter w (pushTarget (Some w) st))) as [v|e].
    + destruct Hres as (-> & -> & Hlog). simpl. by rewrite Hl.
    + destruct Hres as (-> & Hres). destruct (w_user r).
      * destruct Hres as (-> & Hlog). simpl. by rewrite Hl.
      * destruct Hres as (-> & Hlog). simpl. by rewrite Hl.
Qed.

(** ** Claims about Dep and Watcher *)

(** C1 — After any run of [get], whether the getter returns or throws, the
    Deps held by the watcher are exactly the Deps whose [depend()] was
    called during the run ([fired]); the watcher is no longer a subscriber
    of a Dep it held before the run and did not touch, and it is a
    subscriber of every Dep touched for the first time. *)
Theorem get_dependency_set w r st :
  graph_ok st → watchers st !! w = Some r → w_newDeps r = [] →
  ∃ r',
    watchers (get w st).2 !! w = Some r'
    ∧ (∀ d, d ∈ w_deps r' ↔ d ∈ fired w st)
    ∧ w_depIds r' = list_to_set (w_deps r')
    ∧ w_newDeps r' = [] ∧ w_newDepIds r' = ∅
    ∧ (∀ d, d ∈ w_deps r → d ∉ fired w st → w ∉ subsOf (get w st).2 d)
    ∧ (∀ d, d ∈ fired w st → d ∉ w_deps r → w ∈ subsOf (get w st).2 d).
Proof.
  intros Hok Er Hidle.
  destruct (get_spec w r st Hok Er) as ((nds & Er' & Hn & Hun & Hreg) & _).
  rewrite Hidle in Hn, Hreg.
  assert (∀ d, d ∈ nds ↔ d ∈ fired w st) as Hn'.
  { intros d. rewrite Hn. split; [|by right].
    intros [Hd|Hd]; [by apply not_elem_of_nil in Hd|done]. }
  eexists. split; [exact Er'|]. simpl. split_and!; try done.
  - intros d Hd Hf. apply Hun; [done|]. by rewrite Hn'.
  - intros d Hd Hnd. apply Hreg; [done| |done]. apply not_elem_of_nil.
Qed.

(** C7 — When the getter throws [e] during [get]: for a [user] watcher the
    error goes to [handleError] and [get] returns normally (with
    [undefined]); for any other watcher the error is thrown to the caller
    of [get].  In both cases the target stack and [Dep.target] are back to
    what they were before the call, and [cleanupDeps] has run: the new
    lists are empty again and the Deps held are those touched before the
    throw. *)
Theorem get_getter_throws w r e st :
  graph_ok st → watchers st !! w = Some r → w_newDeps r = [] →
  result (getter w (pushTarget (Some w) st)) = Throw e →
  (if w_user r
   then (get w st).1 = Normal VUndef
        ∧ log (get w st).2 = log st ++ [EvGetter w; EvHandleError e w]
   else (get w st).1 = Throw e
        ∧ log (get w st).2 = log st ++ [EvGetter w])
  ∧ targetStack (get w st).2 = targetStack st
  ∧ target (get w st).2 = target st
  ∧ ∃ r',
      watchers (get w st).2 !! w = Some r'
      ∧ w_newDeps r' = [] ∧ w_newDepIds r' = ∅
      ∧ (∀ d, d ∈ w_deps r' ↔ d ∈ fired w st)
      ∧ (∀ d, d ∈ w_deps r → d ∉ fired w st → w ∉ subsOf (get w st).2 d).
Proof.
  intros Hok Er Hidle He.
  destruct (get_spec w r st Hok Er)
    as ((nds & Er' & Hn & Hun & Hreg) & Hs & Ht & _ & Hres).
  rewrite He in Hres. rewrite Hidle in Hn.
  assert (∀ d, d ∈ nds ↔ d ∈ fired w st) as Hn'.
  { intros d. rewrite Hn. split; [|by right].
    intros [Hd|Hd]; [by apply not_elem_of_nil in Hd|done]. }
  split_and!; try done.
  eexists. split; [exact Er'|]. simpl. split_and!; try done.
  intros d Hd Hf. apply Hun; [done|]. by rewrite Hn'.
Qed.

(** C8, amended — [teardown] of an active watcher takes it out of the
    subscribers of every Dep it holds and marks it inactive; a second call
    changes nothing.  When the owning instance is being destroyed, what is
    skipped is the removal of the watcher from the instance's
    [_watchers] list; the walk over the Deps is made all the same. *)
Theorem teardown_spec w r st :
  graph_ok st → watchers st !! w = Some r → w_active r = true →
  (∀ d, d ∈ w_deps r → w ∉ subsOf (teardown w st) d)
  ∧ watchers (teardown w st) !! w = Some (set_active false r)
  ∧ teardown w (teardown w st) = teardown w st
  ∧ match vms st !! w_vm r with
    | Some v =>
        if vm_isBeingDestroyed v then vms (teardown w st) = vms st
        else vms (teardown w st) =
               <[w_vm r := {| vm_watcher := vm_watcher v;
                              vm_watchers := remove (vm_watchers v) w;
                              vm_isBeingDestroyed := false |}]> (vms st)
    | None => vms (teardown w st) = vms st
    end.
Proof.
  intros Hok Er Hact.
  assert (watchers (teardown w st) !! w = Some (set_active false r)
          ∧ (∀ d, d ∈ w_deps r → w ∉ subsOf (teardown w st) d)
          ∧ match vms st !! w_vm r with
            | Some v =>
                if vm_isBeingDestroyed v then vms (teardown w st) = vms st
                else vms (teardown w st) =
                  <[w_vm r := {| vm_watcher := vm_watcher v;
                                 vm_watchers := remove (vm_watchers v) w;
                                 vm_isBeingDestroyed := false |}]> (vms st)
            | None => vms (teardown w st) = vms st
            end) as (Er' & Hun & Hvm).
  { unfold teardown. rewrite Er, Hact.
    set (st1 := match vms st !! w_vm r with
                | Some v => if vm_isBeingDestroyed v then st else _
                | None => st end).
    assert (subs st1 = subs st ∧ watchers st1 = watchers st) as [Es Ew].
    { unfold st1. destruct (vms st !! w_vm r) as [v|]; [|done].
      by destruct (vm_isBeingDestroyed v). }
    rewrite teardown_loop_eq.
    pose proof (drop_stale_spec ∅ w (reverse (w_deps r)) st1)
      as (E1 & _ & _ & _ & E5 & _ & _ & _ & _ & _ & Hd).
    set (st2 := foldl _ st1 _) in *.
    simpl. split_and!.
    - by rewrite E1, Ew, lookup_alter_eq, Er.
    - intros d Hin. apply Hd; [|by apply elem_of_reverse|set_solver].
      unfold subsOf. rewrite Es. apply (ok_nodup st Hok).
    - rewrite E5. unfold st1. destruct (vms st !! w_vm r) as [v|]; [|done].
      by destruct (vm_isBeingDestroyed v). }
  split_and!; try done.
  unfold teardown at 1. by rewrite Er'.
Qed.

Lemma notify_loop_drop upd snapshot i n st :
  n = length snapshot - i →
  notify_loop upd snapshot i n st = update_each upd (drop i snapshot) st.
Proof.
  revert i st. induction n as [|n IH]; intros i st Hn; simpl.
  - by rewrite drop_ge by lia.
  - destruct (snapshot !! i) as [w|] eqn:Ei.
    + rewrite (drop_S _ _ _ Ei). simpl.
      destruct (upd w st) as [[[]|e] st1]; [|done]. apply IH. lia.
    + apply lookup_ge_None in Ei. lia.
Qed.


(** C2, amended — [addSub] appends without looking at the list; the test
    is made by its only caller, [addDep] (a Dep id in neither [newDepIds]
    nor [depIds]).  At every state reached from the initial one by the
    operations of the module, no subscriber occurs twice in the list of a
    Dep. *)
Theorem reachable_subs_NoDup st d :
  reachable st →
  NoDup (subsOf st d)
  ∧ ∀ w, subsOf (addSub d w st) d = subsOf st d ++ [w].
Proof.
  intros Hr. split.
  - apply (ok_nodup st (reachable_graph_ok st Hr)).
  - intros w. by rewrite subsOf_addSub, decide_True.
Qed.

(** ** Observation terminates *)

Lemma alter_lookup_insert {A} (f : A → A) (m : gmap nat A) a x :
  m !! a = Some x → alter f a m = <[a := f x]> m.
Proof.
  intros Ha. apply map_eq. intros b. rewrite lookup_alter, lookup_insert.
  case_decide; [subst; by rewrite Ha|done].
Qed.

Lemma unobserved_insert_same st a o o' :
  objs st !! a = Some o → o_ob o' = o_ob o →
  unobserved (with_objs (<[a := o']>) st) = unobserved st.
Proof.
  intros Ha Hob. unfold unobserved. simpl.
  destruct (o_ob o) as [k|] eqn:Eo.
  - rewrite map_filter_insert_not'; [done|simpl; congruence|].
    intros y Hy. simpl. congruence.
  - rewrite map_filter_insert_True by done.
    rewrite map_size_insert_Some; [done|].
    exists o. by apply map_lookup_filter_Some.
Qed.

Lemma unobserved_insert_observed st a o o' :
  objs st !! a = Some o → o_ob o = None → is_Some (o_ob o') →
  S (unobserved (with_objs (<[a := o']>) st)) = unobserved st.
Proof.
  intros Ha Hob [k Hk]. unfold unobserved. simpl.
  assert (filter (λ ao : nat * Obj, o_ob ao.2 = None) (objs st) !! a = Some o)
    as Hf by (by apply map_lookup_filter_Some).
  rewrite map_filter_insert_False by (simpl; congruence).
  rewrite map_filter_delete, map_size_delete, Hf.
  assert (size (filter (λ ao : nat * Obj, o_ob ao.2 = None) (objs st)) ≠ 0).
  { apply map_size_ne_0_lookup. by exists a, o. }
  simpl. lia.
Qed.

Lemma grown_but_refl X st : grown_but X st st.
Proof. split; try done. by exists []; rewrite app_nil_r. Qed.

Lemma grown_but_trans X st1 st2 st3 :
  grown_but X st1 st2 → grown_but X st2 st3 → grown_but X st1 st3.
Proof.
  intros [A1 A2 A3 A4 A5 A6 [l1 A7] A8 A9] [B1 B2 B3 B4 B5 B6 [l2 B7] B8 B9].
  split; try congruence.
  - exists (l1 ++ l2). by rewrite B7, A7, app_assoc.
  - intros b o HX Hb Ho. apply B8; auto.
  - lia.
Qed.

Lemma grown_but_weaken (X Y : nat → Prop) st st' :
  (∀ b, X b → Y b) → grown_but X st st' → grown_but Y st st'.
Proof. intros HXY [? ? ? ? ? ? ? A8 ?]. split; try done. eauto. Qed.

Lemma heap_ok_ext st st' : objs st' = objs st → heap_ok st → heap_ok st'.
Proof. intros E [H1 H2]. split; rewrite E; done. Qed.

Lemma lookupProp_defineProp_ne key key' p ps :
  key' ≠ key → lookupProp key' (defineProp key p ps) = lookupProp key' ps.
Proof.
  intros Hne. induction ps as [|[k q] ps IH]; simpl.
  - by rewrite decide_False.
  - destruct (decide (k = key)) as [->|Hk]; simpl.
    + by rewrite !decide_False.
    + case_decide; [done|apply IH].
Qed.

Lemma lookupProp_defineProp_eq key p ps :
  lookupProp key (defineProp key p ps) = Some p.
Proof.
  induction ps as [|[k q] ps IH]; simpl.
  - by rewrite decide_True.
  - destruct (decide (k = key)) as [->|Hk]; simpl.
    + by rewrite decide_True.
    + by rewrite decide_False.
Qed.

Lemma defineProp_keys key p ps :
  is_Some (lookupProp key ps) → (defineProp key p ps).*1 = ps.*1.
Proof.
  induction ps as [|[k q] ps IH]; simpl.
  - by intros [? ?].
  - destruct (decide (k = key)) as [->|Hk]; simpl; [done|].
    intros Hs. f_equal. by apply IH.
Qed.

Lemma lookupProp_keysOf key o :
  key ∈ keysOf o → is_Some (lookupProp key (o_props o)).
Proof.
  unfold keysOf. generalize (o_props o). intros ps.
  induction ps as [|[k q] ps IH]; simpl.
  - by intros ?%not_elem_of_nil.
  - destruct (decide (k = key)) as [->|Hk]; [by eexists|].
    rewrite filter_cons. case_decide; simpl; [|done].
    intros [->|Hin]%elem_of_cons; [done|by apply IH].
Qed.

Lemma NoDup_keysOf o : NoDup (o_props o).*1 → NoDup (keysOf o).
Proof.
  unfold keysOf. generalize (o_props o). intros ps.
  induction ps as [|[k q] ps IH]; simpl; [constructor|].
  intros [Hk Hnd]%NoDup_cons. rewrite filter_cons.
  case_decide; simpl; [|by apply IH].
  apply NoDup_cons. split; [|by apply IH].
  intros Hin. apply Hk.
  apply list_elem_of_fmap in Hin as ([k' q'] & -> & Hin).
  apply list_elem_of_filter in Hin as [_ Hin].
  apply list_elem_of_fmap. by exists (k', q').
Qed.

Lemma grown_newDep X st : grown_but X st (newDep st).2.
Proof. split; try done. by exists []; rewrite app_nil_r. Qed.

Lemma grown_with_cells X st l :
  grown_but X st (with_cells (λ cs, cs ++ l) st).
Proof. split; try done. by exists l. Qed.

Lemma grown_with_observers X f st : grown_but X st (with_observers f st).
Proof. split; try done. by exists []; rewrite app_nil_r. Qed.

Lemma grown_insert_same st a o o' :
  objs st !! a = Some o → o_ob o' = o_ob o →
  grown_but (λ b, b = a) st (with_objs (<[a := o']>) st).
Proof.
  intros Ha Hob. split; try done.
  - by exists []; rewrite app_nil_r.
  - intros b ob Hb Hl _. simpl. by rewrite lookup_insert_ne.
  - by erewrite unobserved_insert_same.
Qed.

Lemma grown_insert_observed st a o o' :
  objs st !! a = Some o → o_ob o = None → is_Some (o_ob o') →
  grown_but (λ _, False) st (with_objs (<[a := o']>) st).
Proof.
  intros Ha Hob Hob'. split; try done.
  - by exists []; rewrite app_nil_r.
  - intros b ob _ Hl [k Hk]. simpl. rewrite lookup_insert_ne; [done|].
    intros <-. congruence.
  - pose proof (unobserved_insert_observed st a o o' Ha Hob Hob'). lia.
Qed.

Lemma heap_ok_insert st a o o' :
  objs st !! a = Some o → NoDup (o_props o').*1 →
  (o_ob o' = None → o_ob o = None ∧ ∀ key p,
     lookupProp key (o_props o') = Some p → user_prop p = true) →
  heap_ok st → heap_ok (with_objs (<[a := o']>) st).
Proof.
  intros Ha Hnd Hu [H1 H2]. split; simpl.
  - intros b ob. rewrite lookup_insert. case_decide; [|by apply H1].
    by intros [= <-].
  - intros b ob key p. rewrite lookup_insert. case_decide; [|by apply H2].
    intros [= <-] Hob. by apply Hu.
Qed.

Lemma grown_but_close a st st1 st2 :
  (∀ o, objs st !! a = Some o → o_ob o = None) →
  grown_but (λ _, False) st st1 → grown_but (λ b, b = a) st1 st2 →
  grown_but (λ _, False) st st2.
Proof.
  intros Ha [A1 A2 A3 A4 A5 A6 [l1 A7] A8 A9] [B1 B2 B3 B4 B5 B6 [l2 B7] B8 B9].
  split; try congruence.
  - exists (l1 ++ l2). by rewrite B7, A7, app_assoc.
  - intros b o _ Hb Ho. apply B8; [|apply A8; [tauto|done|done]|done].
    intros ->. apply Ha in Hb. destruct Ho as [k Hk]. congruence.
  - lia.
Qed.

Section Totality.
Variable fuel n : nat.
Variable obs : JsVal → bool → State → option (Completion (option nat) * State).
Hypothesis Hobs : ∀ v st, heap_ok st → unobserved st < n →
  ∃ ob st',
    obs v false st = Some (Normal ob, st')
    ∧ heap_ok st' ∧ grown_but (λ _, False) st st' ∧ reified v st ob st'.

Lemma readProp_user a o key p st :
  objs st !! a = Some o → lookupProp key (o_props o) = Some p →
  user_prop p = true →
  ∃ v, readProp fuel a key st = Some (v, st).
Proof.
  intros Ha Hp Hu. unfold readProp. rewrite Ha, Hp.
  destruct p as [v ? ? ?|[[s|c]|] st0 ? ?]; simpl in *; eauto.
  done.
Qed.

Lemma defineReactive_body_walk a o ps key p st :
  heap_ok st → unobserved st < n →
  objs st !! a = Some (set_props ps o) → is_Some (o_ob o) →
  lookupProp key ps = Some p → user_prop p = true →
  ∃ st' ps',
    defineReactive_body fuel obs a key None false false st
      = Some (Normal (), st')
    ∧ heap_ok st' ∧ unobserved st' < n
    ∧ grown_but (λ b, b = a) st st'
    ∧ objs st' !! a = Some (set_props ps' o)
    ∧ ∀ key', key' ≠ key → lookupProp key' ps' = lookupProp key' ps.
Proof.
  intros Hok Hn Ha Hob Hp Hu. unfold defineReactive_body.
  destruct (newDep st) as [d st1] eqn:End.
  assert (st1 = (newDep st).2) as Est1 by (by rewrite End).
  assert (objs st1 = objs st) as Eo by (by rewrite Est1).
  assert (grown_but (λ b, b = a) st st1) as Hg1
    by (rewrite Est1; apply grown_newDep).
  assert (heap_ok st1) as Hok1 by (by apply (heap_ok_ext st)).
  assert (unobserved st1 < n) as Hn1.
  { pose proof (gr_unobserved _ _ _ Hg1). lia. }
  rewrite Eo, Ha. cbn [o_props set_props]. rewrite Hp.
  case_bool_decide as Hconf.
  { exists st1, ps. split_and!; try done. by rewrite Eo. }
  destruct (accessorsOf (Some p)) as [g s] eqn:Eacc.
  assert (∃ val1, initialVal fuel a key g s None st1 = Some (val1, st1))
    as [val1 ->].
  { unfold initialVal.
    destruct (readProp_user a (set_props ps o) key p st1) as [v Hv];
      [by rewrite Eo|done|done|].
    destruct (_ && _); eauto. }
  destruct (Hobs val1 st1 Hok1 Hn1) as (ob & st3 & -> & Hok3 & Hg3 & _).
  set (cell := Build_Cell _ _ _ _ _ _ _ _).
  assert (objs st3 !! a = Some (set_props ps o)) as Ha3.
  { apply (gr_observed _ _ _ Hg3); [tauto|by rewrite Eo|done]. }
  simpl. rewrite Ha3. simpl. rewrite Hp. simpl.
  eexists _, (defineProp key (reactiveProperty (length (cells st3))) ps).
  split; [done|].
  assert (grown_but (λ b, b = a) st3
            (with_objs
               (<[a := set_props
                   (defineProp key (reactiveProperty (length (cells st3))) ps)
                   (set_props ps o)]>)
               (with_cells (λ cs, cs ++ [cell]) st3))) as Hg5.
  { eapply grown_but_trans; [apply grown_with_cells|].
    by eapply grown_insert_same. }
  assert (grown_but (λ b, b = a) st
            (with_objs
               (<[a := set_props
                   (defineProp key (reactiveProperty (length (cells st3))) ps)
                   (set_props ps o)]>)
               (with_cells (λ cs, cs ++ [cell]) st3))) as Hg.
  { eapply grown_but_trans; [exact Hg1|].
    eapply grown_but_trans; [|exact Hg5].
    eapply grown_but_weaken; [|exact Hg3]. by intros ? []. }
  split_and!.
  - eapply heap_ok_insert; [exact Ha3| | |by apply (heap_ok_ext st3)].
    + simpl. rewrite defineProp_keys by (by rewrite Hp).
      apply (hp_keys _ Hok3 a _ Ha3).
    + simpl. intros Hnone. destruct Hob as [k Hk]. congruence.
  - pose proof (gr_unobserved _ _ _ Hg). lia.
  - exact Hg.
  - simpl. by rewrite lookup_insert_eq.
  - intros key' Hne. by apply lookupProp_defineProp_ne.
Qed.

Lemma walk_total a o keys st ps :
  heap_ok st → unobserved st < n →
  objs st !! a = Some (set_props ps o) → is_Some (o_ob o) →
  NoDup keys →
  (∀ key, key ∈ keys →
     ∃ p, lookupProp key ps = Some p ∧ user_prop p = true) →
  ∃ st' ps',
    walk fuel obs a keys st = Some (Normal (), st')
    ∧ heap_ok st' ∧ unobserved st' < n
    ∧ grown_but (λ b, b = a) st st'
    ∧ objs st' !! a = Some (set_props ps' o).
Proof.
  revert st ps. induction keys as [|key keys IH];
    intros st ps Hok Hn Ha Hob Hnd Hkeys; simpl.
  { exists st, ps. split_and!; try done. apply grown_but_refl. }
  apply NoDup_cons in Hnd as [Hkey Hnd].
  destruct (Hkeys key) as (p & Hp & Hu); [by left|].
  destruct (defineReactive_body_walk a o ps key p st Hok Hn Ha Hob Hp Hu)
    as (st1 & ps1 & -> & Hok1 & Hn1 & Hg1 & Ha1 & Hps1).
  destruct (IH st1 ps1 Hok1 Hn1 Ha1 Hob Hnd)
    as (st2 & ps2 & -> & Hok2 & Hn2 & Hg2 & Ha2).
  { intros key' Hin. rewrite Hps1 by (intros ->; done).
    apply Hkeys. by right. }
  exists st2, ps2. split_and!; try done. by eapply grown_but_trans.
Qed.

Lemma observeArray_total a o i m st :
  heap_ok st → unobserved st < n →
  objs st !! a = Some o → is_Some (o_ob o) →
  ∃ st',
    observeArray obs a i m st = Some (Normal (), st')
    ∧ heap_ok st' ∧ unobserved st' < n
    ∧ grown_but (λ _, False) st st'
    ∧ objs st' !! a = Some o.
Proof.
  revert i st. induction m as [|m IH]; intros i st Hok Hn Ha Hob; simpl.
  { exists st. split_and!; try done. apply grown_but_refl. }
  destruct (Hobs (default VUndef (objs st !! a ≫= λ o0, o_elems o0 !! i))
              st Hok Hn) as (ob & st1 & -> & Hok1 & Hg1 & _).
  assert (objs st1 !! a = Some o) as Ha1.
  { apply (gr_observed _ _ _ Hg1); [tauto|done|done]. }
  assert (unobserved st1 < n) as Hn1.
  { pose proof (gr_unobserved _ _ _ Hg1). lia. }
  destruct (IH (S i) st1 Hok1 Hn1 Ha1 Hob)
    as (st2 & -> & Hok2 & Hn2 & Hg2 & Ha2).
  exists st2. split_and!; try done. by eapply grown_but_trans.
Qed.

Lemma newObserver_total a o st :
  heap_ok st → unobserved st < S n →
  objs st !! a = Some o → o_ob o = None →
  ∃ k st',
    newObserver fuel obs a o st = Some (Normal k, st')
    ∧ heap_ok st' ∧ grown_but (λ _, False) st st'
    ∧ ∃ o', objs st' !! a = Some o' ∧ o_ob o' = Some k.
Proof.
  intros Hok Hn Ha Hob. unfold newObserver.
  destruct (newDep st) as [d st1] eqn:End.
  assert (st1 = (newDep st).2) as -> by (by rewrite End).
  clear End. set (st1 := (newDep st).2).
  assert (objs st1 = objs st) as Eo by done.
  set (k := length (observers st1)).
  set (st2 := with_observers _ st1).
  set (st3 := with_objs (alter (set_ob (Some k)) a) st2).
  assert (objs st3 = <[a := set_ob (Some k) o]> (objs st)) as Eo3.
  { unfold st3, st2. simpl. by apply alter_lookup_insert. }
  assert (st3 = with_objs (<[a := set_ob (Some k) o]>)
                  (with_objs (λ _, objs st) st2)) as Est3.
  { unfold st3. unfold with_objs. simpl. f_equal.
    by apply alter_lookup_insert. }
  assert (grown_but (λ _, False) st st3 ∧ unobserved st3 < n ∧ heap_ok st3)
    as (Hg3 & Hn3 & Hok3).
  { assert (grown_but (λ _, False) st (with_objs (λ _, objs st) st2)) as Hg2.
    { split; try done. by exists []; rewrite app_nil_r. }
    assert (grown_but (λ _, False) st st3) as Hg3.
    { rewrite Est3. eapply grown_but_trans; [exact Hg2|].
      eapply grown_insert_observed; [exact Ha|done|by eexists]. }
    split; [done|]. split.
    - rewrite Est3.
      pose proof (unobserved_insert_observed
        (with_objs (λ _, objs st) st2) a o (set_ob (Some k) o) Ha Hob
        ltac:(by eexists)) as Hu.
      assert (unobserved (with_objs (λ _, objs st) st2) = unobserved st)
        by done.
      lia.
    - rewrite Est3. eapply heap_ok_insert; [exact Ha| | |].
      + apply (hp_keys _ Hok a o Ha).
      + simpl. done.
      + by apply (heap_ok_ext st). }
  assert (objs st3 !! a = Some (set_ob (Some k) o)) as Ha3.
  { by rewrite Eo3, lookup_insert_eq. }
  destruct (isArray o).
  - set (st4 := with_objs (alter (set_augmented true) a) st3).
    assert (st4 = with_objs (<[a := set_augmented true (set_ob (Some k) o)]>)
                    st3) as Est4.
    { unfold st4, with_objs. f_equal. by apply alter_lookup_insert. }
    assert (grown_but (λ b, b = a) st3 st4) as Hg4.
    { rewrite Est4. by eapply grown_insert_same. }
    assert (heap_ok st4) as Hok4.
    { rewrite Est4. eapply heap_ok_insert; [exact Ha3| | |done].
      - apply (hp_keys _ Hok a o Ha).
      - simpl. done. }
    assert (objs st4 !! a = Some (set_augmented true (set_ob (Some k) o)))
      as Ha4.
    { rewrite Est4. simpl. by rewrite lookup_insert_eq. }
    destruct (observeArray_total a (set_augmented true (set_ob (Some k) o))
                0 (length (o_elems o)) st4 Hok4)
      as (st5 & -> & Hok5 & Hn5 & Hg5 & Ha5); [| exact Ha4 |by eexists|].
    { pose proof (gr_unobserved _ _ _ Hg4). lia. }
    exists k, st5. split_and!; try done; [|by eexists].
    eapply (grown_but_close a); [|exact Hg3|].
    { intros o0 Ho0. rewrite Ha in Ho0. by injection Ho0 as <-. }
    eapply grown_but_trans; [exact Hg4|].
    eapply grown_but_weaken; [|exact Hg5]. by intros ? [].
  - destruct (walk_total a (set_ob (Some k) o) (keysOf o) st3 (o_props o)
                Hok3 Hn3)
      as (st5 & ps5 & -> & Hok5 & Hn5 & Hg5 & Ha5).
    + rewrite Ha3. by destruct o.
    + by eexists.
    + apply NoDup_keysOf, (hp_keys _ Hok a o Ha).
    + intros key Hin. destruct (lookupProp_keysOf key o Hin) as [p Hp].
      exists p. split; [done|]. by apply (hp_user _ Hok a o key p).
    + exists k, st5. split_and!; try done; [|by eexists].
      eapply (grown_but_close a); [|exact Hg3|exact Hg5].
      intros o0 Ho0. rewrite Ha in Ho0. by injection Ho0 as <-.
Qed.

End Totality.

(** With more fuel than there are unobserved objects, [observe] returns,
    and normally. *)
Lemma observe_total fuel v root st :
  heap_ok st → unobserved st < fuel →
  ∃ ob st',
    observe fuel v root st = Some (Normal ob, st')
    ∧ heap_ok st' ∧ grown_but (λ _, False) st st' ∧ reified v st ob st'.
Proof.
  revert v root st. induction fuel as [|f IH]; intros v root st Hok Hn;
    [lia|].
  simpl. destruct v as [| | | | |a];
    try (exists None, st; split; [done|]; split; [done|]; split;
         [apply grown_but_refl|done]).
  destruct (objs st !! a) as [o|] eqn:Ea.
  2: { exists None, st. split; [done|]. split; [done|].
       split; [apply grown_but_refl|].
       split; [done|]. intros o. by rewrite Ea. }
  destruct (o_isVNode o) eqn:Evn.
  { exists None, st. split; [done|]. split; [done|].
    split; [apply grown_but_refl|].
    split; [done|]. intros o0. rewrite Ea. intros [= <-]. congruence. }
  assert (∀ k st1, heap_ok st1 → grown_but (λ _, False) st st1 →
            (∃ o', objs st1 !! a = Some o' ∧ o_ob o' = Some k) →
            let st' := if root then with_observers (alter inc_vmCount k) st1
                       else st1 in
            heap_ok st' ∧ grown_but (λ _, False) st st'
            ∧ reified (VRef a) st (Some k) st') as Hroot.
  { intros k st1 Hok1 Hg1 Ha1. destruct root; simpl.
    - split; [by apply (heap_ok_ext st1)|]. split.
      + eapply grown_but_trans; [exact Hg1|apply grown_with_observers].
      + split; [by intros ? [= <-]|by eauto].
    - split; [done|]. split; [done|].
      split; [by intros ? [= <-]|by eauto]. }
  destruct (o_ob o) as [k|] eqn:Eob.
  { destruct (Hroot k st Hok (grown_but_refl _ _)) as (H1 & H2 & H3);
      [by eauto|].
    eexists (Some k), _. split; [done|]. by split; [|split]. }
  change (shouldObserve st && negb isServerRendering
          && (isArray o || isPlainObject o) && o_extensible o
          && negb (o_isVue o)) with (observable st o).
  destruct (observable st o) eqn:Eobs.
  - destruct (newObserver_total f f (observe f) (λ v st, IH v false st)
                a o st Hok Hn Ea Eob)
      as (k & st1 & -> & Hok1 & Hg1 & Ha1).
    destruct (Hroot k st1 Hok1 Hg1 Ha1) as (H1 & H2 & H3).
    eexists (Some k), _. split; [done|]. by split; [|split].
  - exists None, st. split; [done|]. split; [done|].
    split; [apply grown_but_refl|].
    split; [done|]. intros o0. rewrite Ea. intros [= <-] _ [[k Hk]|Ho].
    + congruence.
    + congruence.
Qed.

(** ** What the watchers leave alone *)

Lemma announcements_app d l1 l2 :
  announcements d (l1 ++ l2) = announcements d l1 + announcements d l2.
Proof. unfold announcements. by rewrite filter_app, length_app. Qed.

Lemma quiet_step_refl st : quiet_step st st.
Proof. split; try done. exists []. by rewrite app_nil_r. Qed.

Lemma quiet_step_trans st1 st2 st3 :
  quiet_step st1 st2 → quiet_step st2 st3 → quiet_step st1 st3.
Proof.
  intros [A1 A2 A3 A4 A5 (l1 & A6 & A7)] [B1 B2 B3 B4 B5 (l2 & B6 & B7)].
  split; try congruence.
  exists (l1 ++ l2). split; [by rewrite B6, A6, app_assoc|].
  intros d. by rewrite announcements_app, A7, B7.
Qed.

Lemma quiet_step_same st st' :
  objs st' = objs st → cells st' = cells st → slots st' = slots st →
  observers st' = observers st → shouldObserve st' = shouldObserve st →
  log st' = log st → quiet_step st st'.
Proof.
  intros. split; try done. exists []. by rewrite app_nil_r.
Qed.

Lemma quiet_emit e st :
  (∀ d, is_notify d e = false) → quiet_step st (emit e st).
Proof.
  intros He. split; try done. exists [e]. split; [done|].
  intros d. unfold announcements. rewrite filter_cons.
  rewrite decide_False; [done|]. by rewrite He.
Qed.

Lemma quiet_addDep w d st : quiet_step st (addDep w d st).
Proof.
  unfold addDep. destruct (watchers st !! w); [|apply quiet_step_refl].
  repeat case_decide; by apply quiet_step_same.
Qed.

Lemma quiet_depend d st : quiet_step st (depend d st).
Proof.
  unfold depend. destruct (target st);
    [apply quiet_addDep|apply quiet_step_refl].
Qed.

Lemma quiet_depend_all ds st :
  quiet_step st (foldl (λ s d, depend d s) st ds).
Proof.
  revert st. induction ds as [|d ds IH]; intros st; simpl.
  - apply quiet_step_refl.
  - eapply quiet_step_trans; [apply quiet_depend|apply IH].
Qed.

Lemma quiet_cleanupDeps w st : quiet_step st (cleanupDeps w st).
Proof.
  unfold cleanupDeps. destruct (watchers st !! w) as [r|];
    [|apply quiet_step_refl].
  set (st1 := foldl _ st _).
  apply (quiet_step_trans _ st1); [|by apply quiet_step_same].
  unfold st1. clear st1.
  generalize (reverse (w_deps r)). intros ds. revert st.
  induction ds as [|d ds IH]; intros st; simpl; [apply quiet_step_refl|].
  eapply quiet_step_trans; [|apply IH].
  case_decide; [apply quiet_step_refl|by apply quiet_step_same].
Qed.

Lemma quiet_get w st : quiet_step st (get w st).2.
Proof.
  unfold get. destruct (watchers st !! w) as [r|]; [|apply quiet_step_refl].
  assert (quiet_step st (call_getter w r (pushTarget (Some w) st)).2) as Hc.
  { unfold call_getter.
    assert (quiet_step st (foldl (λ s d, depend d s)
              (emit (EvGetter w) (pushTarget (Some w) st))
              (reads (getter w (pushTarget (Some w) st))))) as H1.
    { eapply quiet_step_trans; [|apply quiet_depend_all].
      apply (quiet_step_trans _ (pushTarget (Some w) st));
        [by apply quiet_step_same|by apply quiet_emit]. }
    destruct (result _); [done|]. destruct (w_user r); simpl; [|done].
    eapply quiet_step_trans; [exact H1|by apply quiet_emit]. }
  destruct (call_getter w r _) as [[value pending] st1]. simpl in Hc.
  assert (quiet_step st (cleanupDeps w (popTarget
    (if w_deep r then foldl (λ s d, depend d s) st1 (traverse st1 value)
     else st1)))) as Hf.
  { eapply quiet_step_trans; [|apply quiet_cleanupDeps].
    set (st2 := if w_deep r then _ else st1).
    apply (quiet_step_trans _ st2); [|by apply quiet_step_same].
    unfold st2. destruct (w_deep r); [|done].
    eapply quiet_step_trans; [exact Hc|apply quiet_depend_all]. }
  by destruct pending.
Qed.

Lemma quiet_run w st : quiet_step st (run w st).2.
Proof.
  unfold run. destruct (watchers st !! w) as [r|]; [|apply quiet_step_refl].
  destruct (w_active r); [|apply quiet_step_refl].
  pose proof (quiet_get w st) as Hg.
  destruct (get w st) as [[v|e] st1]; simpl in *; [|done].
  destruct (_ || _); [|done]. simpl.
  eapply quiet_step_trans; [exact Hg|].
  apply (quiet_step_trans _ (with_watcher (set_value v) w st1));
    [by apply quiet_step_same|by apply quiet_emit].
Qed.

Lemma quiet_update w st : quiet_step st (update w st).2.
Proof.
  unfold update. destruct (watchers st !! w) as [r|];
    [|apply quiet_step_refl].
  destruct (w_lazy r); [by apply quiet_step_same|].
  destruct (w_sync r); [apply quiet_run|].
  unfold queueWatcher. destruct (_ && _); [|by apply quiet_emit].
  eapply quiet_step_trans; [|apply quiet_run]. by apply quiet_emit.
Qed.

(** C6, amended — [update] dispatches on the mode of the watcher.  A lazy
    watcher gets its dirty flag set and that is all: nothing is run or
    queued, the other fields of the watcher, the other watchers and the
    subscriber lists are as they were.  Otherwise a sync watcher is run at
    once ([run], which calls the getter when the watcher is active).
    Every other watcher is handed to [queueWatcher]; in a production
    build, or with [config.async] on, nothing else happens within the
    call: the watcher is not run, and the watchers and the subscriber
    lists are as they were. *)
Theorem update_dispatch w r st :
  graph_ok st → watchers st !! w = Some r →
  if w_lazy r then
    (update w st).1 = Normal ()
    ∧ watchers (update w st).2 !! w
      = Some {| w_vm := w_vm r; w_deep := w_deep r; w_user := w_user r;
                w_lazy := w_lazy r; w_sync := w_sync r; w_dirty := true;
                w_active := w_active r; w_deps := w_deps r;
                w_newDeps := w_newDeps r; w_depIds := w_depIds r;
                w_newDepIds := w_newDepIds r; w_value := w_value r |}
    ∧ (∀ w', w' ≠ w → watchers (update w st).2 !! w' = watchers st !! w')
    ∧ subs (update w st).2 = subs st
    ∧ log (update w st).2 = log st
  else if w_sync r then
    update w st = run w st
    ∧ (w_active r = true →
       ∃ rest, log (update w st).2 = log st ++ EvGetter w :: rest)
  else
    (∃ rest, log (update w st).2 = log st ++ EvQueueWatcher w :: rest)
    ∧ (production || config_async st = true →
       (update w st).1 = Normal ()
       ∧ log (update w st).2 = log st ++ [EvQueueWatcher w]
       ∧ watchers (update w st).2 = watchers st
       ∧ subs (update w st).2 = subs st).
Proof.
  intros Hok Er. unfold update. rewrite Er.
  destruct (w_lazy r) eqn:Hlazy.
  { simpl. split; [done|]. split.
    { rewrite lookup_alter_eq, Er. simpl. unfold set_dirty.
      by rewrite Hlazy. }
    split; [|done]. intros w' Hne. by rewrite lookup_alter_ne. }
  destruct (w_sync r).
  - split; [done|]. intros Hact. unfold run. rewrite Er, Hact.
    destruct (get_spec w r st Hok Er) as (_ & _ & _ & _ & Hres).
    destruct (get w st) as [[v|e'] st1]; simpl in *.
    + assert (∃ rest, log st1 = log st ++ EvGetter w :: rest) as [rest El].
      { destruct (result _); [|destruct (w_user r)];
          destruct Hres as [_ ->]; eauto. }
      destruct (_ || _); simpl; [|eauto].
      rewrite El, <-app_assoc. simpl. eauto.
    + destruct (result _); [|destruct (w_user r)];
        destruct Hres as [? ->]; eauto.
  - unfold queueWatcher. split.
    + destruct (_ && _); [|by exists []].
      destruct (qs_log _ _ (quiet_run w (emit (EvQueueWatcher w) st)))
        as (l & -> & _).
      exists l. simpl. by rewrite <-app_assoc.
    + intros Hmode.
      assert (negb production && negb (config_async st) = false) as ->.
      { by destruct production, (config_async st). }
      done.
Qed.

(** [notify] on [d] adds one entry of [notify] on [d] to the log, and
    leaves the heap alone. *)
Lemma notify_announces d st :
  objs (notify d st).2 = objs st ∧ cells (notify d st).2 = cells st
  ∧ slots (notify d st).2 = slots st
  ∧ observers (notify d st).2 = observers st
  ∧ ∀ d', announcements d' (log (notify d st).2)
          = announcements d' (log st) + (if decide (d = d') then 1 else 0).
Proof.
  unfold notify, notify_with.
  set (snapshot := if _ : bool then _ else _).
  assert (quiet_step (emit (EvNotify d) st)
            (notify_loop update snapshot 0 (length snapshot)
               (emit (EvNotify d) st)).2) as [H1 H2 H3 H4 H5 (l & H6 & H7)].
  { apply (notify_loop_preserves (quiet_step (emit (EvNotify d) st)));
      [|apply quiet_step_refl].
    intros w s Hs. eapply quiet_step_trans; [exact Hs|apply quiet_update]. }
  split_and!; try done.
  intros d'. rewrite H6. simpl. rewrite !announcements_app, H7.
  assert (announcements d' [EvNotify d] = if decide (d = d') then 1 else 0)
    as ->; [|lia].
  unfold announcements. rewrite filter_cons. simpl.
  destruct (decide (d = d')) as [->|Hne].
  - rewrite decide_True; [done|]. by apply bool_decide_eq_true.
  - rewrite decide_False; [done|]. by rewrite bool_decide_eq_true.
Qed.

(** ** Claims about the observer *)

Lemma marked_stable a k :
  stable_obs (λ s, ∃ o, objs s !! a = Some o ∧ o_ob o = Some k
                        ∧ o_isVNode o = false).
Proof.
  split.
  - done.
  - intros d st (o & Ho & Hk & Hv). exists o.
    by rewrite (qs_objs _ _ (quiet_depend d st)).
  - intros a' k' st o' Ha' Hnone (o & Ho & Hk & Hv). exists o. simpl.
    rewrite lookup_alter_ne; [done|]. intros ->. congruence.
  - intros a' st (o & Ho & Hk & Hv). simpl.
    destruct (decide (a' = a)) as [->|Hne].
    + exists (set_augmented true o). by rewrite lookup_alter_eq, Ho.
    + exists o. by rewrite lookup_alter_ne.
  - intros a' o' ps st Ha' (o & Ho & Hk & Hv). simpl.
    destruct (decide (a' = a)) as [->|Hne].
    + exists (set_props ps o'). rewrite lookup_insert_eq.
      rewrite Ha' in Ho. by injection Ho as ->.
    + exists o. by rewrite lookup_insert_ne.
  - done.
  - done.
Qed.

Lemma observe_marks fuel v root k st st1 :
  observe fuel v root st = Some (Normal (Some k), st1) →
  ∃ a o1, v = VRef a ∧ objs st1 !! a = Some o1 ∧ o_ob o1 = Some k
          ∧ o_isVNode o1 = false.
Proof.
  destruct fuel as [|f]; simpl; [done|].
  destruct v as [| | | | |a]; try done.
  destruct (objs st !! a) as [o|] eqn:Ea; [|done].
  destruct (o_isVNode o) eqn:Evn; [done|].
  intros Ho. exists a.
  assert (∀ st0, (∃ o1, objs st0 !! a = Some o1 ∧ o_ob o1 = Some k
                        ∧ o_isVNode o1 = false) →
    ∃ o1, objs (if root then with_observers (alter inc_vmCount k) st0
                else st0) !! a = Some o1 ∧ o_ob o1 = Some k
          ∧ o_isVNode o1 = false) as Hroot.
  { intros st0 Hst0. by destruct root. }
  destruct (o_ob o) as [k0|] eqn:Eob.
  { injection Ho as <- <-. destruct (Hroot st) as (o1 & ? & ? & ?); eauto. }
  destruct (_ && _); [|done].
  destruct (newObserver f (observe f) a o st) as [[[k'|e] st2]|] eqn:En;
    [|done|done].
  injection Ho as <- <-.
  destruct (Hroot st2) as (o1 & ? & ? & ?); [|by eauto].
  clear Hroot. unfold newObserver in En.
  destruct (newDep st) as [d st0] eqn:End.
  assert (objs st0 = objs st) as Eo by (by injection End as _ <-).
  set (st3 := with_objs _ (with_observers _ st0)) in En.
  assert (∃ o1, objs st3 !! a = Some o1
                ∧ o_ob o1 = Some (length (observers st0))
                ∧ o_isVNode o1 = false) as H3.
  { exists (set_ob (Some (length (observers st0))) o). simpl.
    by rewrite Eo, lookup_alter_eq, Ea. }
  pose proof (marked_stable a (length (observers st0))) as HP.
  set (P := λ s : State, ∃ o1, objs s !! a = Some o1
              ∧ o_ob o1 = Some (length (observers st0))
              ∧ o_isVNode o1 = false) in *.
  destruct (isArray o).
  - destruct (observeArray _ _ _ _ _) as [[[[]|e] st4]|] eqn:E4;
      [|done|done].
    injection En as <- <-. change (P st4).
    eapply (observeArray_stable P); [|exact E4|].
    + apply (observe_stable P HP).
    + by apply (st_augment P HP).
  - destruct (walk _ _ _ _ _) as [[[[]|e] st4]|] eqn:E4; [|done|done].
    injection En as <- <-. change (P st4).
    eapply (walk_stable P HP); [|exact E4|exact H3].
    apply (observe_stable P HP).
Qed.

(** C5 — [observe] on a value it has already reified returns the Observer
    returned the first time and wraps nothing again: the heap, the
    closures and the Deps are left as they are (the only change is
    [vmCount++] on that Observer when [asRootData] is passed). *)
Theorem observe_idempotent fuel fuel' v root root' k st st1 :
  observe fuel v root st = Some (Normal (Some k), st1) →
  ∃ st2,
    observe (S fuel') v root' st1 = Some (Normal (Some k), st2)
    ∧ st2 = (if root' then with_observers (alter inc_vmCount k) st1 else st1)
    ∧ objs st2 = objs st1 ∧ cells st2 = cells st1
    ∧ subs st2 = subs st1 ∧ dep_uid st2 = dep_uid st1
    ∧ length (observers st2) = length (observers st1).
Proof.
  intros (a & o1 & -> & Ha & Hk & Hv)%observe_marks.
  eexists. split; [|split; [reflexivity|]].
  - simpl. by rewrite Ha, Hv, Hk.
  - destruct root'; simpl; split_and!; try done. by rewrite length_alter.
Qed.

Lemma announcements_emit d e st :
  is_notify d e = false →
  announcements d (log (emit e st)) = announcements d (log st).
Proof.
  intros He. simpl. rewrite announcements_app.
  unfold announcements at 2. rewrite filter_cons, decide_False;
    [simpl; lia|]. by rewrite He.
Qed.

Lemma announcements_warn d st :
  announcements d (log (warn st)) = announcements d (log st).
Proof.
  unfold warn. destruct production; [done|]. by apply announcements_emit.
Qed.

(** The part of [reactiveSetter] up to the comparison, for a field over a
    data property or a user accessor. *)
Lemma reactiveSetter_unfold fuel c cell newVal st :
  cells st !! c = Some cell →
  user_prop (PAccessor (c_getter cell) (c_setter cell) true true) = true →
  reactiveSetter (S fuel) c newVal st =
    if unchanged newVal (storedValue st cell) then Some (Normal (), st)
    else
      let st2 :=
        if negb production && c_customSetter cell
        then emit (EvCustomSetter c) st else st in
      if bool_decide (is_Some (c_getter cell))
         && bool_decide (c_setter cell = None)
      then Some (Normal (), st2)
      else
        let st3 :=
          match c_setter cell with
          | Some (SUser s) => with_slots (<[s := newVal]>) st2
          | _ => with_cells (alter (set_val newVal) c) st2
          end in
        match
          if c_shallow cell then Some (Normal None, st3)
          else observe fuel newVal false st3
        with
        | None => None
        | Some (Throw e, st4) => Some (Throw e, st4)
        | Some (Normal childOb, st4) =>
            Some (notify (c_dep cell)
                    (with_cells (alter (set_childOb childOb) c) st4))
        end.
Proof.
  intros Hc Hu. simpl. rewrite Hc. unfold storedValue.
  destruct (c_getter cell) as [[s|c']|] eqn:Eg; simpl in Hu; try done;
    simpl; (destruct (unchanged _ _); [done|]);
    destruct (c_setter cell) as [[s'|c'']|] eqn:Es; simpl in Hu; try done.
Qed.

(** C9 — A reactive field over an accessor property that has a getter and
    no setter drops every write: the setter returns having changed
    neither the value behind the getter nor any object, closure, observer
    or subscriber list, and without a call of [notify]; at most the
    [customSetter] hook has been called (outside production, on a value
    that differs). *)
Theorem setter_getter_only fuel c cell s newVal st :
  cells st !! c = Some cell →
  c_getter cell = Some (GUser s) → c_setter cell = None →
  ∃ st',
    reactiveSetter (S fuel) c newVal st = Some (Normal (), st')
    ∧ slotOf st' s = slotOf st s
    ∧ slots st' = slots st ∧ cells st' = cells st ∧ objs st' = objs st
    ∧ observers st' = observers st ∧ subs st' = subs st
    ∧ watchers st' = watchers st
    ∧ (∀ d, announcements d (log st') = announcements d (log st))
    ∧ (st' = st ∨ st' = emit (EvCustomSetter c) st).
Proof.
  intros Hc Hg Hs.
  rewrite (reactiveSetter_unfold fuel c cell newVal st Hc)
    by (by rewrite Hg, Hs).
  rewrite Hg, Hs. simpl.
  destruct (unchanged _ _).
  { exists st. split_and!; try done. by left. }
  destruct (negb production && c_customSetter cell).
  - exists (emit (EvCustomSetter c) st). split_and!; try done; [|by right].
    intros d. by apply announcements_emit.
  - exists st. split_and!; try done. by left.
Qed.

(** C4, amended — The setter of a reactive field (over a data property or
    a user accessor) does nothing when the written value is [===] to the
    value held or both are [NaN].  Otherwise, when the field wraps a
    getter without a setter the write is dropped; in every other case the
    value is stored (handed to the wrapped setter when there is one, kept
    in the closure when there is none), it is passed to [observe] unless
    the field is shallow, and [notify] is called on the Dep of the field
    exactly once. *)
Theorem reactiveSetter_spec fuel c cell newVal st :
  heap_ok st → unobserved st < fuel →
  cells st !! c = Some cell →
  user_prop (PAccessor (c_getter cell) (c_setter cell) true true) = true →
  if unchanged newVal (storedValue st cell) then
    reactiveSetter (S fuel) c newVal st = Some (Normal (), st)
  else if bool_decide (is_Some (c_getter cell))
          && bool_decide (c_setter cell = None) then
    ∃ st',
      reactiveSetter (S fuel) c newVal st = Some (Normal (), st')
      ∧ storedValue st' cell = storedValue st cell
      ∧ objs st' = objs st ∧ cells st' = cells st
      ∧ ∀ d, announcements d (log st') = announcements d (log st)
  else
    ∃ r st' cell' ob,
      reactiveSetter (S fuel) c newVal st = Some (r, st')
      ∧ cells st' !! c = Some cell'
      ∧ match c_setter cell with
        | Some (SUser s) => slotOf st' s = newVal
        | _ => c_val cell' = newVal
        end
      ∧ c_childOb cell' = ob
      ∧ (if c_shallow cell then ob = None ∧ objs st' = objs st
         else reified newVal st ob st')
      ∧ announcements (c_dep cell) (log st')
        = S (announcements (c_dep cell) (log st)).
Proof.
  intros Hok Hn Hc Hu.
  rewrite (reactiveSetter_unfold fuel c cell newVal st Hc Hu).
  destruct (unchanged _ _); [done|].
  set (st2 := if negb production && c_customSetter cell
              then emit (EvCustomSetter c) st else st).
  assert (objs st2 = objs st ∧ cells st2 = cells st ∧ slots st2 = slots st
          ∧ shouldObserve st2 = shouldObserve st
          ∧ ∀ d, announcements d (log st2) = announcements d (log st))
    as (Eo2 & Ec2 & Es2 & Eso2 & El2).
  { unfold st2. destruct (_ && _); [|done]. split_and!; try done.
    intros d. by apply announcements_emit. }
  cbv zeta.
  destruct (bool_decide (is_Some (c_getter cell)) && _) eqn:Egs.
  { exists st2. split_and!; try done.
    unfold storedValue, slotOf. by rewrite Es2. }
  set (st3 := match c_setter cell with
              | Some (SUser s) => with_slots (<[s := newVal]>) st2
              | _ => with_cells (alter (set_val newVal) c) st2
              end).
  assert (objs st3 = objs st ∧ shouldObserve st3 = shouldObserve st
          ∧ log st3 = log st2) as (Eo3 & Eso3 & El3).
  { unfold st3. by destruct (c_setter cell) as [[?|?]|]. }
  assert (∃ cell3, cells st3 !! c = Some cell3
            ∧ match c_setter cell with
              | Some (SUser s) => slotOf st3 s = newVal
              | _ => c_val cell3 = newVal
              end) as (cell3 & Hc3 & Hstored).
  { unfold st3. destruct (c_setter cell) as [[s|c']|] eqn:Es.
    - exists cell. simpl. rewrite Ec2. split; [done|].
      unfold slotOf. simpl. by rewrite lookup_insert_eq.
    - exists cell. simpl in Hu. by rewrite andb_false_r in Hu.
    - exists (set_val newVal cell). simpl.
      by rewrite list_lookup_alter_eq, Ec2, Hc. }
  assert (heap_ok st3) as Hok3 by (by apply (heap_ok_ext st)).
  assert (unobserved st3 < fuel) as Hn3.
  { unfold unobserved. rewrite Eo3. exact Hn. }
  (* the call of [observe], or none *)
  assert (∃ ob st4,
    (if c_shallow cell then Some (Normal None, st3)
     else observe fuel newVal false st3) = Some (Normal ob, st4)
    ∧ grown_but (λ _, False) st3 st4
    ∧ (if c_shallow cell then ob = None ∧ objs st4 = objs st
       else reified newVal st ob st4)) as (ob & st4 & -> & Hg4 & Hre).
  { destruct (c_shallow cell).
    - exists None, st3. split; [done|]. split; [apply grown_but_refl|done].
    - destruct (observe_total fuel newVal false st3 Hok3 Hn3)
        as (ob & st4 & -> & _ & Hg4 & Hre).
      exists ob, st4. split; [done|]. split; [done|].
      unfold reified in *. destruct newVal; try done.
      unfold observable in *. by rewrite Eo3, Eso3 in Hre. }
  set (st5 := with_cells (alter (set_childOb ob) c) st4).
  destruct (notify_announces (c_dep cell) st5) as (No & Nc & Ns & _ & Nl).
  destruct (gr_cells _ _ _ Hg4) as [l Hl].
  exists (notify (c_dep cell) st5).1, (notify (c_dep cell) st5).2,
    (set_childOb ob cell3), ob.
  split; [by destruct (notify (c_dep cell) st5)|].
  split_and!.
  - rewrite Nc. simpl. rewrite list_lookup_alter_eq, Hl.
    rewrite lookup_app_l by (by eapply lookup_lt_Some). by rewrite Hc3.
  - destruct (c_setter cell) as [[s|c']|]; try done.
    unfold slotOf in *. rewrite Ns. simpl.
    by rewrite (gr_slots _ _ _ Hg4).
  - done.
  - destruct (c_shallow cell).
    + split; [tauto|]. rewrite No. simpl. tauto.
    + unfold reified in *. destruct newVal; try done.
      rewrite No. simpl. done.
  - rewrite Nl, decide_True by done. simpl.
    rewrite (gr_log _ _ _ Hg4), El3, El2. lia.
Qed.


Lemma lookupProp_elem key p ps : lookupProp key ps = Some p → (key, p) ∈ ps.
Proof.
  induction ps as [|[k q] ps IH]; simpl; [done|].
  case_decide; [intros [= ->]; subst; by left|].
  intros Hl. right. by apply IH.
Qed.

Lemma heap_okb_sound st : heap_okb st = true → heap_ok st.
Proof.
  unfold heap_okb. intros Hb%bool_decide_eq_true. split.
  - intros a o Ha. by destruct (Hb a o Ha).
  - intros a o key p Ha Hob Hp. destruct (Hb a o Ha) as [_ Hu].
    specialize (Hu Hob). rewrite Forall_forall in Hu.
    by apply (Hu (key, p)), lookupProp_elem.
Qed.

(** ** Steps of the surrounding code *)

Lemma host_step_with_vms f st : host_step st (with_vms f st).
Proof. by repeat split. Qed.

Lemma host_step_with_config_async b st :
  host_step st (with_config_async b st).
Proof. by repeat split. Qed.

Lemma host_step_with_objs f st : host_step st (with_objs f st).
Proof. by repeat split. Qed.

Lemma host_step_with_slots f st : host_step st (with_slots f st).
Proof. by repeat split. Qed.

(** * Further properties of Dep and Watcher *)

(** X1 — At every state reached through the operations of the module, a
    subscriber of a Dep is an existing watcher that holds this Dep, in
    [deps] or in the [newDeps] of a run in progress: the subscriber lists
    have no dangling entry. *)
Theorem reachable_subscriber_holds st d w :
  reachable st → w ∈ subsOf st d →
  ∃ r, watchers st !! w = Some r ∧ (d ∈ w_deps r ∨ d ∈ w_newDeps r).
Proof.
  intros Hok%reachable_graph_ok Hin.
  destruct (ok_link st Hok d w Hin) as (r & Er & Hd).
  destruct (ok_ids st Hok w r Er) as [Hids Hnids].
  exists r. split; [done|]. rewrite Hids, Hnids in Hd.
  by rewrite !elem_of_list_to_set in Hd.
Qed.

(** X2 — At every reachable state [Dep.target] is the entry on top of the
    target stack ([undefined] when the stack is empty), and no watcher
    has the id that the next watcher will be given. *)
Theorem reachable_target_top st :
  reachable st →
  target st = mjoin (head (targetStack st))
  ∧ watchers st !! S (watcher_uid st) = None.
Proof.
  intros Hok%reachable_graph_ok. split; [apply (ok_target st Hok)|].
  destruct (watchers st !! S (watcher_uid st)) eqn:E; [|done].
  assert (S (watcher_uid st) ≤ watcher_uid st)
    by (apply (ok_uid st Hok); by rewrite E).
  lia.
Qed.

(** X3 — [popTarget] undoes [pushTarget]: the stack is what it was, and,
    when [Dep.target] was the top of the stack before, the whole state
    is. *)
Theorem popTarget_pushTarget t st :
  targetStack (popTarget (pushTarget t st)) = targetStack st
  ∧ (target st = mjoin (head (targetStack st)) →
     popTarget (pushTarget t st) = st).
Proof.
  split; [done|]. intros Ht. unfold popTarget, pushTarget, with_target.
  simpl. rewrite <-Ht. by destruct st.
Qed.

Lemma remove_snoc_absent item l : item ∉ l → remove (l ++ [item]) item = l.
Proof.
  induction l as [|y l IH]; simpl; [by rewrite decide_True|].
  intros Hn. rewrite decide_False by set_solver. f_equal. apply IH.
  set_solver.
Qed.

(** X4 — [removeSub] undoes [addSub] for a watcher that was not a
    subscriber: the list of the Dep is what it was; the lists of the other
    Deps are never touched by either. *)
Theorem removeSub_addSub d w st :
  w ∉ subsOf st d →
  subsOf (removeSub d w (addSub d w st)) d = subsOf st d
  ∧ ∀ d', d' ≠ d →
      subsOf (removeSub d w (addSub d w st)) d' = subsOf st d'.
Proof.
  intros Hn. split.
  - rewrite subsOf_removeSub, decide_True by done.
    rewrite subsOf_addSub, decide_True by done.
    by apply remove_snoc_absent.
  - intros d' Hne. rewrite subsOf_removeSub, decide_False by done.
    by rewrite subsOf_addSub, decide_False.
Qed.

Lemma teardown_watcher w r st :
  watchers st !! w = Some r →
  watchers (teardown w st) !! w = Some (set_active false r).
Proof.
  intros Er. unfold teardown. rewrite Er.
  destruct (w_active r) eqn:Ea.
  - rewrite teardown_loop_eq.
    set (st1 := match vms st !! w_vm r with
                | Some v => if vm_isBeingDestroyed v then st else _
                | None => st end).
    assert (watchers st1 = watchers st) as Ew.
    { unfold st1. destruct (vms st !! w_vm r) as [v|]; [|done].
      by destruct (vm_isBeingDestroyed v). }
    pose proof (drop_stale_spec ∅ w (reverse (w_deps r)) st1) as (E1 & _).
    set (st2 := foldl _ st1 _) in *. simpl.
    by rewrite E1, Ew, lookup_alter_eq, Er.
  - rewrite Er. f_equal. destruct r. simpl in *. by subst.
Qed.

(** X5 — After [teardown] a watcher is dead to the scheduler: [run] on it
    returns at once, without calling the getter or the callback and
    without changing anything. *)
Theorem run_after_teardown w r st :
  watchers st !! w = Some r →
  run w (teardown w st) = (Normal (), teardown w st).
Proof.
  intros Er. unfold run. by rewrite (teardown_watcher w r st Er).
Qed.

(** X6 — [evaluate] caches the value of the getter and clears the dirty
    flag.  When the getter throws, a [user] watcher caches [undefined]
    and is clean all the same; any other watcher lets the error through
    and keeps the value and the dirty flag it had.  The Deps are
    reconciled in every case. *)
Theorem evaluate_spec w r st :
  graph_ok st → watchers st !! w = Some r → w_newDeps r = [] →
  ∃ r',
    watchers (evaluate w st).2 !! w = Some r'
    ∧ (∀ d, d ∈ w_deps r' ↔ d ∈ fired w st)
    ∧ match result (getter w (pushTarget (Some w) st)) with
      | Normal v =>
          (evaluate w st).1 = Normal ()
          ∧ w_value r' = v ∧ w_dirty r' = false
      | Throw e =>
          if w_user r
          then (evaluate w st).1 = Normal ()
               ∧ w_value r' = VUndef ∧ w_dirty r' = false
          else (evaluate w st).1 = Throw e
               ∧ w_value r' = w_value r ∧ w_dirty r' = w_dirty r
      end.
Proof.
  intros Hok Er Hidle.
  destruct (get_spec w r st Hok Er)
    as ((nds & Er' & Hn & _ & _) & _ & _ & _ & Hres).
  rewrite Hidle in Hn.
  assert (∀ d, d ∈ nds ↔ d ∈ fired w st) as Hn'.
  { intros d. rewrite Hn. split; [|by right].
    intros [Hd|Hd]; [by apply not_elem_of_nil in Hd|done]. }
  unfold evaluate. cbv zeta in Hres.
  destruct (get w st) as [[v|e] st1]; simpl in *.
  - eexists. split.
    { rewrite lookup_alter_eq, lookup_alter_eq, Er'. reflexivity. }
    split; [done|].
    destruct (result _) as [v'|e'].
    + destruct Hres as [[= ->] _]. done.
    + destruct (w_user r); destruct Hres as [[=] _]. by subst.
  - exists (set_deps nds [] (list_to_set nds) ∅ r). split; [done|].
    split; [done|].
    destruct (result _) as [v'|e']; [by destruct Hres|].
    destruct (w_user r); destruct Hres as [[=] _]. by subst.
Qed.

(** X7 — [depend] of a watcher hands every Dep it holds to the active
    watcher: afterwards each of them is among the [newDeps] of the active
    watcher, which is a subscriber of those it did not hold yet. *)
Theorem watcher_depend_spec w w' r r' st :
  graph_ok st → target st = Some w →
  watchers st !! w = Some r → watchers st !! w' = Some r' →
  ∃ nds,
    watchers (watcher_depend w' st) !! w
      = Some (set_deps (w_deps r) nds (w_depIds r) (list_to_set nds) r)
    ∧ (∀ d, d ∈ w_deps r' → d ∈ nds)
    ∧ (∀ d, d ∈ w_deps r' → d ∉ w_newDeps r → d ∉ w_deps r →
         w ∈ subsOf (watcher_depend w' st) d).
Proof.
  intros Hok Ht Er Er'. unfold watcher_depend. rewrite Er'.
  destruct (collect_spec w (reverse (w_deps r')) st r Hok Er Ht)
    as (nds & E1 & Hn & Hreg & _).
  exists nds. split; [exact E1|]. split.
  - intros d Hd. apply Hn. right. by apply elem_of_reverse.
  - intros d Hd. apply Hreg. by apply elem_of_reverse.
Qed.

Lemma update_each_app upd ws1 ws2 st :
  update_each upd (ws1 ++ ws2) st =
    match update_each upd ws1 st with
    | (Normal _, st1) => update_each upd ws2 st1
    | (Throw e, st1) => (Throw e, st1)
    end.
Proof.
  revert st. induction ws1 as [|w ws1 IH]; intros st; simpl; [done|].
  destruct (upd w st) as [[[]|e] st1]; [apply IH|done].
Qed.

(** X8 — [notify] has no error boundary: when the [update] of a subscriber
    throws, [notify] throws the same error at once, and the subscribers
    that come after it in the snapshot are not updated. *)
Theorem notify_stops_at_throw upd d st ws1 w ws2 e st1 st2 :
  snapshot_order st d = ws1 ++ w :: ws2 →
  update_each upd ws1 (emit (EvNotify d) st) = (Normal (), st1) →
  upd w st1 = (Throw e, st2) →
  notify_with upd d st = (Throw e, st2).
Proof.
  intros Hs H1 H2. unfold notify_with.
  rewrite notify_loop_drop by lia. rewrite drop_0.
  change (if negb production && negb (config_async st)
          then sort_by_id (subsOf st d) else subsOf st d)
    with (snapshot_order st d).
  rewrite Hs, update_each_app, H1. simpl. by rewrite H2.
Qed.

Lemma set_dirty_twice b r : set_dirty b (set_dirty b r) = set_dirty b r.
Proof. done. Qed.

(** [update] on watchers none of which runs at once. *)
Lemma update_each_deferred ws st :
  production || config_async st = true →
  (∀ w, w ∈ ws → ∃ r, watchers st !! w = Some r
                      ∧ (w_lazy r = true ∨ w_sync r = false)) →
  (update_each update ws st).1 = Normal ()
  ∧ log (update_each update ws st).2
    = log st ++ (EvQueueWatcher <$>
        filter (λ w, w_lazy <$> watchers st !! w = Some false) ws)
  ∧ subs (update_each update ws st).2 = subs st
  ∧ ∀ w, watchers (update_each update ws st).2 !! w
         = (λ r, if decide (w ∈ ws ∧ w_lazy r = true)
                 then set_dirty true r else r) <$> watchers st !! w.
Proof.
  revert st. induction ws as [|w0 ws IH]; intros st Hmode Hws.
  { simpl. rewrite app_nil_r. split_and!; try done.
    intros w. by destruct (watchers st !! w). }
  destruct (Hws w0) as (r0 & Er0 & Hr0); [by left|].
  cbn [update_each]. unfold update at 1 3 5 7. rewrite Er0.
  set (st1 := if w_lazy r0 then with_watcher (set_dirty true) w0 st
              else emit (EvQueueWatcher w0) st).
  assert ((if w_lazy r0
           then (Normal (), with_watcher (set_dirty true) w0 st)
           else if w_sync r0 then run w0 st
                else queueWatcher w0 st)
          = (Normal (), st1)) as ->.
  { unfold st1, queueWatcher.
    assert (negb production && negb (config_async st) = false) as ->.
    { by destruct production, (config_async st). }
    destruct (w_lazy r0); [done|].
    destruct Hr0 as [?| ->]; done. }
  assert (config_async st1 = config_async st) as Hasync.
  { unfold st1. by destruct (w_lazy r0). }
  assert (∀ w, watchers st1 !! w
    = (λ r, if decide (w = w0 ∧ w_lazy r = true)
            then set_dirty true r else r) <$> watchers st !! w) as Hw1.
  { intros w. unfold st1. destruct (w_lazy r0) eqn:El; simpl.
    - destruct (decide (w = w0)) as [->|Hne].
      + rewrite lookup_alter_eq, Er0. cbn [fmap option_fmap option_map].
        by rewrite decide_True.
      + rewrite lookup_alter_ne by done.
        destruct (watchers st !! w) as [r|]; [|done].
        cbn [fmap option_fmap option_map].
        rewrite decide_False; [done|]. by intros [? _].
    - destruct (watchers st !! w) as [r|] eqn:Er; [|done].
      cbn [fmap option_fmap option_map].
      rewrite decide_False; [done|]. intros [-> Hl]. congruence. }
  assert (∀ w, w_lazy <$> watchers st1 !! w = w_lazy <$> watchers st !! w)
    as Hlazy.
  { intros w. rewrite Hw1. destruct (watchers st !! w) as [r|]; [|done].
    cbn [fmap option_fmap option_map]. by case_decide. }
  destruct (IH st1) as (I1 & I2 & I3 & I4).
  { by rewrite Hasync. }
  { intros w Hin. destruct (Hws w) as (r & Er & Hr); [by right|].
    rewrite Hw1, Er. cbn [fmap option_fmap option_map].
    eexists. split; [done|]. by case_decide. }
  split; [done|]. split; [|split].
  - rewrite I2. rewrite filter_cons. rewrite (list_filter_iff _
      (λ w, w_lazy <$> watchers st !! w = Some false) ws)
      by (intros w; by rewrite Hlazy).
    unfold st1. rewrite Er0. simpl. destruct (w_lazy r0); simpl.
    + done.
    + by rewrite <-app_assoc.
  - rewrite I3. unfold st1. by destruct (w_lazy r0).
  - intros w. rewrite I4, Hw1.
    destruct (watchers st !! w) as [r|]; [|done].
    cbn [fmap option_fmap option_map]. f_equal.
    destruct (decide (w = w0 ∧ w_lazy r = true)) as [[-> Hl]|Hn].
    + rewrite (decide_True (P := w0 ∈ w0 :: ws ∧ _)) by (split; [by left|done]).
      case_decide; [apply set_dirty_twice|done].
    + destruct (decide (w ∈ ws ∧ w_lazy r = true)) as [[Hin Hl]|Hn2].
      * by rewrite decide_True by (split; [by right|done]).
      * rewrite decide_False; [done|]. intros [Hin Hl].
        apply elem_of_cons in Hin as [->|Hin]; tauto.
Qed.

Lemma snapshot_order_perm st d : snapshot_order st d ≡ₚ subsOf st d.
Proof.
  unfold snapshot_order, sort_by_id.
  destruct (_ && _); [apply merge_sort_Permutation|done].
Qed.

Lemma notify_each d st :
  notify d st
  = update_each update (snapshot_order st d) (emit (EvNotify d) st).
Proof.
  unfold notify, notify_with. rewrite notify_loop_drop by lia.
  by rewrite drop_0.
Qed.

Lemma notify_deferred_state d st :
  production || config_async st = true →
  (∀ w, w ∈ subsOf st d → ∃ r, watchers st !! w = Some r
                               ∧ (w_lazy r = true ∨ w_sync r = false)) →
  (notify d st).1 = Normal ()
  ∧ log (notify d st).2
    = log st ++ EvNotify d :: (EvQueueWatcher <$>
        filter (λ w, w_lazy <$> watchers st !! w = Some false)
               (snapshot_order st d))
  ∧ (∀ w, watchers (notify d st).2 !! w
          = (λ r, if decide (w ∈ subsOf st d ∧ w_lazy r = true)
                  then set_dirty true r else r) <$> watchers st !! w)
  ∧ subs (notify d st).2 = subs st.
Proof.
  intros Hmode Hdef. pose proof (snapshot_order_perm st d) as Hperm.
  rewrite notify_each.
  destruct (update_each_deferred (snapshot_order st d) (emit (EvNotify d) st))
    as (U1 & U2 & U3 & U4).
  { exact Hmode. }
  { intros w Hin. apply Hdef. by rewrite <-Hperm. }
  split; [done|]. split; [|split].
  - rewrite U2. simpl. by rewrite <-app_assoc.
  - intros w. rewrite U4. simpl.
    destruct (watchers st !! w) as [r|]; [|done].
    cbn [fmap option_fmap option_map]. f_equal.
    destruct (decide (w ∈ subsOf st d ∧ w_lazy r = true)) as [[Hin Hl]|Hn].
    + rewrite decide_True; [done|]. by rewrite Hperm.
    + rewrite decide_False; [done|]. by rewrite Hperm.
  - by rewrite U3.
Qed.

(** X9 — In a production build, or with [config.async] on, when no
    subscriber of a Dep is a sync watcher, [notify] runs no getter and no
    callback: it sets the dirty flag of the lazy subscribers and hands
    each of the others to [queueWatcher], once, in the order of the
    snapshot.  The other fields of the watchers, the watchers that are not
    subscribers and the subscriber lists are as they were. *)
Theorem notify_deferred d st :
  reachable st →
  production || config_async st = true →
  (∀ w, w ∈ subsOf st d → ∃ r, watchers st !! w = Some r
                               ∧ (w_lazy r = true ∨ w_sync r = false)) →
  (notify d st).1 = Normal ()
  ∧ log (notify d st).2
    = log st ++ EvNotify d :: (EvQueueWatcher <$>
        filter (λ w, w_lazy <$> watchers st !! w = Some false)
               (snapshot_order st d))
  ∧ NoDup (snapshot_order st d)
  ∧ (∀ w r, watchers st !! w = Some r →
       watchers (notify d st).2 !! w
       = Some (if decide (w ∈ subsOf st d ∧ w_lazy r = true)
               then {| w_vm := w_vm r; w_deep := w_deep r;
                       w_user := w_user r; w_lazy := w_lazy r;
                       w_sync := w_sync r; w_dirty := true;
                       w_active := w_active r; w_deps := w_deps r;
                       w_newDeps := w_newDeps r; w_depIds := w_depIds r;
                       w_newDepIds := w_newDepIds r;
                       w_value := w_value r |}
               else r))
  ∧ (∀ w, watchers st !! w = None → watchers (notify d st).2 !! w = None)
  ∧ subs (notify d st).2 = subs st.
Proof.
  intros Hr Hmode Hdef.
  destruct (notify_deferred_state d st Hmode Hdef) as (H1 & H2 & H3 & H4).
  split; [done|]. split; [done|]. split.
  { rewrite snapshot_order_perm.
    apply (ok_nodup st (reachable_graph_ok st Hr)). }
  split; [|split; [|done]].
  - intros w r Er. rewrite H3, Er. simpl. by case_decide.
  - intros w Er. by rewrite H3, Er.
Qed.

Lemma watcher_uid_depend_all ds st :
  watcher_uid (foldl (λ s d, depend d s) st ds) = watcher_uid st.
Proof.
  revert st. induction ds as [|d ds IH]; intros st; simpl; [done|].
  rewrite IH. unfold depend. destruct (target st) as [w|]; [|done].
  unfold addDep. destruct (watchers st !! w); [|done].
  by repeat case_decide.
Qed.

Lemma watcher_uid_get w st : watcher_uid (get w st).2 = watcher_uid st.
Proof.
  unfold get. destruct (watchers st !! w) as [r|] eqn:Er; [|done].
  destruct (call_getter w r (pushTarget (Some w) st)) as [[v0 p0] s1] eqn:Ec.
  assert (watcher_uid s1 = watcher_uid st) as H1.
  { unfold call_getter in Ec.
    pose proof (watcher_uid_depend_all
      (reads (getter w (pushTarget (Some w) st)))
      (emit (EvGetter w) (pushTarget (Some w) st))) as H0.
    destruct (result _); [by simplify_eq|].
    destruct (w_user r); by simplify_eq. }
  set (s2 := if w_deep r then _ else s1).
  assert (watcher_uid s2 = watcher_uid st) as H2.
  { unfold s2. destruct (w_deep r); [|done].
    by rewrite watcher_uid_depend_all. }
  assert (watcher_uid (cleanupDeps w (popTarget s2)) = watcher_uid st) as H3.
  { unfold cleanupDeps.
    destruct (watchers (popTarget s2) !! w) as [r2|]; [|done].
    simpl. rewrite <-H2.
    generalize (reverse (w_deps r2)). intros ds.
    change (watcher_uid s2) with (watcher_uid (popTarget s2)).
    generalize (popTarget s2). intros s.
    revert s. induction ds as [|d ds IH]; intros s; simpl; [done|].
    rewrite IH. by case_decide. }
  by destruct p0.
Qed.

(** X10 — [new Watcher] takes the next id, which no watcher has, and
    registers the watcher with its instance ([vm._watchers], and
    [vm._watcher] for a render watcher) before anything can fail.  A lazy
    watcher is created dirty, without a value, without a Dep, and its
    getter is not called.  Any other watcher calls its getter once (an
    error of the getter of a [user] watcher goes to [handleError]); if
    the constructor throws, which it does only for a watcher that is not
    a [user] watcher, the watcher, active and without a value, stays
    registered with the instance. *)
Theorem newWatcher_spec vm v deep user lazy sync rw st :
  graph_ok st → vms st !! vm = Some v →
  let w := S (watcher_uid st) in
  let out := newWatcher vm deep user lazy sync rw st in
  watchers st !! w = None
  ∧ watcher_uid out.2 = w
  ∧ vms out.2 !! vm
    = Some {| vm_watcher := if rw then Some w else vm_watcher v;
              vm_watchers := vm_watchers v ++ [w];
              vm_isBeingDestroyed := vm_isBeingDestroyed v |}
  ∧ ∃ r,
      watchers out.2 !! w = Some r
      ∧ w_active r = true ∧ w_dirty r = lazy ∧ w_vm r = vm
      ∧ if lazy then
          out.1 = Normal w ∧ w_value r = VUndef ∧ w_deps r = []
          ∧ log out.2 = log st ∧ subs out.2 = subs st
        else
          (log out.2 = log st ++ [EvGetter w]
           ∨ ∃ e, user = true
                  ∧ log out.2 = log st ++ [EvGetter w; EvHandleError e w])
          ∧ (∀ w', out.1 = Normal w' → w' = w)
          ∧ (∀ e, out.1 = Throw e → user = false ∧ w_value r = VUndef).
Proof.
  intros Hok Hvm w out.
  assert (Hfresh : watchers st !! w = None).
  { destruct (watchers st !! w) eqn:E; [|done].
    assert (w ≤ watcher_uid st) by (apply (ok_uid st Hok); by rewrite E).
    unfold w in *. lia. }
  split; [done|]. subst out. unfold newWatcher. fold w.
  set (r := Build_Watcher _ _ _ _ _ _ _ _ _ _ _ _).
  set (st2 := with_watchers _ _).
  assert (Hvm2 : vms st2 !! vm
    = Some {| vm_watcher := if rw then Some w else vm_watcher v;
              vm_watchers := vm_watchers v ++ [w];
              vm_isBeingDestroyed := vm_isBeingDestroyed v |}).
  { simpl. by rewrite lookup_alter_eq, Hvm. }
  assert (Er2 : watchers st2 !! w = Some r).
  { simpl. by rewrite lookup_insert_eq. }
  destruct lazy.
  { simpl. split; [done|]. split; [done|]. exists r. by split_and!. }
  assert (Hok2 : graph_ok st2).
  { destruct Hok as [H1 H2 H3 H4 H5]. split; simpl; try done.
    - intros w' r0. rewrite lookup_insert. case_decide as Hw; [|by apply H2].
      intros [= <-]. simpl. set_solver.
    - intros d w' Hin. destruct (H3 d w' Hin) as (r0 & Er0 & Hr0).
      exists r0. rewrite lookup_insert_ne; [done|]. intros <-. congruence.
    - intros w'. rewrite lookup_insert_is_Some.
      intros [<-|[_ Hs]]; [unfold w; lia|]. apply H4 in Hs. lia. }
  destruct (get_spec w r st2 Hok2 Er2)
    as ((nds & Er3 & _) & _ & _ & Hv3 & Hres).
  assert (watcher_uid (get w st2).2 = w) as Huid
    by (by rewrite watcher_uid_get).
  cbv zeta in Hres.
  destruct (get w st2) as [[value|e] st3]; simpl in *.
  - split; [done|]. split; [by rewrite Hv3|].
    eexists. split; [by rewrite lookup_alter_eq, Er3|].
    split_and!; try done.
    + destruct (result _) as [v'|e'].
      * destruct Hres as [_ ->]. by left.
      * destruct user; destruct Hres as [? ->]; [|done].
        right. by exists e'.
    + by intros w' [= <-].
  - split; [done|]. split; [by rewrite Hv3|].
    eexists. split; [exact Er3|]. split_and!; try done.
    + destruct (result _) as [v'|e']; [by destruct Hres|].
      destruct user; destruct Hres as [? ->]; [done|by left].
    + intros e0 _. split; [|done].
      destruct (result _) as [v'|e']; [by destruct Hres|].
      destruct user; destruct Hres as [? _]; done.
Qed.

(** ** Reading and writing a reactive field *)

Lemma reactiveGetter_no_target fuel c st v st' :
  target st = None → reactiveGetter fuel c st = Some (v, st') → st' = st.
Proof.
  revert c st v st'. induction fuel as [|f IH]; intros c st v st' Ht;
    simpl; [done|].
  destruct (cells st !! c) as [cell|]; [|done].
  destruct (c_getter cell) as [[s|c']|].
  - rewrite Ht. by intros [= _ <-].
  - destruct (reactiveGetter f c' st) as [[v1 st1]|] eqn:E1; [|done].
    apply IH in E1 as ->; [|done]. rewrite Ht. by intros [= _ <-].
  - rewrite Ht. by intros [= _ <-].
Qed.

Lemma reactiveGetter_read fuel c cell st :
  target st = None → cells st !! c = Some cell →
  (∀ c', c_getter cell ≠ Some (GReactive c')) →
  reactiveGetter (S fuel) c st = Some (storedValue st cell, st).
Proof.
  intros Ht Hc Hg. simpl. rewrite Hc. unfold storedValue.
  destruct (c_getter cell) as [[s|c']|]; [by rewrite Ht| |by rewrite Ht].
  by destruct (Hg c').
Qed.

(** X11 — Outside the evaluation of a watcher ([Dep.target] empty) the
    getter of a reactive field only reads: whatever it returns, it
    leaves the state as it is; and over a data property or a user getter
    it returns the value held. *)
Theorem reactiveGetter_untracked fuel c cell st :
  target st = None → cells st !! c = Some cell →
  (∀ v st', reactiveGetter fuel c st = Some (v, st') → st' = st)
  ∧ ((∀ c', c_getter cell ≠ Some (GReactive c')) →
     reactiveGetter (S fuel) c st = Some (storedValue st cell, st)).
Proof.
  intros Ht Hc. split.
  - intros v st'. by apply reactiveGetter_no_target.
  - intros Hg. by apply reactiveGetter_read.
Qed.

Lemma dependArray_depends (P : State → Prop) fuel a st st' :
  (∀ d s, P s → P (depend d s)) →
  dependArray fuel a st = Some st' → P st → P st'.
Proof.
  intros Hdep. revert a st st'.
  induction fuel as [|f IH]; intros a st st'; simpl; [done|].
  destruct (objs st !! a) as [o|]; [|by intros [= <-]].
  apply foldM_preserves. intros e s s'.
  destruct e as [| | | | |b]; try by intros [= <-].
  destruct (objs s !! b) as [oe|]; [|by intros [= <-]].
  assert (P s → P (match o_ob oe with
                   | Some k => depend_ob k s | None => s end)) as Hd.
  { destruct (o_ob oe) as [k|]; [|done]. unfold depend_ob.
    destruct (observers s !! k); [apply Hdep|done]. }
  destruct (isArray oe); [|intros [= <-]; done].
  intros Hda Hs. eapply IH; eauto.
Qed.

(** What the calls of [depend] made for the watcher [w] keep, starting
    from the state [st] in which its record is [r]: the Deps of [D] have
    been reached. *)
Lemma tracking_depend w r st (D : list nat) d s :
  (graph_ok s ∧ target s = Some w
   ∧ objs s = objs st ∧ cells s = cells st ∧ log s = log st
   ∧ observers s = observers st
   ∧ ∃ r', watchers s !! w = Some r' ∧ w_deps r' = w_deps r
       ∧ (∀ x, x ∈ w_newDeps r ∨ x ∈ D → x ∈ w_newDeps r')
       ∧ (∀ x, x ∈ w_newDeps r' → x ∉ w_newDeps r → x ∉ w_deps r →
            w ∈ subsOf s x)) →
  (graph_ok (depend d s) ∧ target (depend d s) = Some w
   ∧ objs (depend d s) = objs st ∧ cells (depend d s) = cells st
   ∧ log (depend d s) = log st
   ∧ observers (depend d s) = observers st
   ∧ ∃ r', watchers (depend d s) !! w = Some r' ∧ w_deps r' = w_deps r
       ∧ (∀ x, x ∈ w_newDeps r ∨ x ∈ d :: D → x ∈ w_newDeps r')
       ∧ (∀ x, x ∈ w_newDeps r' → x ∉ w_newDeps r → x ∉ w_deps r →
            w ∈ subsOf (depend d s) x)).
Proof.
  intros (Hok & Ht & Eo & Ec & El & Eob & r1 & Er1 & Hd1 & Hn1 & Hs1).
  pose proof (quiet_depend d s) as [Q1 Q2 _ Q4 _ _].
  assert (depend d s = addDep w d s) as Hdep
    by (unfold depend; by rewrite Ht).
  destruct (addDep_frame w d s) as (F1 & F2 & _ & _).
  destruct (addDep_spec w r1 d s Hok Er1) as (nds & Er2 & Hnds & Hreg & Hmono).
  rewrite Hdep in *.
  split; [by apply graph_ok_addDep|].
  split_and!; try congruence.
  eexists. split; [exact Er2|]. simpl. split; [done|]. split.
  - intros x Hx. apply Hnds. rewrite elem_of_cons in Hx.
    destruct Hx as [Hx|[->|Hx]]; [left; apply Hn1; by left|by right|].
    left. apply Hn1. by right.
  - intros x Hx Hnn Hnd. apply Hnds in Hx as [Hx| ->].
    + by apply Hmono, Hs1.
    + destruct (decide (d ∈ w_newDeps r1)) as [Hin|Hnin].
      * by apply Hmono, Hs1.
      * apply Hreg; [done|]. by rewrite Hd1.
Qed.

(** X12 — While a watcher is being evaluated, the getter of a reactive
    field (over a data property or a user getter) returns the value held
    and registers the Dep of the field with that watcher: the Dep is
    among its [newDeps], together with the Dep of the Observer of the
    value when there is one, and the watcher is a subscriber of a Dep it
    did not hold before.  Objects, closures and the log are as they
    were.  The getter returns when the field holds no observed value. *)
Theorem reactiveGetter_tracks fuel c cell w r st :
  graph_ok st → target st = Some w → watchers st !! w = Some r →
  cells st !! c = Some cell →
  (∀ c', c_getter cell ≠ Some (GReactive c')) →
  (∀ v st', reactiveGetter fuel c st = Some (v, st') →
     v = storedValue st cell
     ∧ objs st' = objs st ∧ cells st' = cells st ∧ log st' = log st
     ∧ ∃ r', watchers st' !! w = Some r' ∧ w_deps r' = w_deps r
         ∧ c_dep cell ∈ w_newDeps r'
         ∧ (c_dep cell ∉ w_newDeps r → c_dep cell ∉ w_deps r →
              w ∈ subsOf st' (c_dep cell))
         ∧ (∀ k ob, c_childOb cell = Some k → observers st !! k = Some ob →
              ob_dep ob ∈ w_newDeps r'))
  ∧ (c_childOb cell = None →
     ∃ st', reactiveGetter (S fuel) c st = Some (storedValue st cell, st')).
Proof.
  intros Hok Ht Er Hc Hg.
  assert (match c_getter cell with
          | None => Some (c_val cell, st)
          | Some (GUser s) => Some (slotOf st s, st)
          | Some (GReactive c') => reactiveGetter (pred fuel) c' st
          end = Some (storedValue st cell, st)) as Hread.
  { unfold storedValue. destruct (c_getter cell) as [[s|c']|]; try done.
    by destruct (Hg c'). }
  split.
  2: { intros Hno. simpl. rewrite Hc. simpl in Hread. rewrite Hno.
       unfold storedValue.
       destruct (c_getter cell) as [[s|c']|]; rewrite ?Ht; eauto.
       by destruct (Hg c'). }
  intros v st'. destruct fuel as [|f]; simpl; [done|].
  rewrite Hc. simpl in Hread. rewrite Hread, Ht.
  set (Q := λ (D : list nat) (s : State),
    graph_ok s ∧ target s = Some w
    ∧ objs s = objs st ∧ cells s = cells st ∧ log s = log st
    ∧ observers s = observers st
    ∧ ∃ r', watchers s !! w = Some r' ∧ w_deps r' = w_deps r
        ∧ (∀ x, x ∈ w_newDeps r ∨ x ∈ D → x ∈ w_newDeps r')
        ∧ (∀ x, x ∈ w_newDeps r' → x ∉ w_newDeps r → x ∉ w_deps r →
             w ∈ subsOf s x)).
  assert (Q [] st) as Q0.
  { unfold Q. split_and!; try done. exists r.
    split; [done|]. split; [done|]. split; [|by intros x Hx Hnx].
    intros x [Hx|Hx]; [done|]. by apply not_elem_of_nil in Hx. }
  assert (∀ D d s, Q D s → Q (d :: D) (depend d s)) as Qstep.
  { intros D d s. apply tracking_depend. }
  assert (∀ D d s, Q D s → Q D (depend d s)) as Qkeep.
  { intros D d s HQ. destruct (Qstep D d s HQ)
      as (? & ? & ? & ? & ? & ? & r' & ? & ? & Hn & ?).
    unfold Q. split_and!; try done. exists r'. split_and!; try done.
    intros x [Hx|Hx]; apply Hn; [by left|right; by right]. }
  pose proof (Qstep [] (c_dep cell) st Q0) as Q1.
  assert (∀ D s, Q (c_dep cell :: D) s →
    (∀ k ob, c_childOb cell = Some k → observers st !! k = Some ob →
       ob_dep ob ∈ D) →
    storedValue st cell = storedValue st cell
    ∧ objs s = objs st ∧ cells s = cells st ∧ log s = log st
    ∧ ∃ r', watchers s !! w = Some r' ∧ w_deps r' = w_deps r
        ∧ c_dep cell ∈ w_newDeps r'
        ∧ (c_dep cell ∉ w_newDeps r → c_dep cell ∉ w_deps r →
             w ∈ subsOf s (c_dep cell))
        ∧ (∀ k ob, c_childOb cell = Some k → observers st !! k = Some ob →
             ob_dep ob ∈ w_newDeps r')) as Hfin.
  { intros D s (_ & _ & ? & ? & ? & _ & r' & Er' & ? & Hn & Hs) HD.
    split_and!; try done. exists r'. split_and!; try done.
    - apply Hn. right. by left.
    - intros Hnn Hnd. apply Hs; [|done|done]. apply Hn. right. by left.
    - intros k ob Hk Hob. apply Hn. right. right. by eapply HD. }
  destruct (c_childOb cell) as [k|] eqn:Ek.
  2: { intros [= <- <-]. apply (Hfin []); [done|]. by intros ? ? [=]. }
  set (st2 := depend (c_dep cell) st) in *.
  assert (observers st2 = observers st) as Eob2 by (by destruct Q1 as (_&_&_&_&_&?&_)).
  assert (∃ D, Q (c_dep cell :: D) (depend_ob k st2)
               ∧ ∀ k' ob, Some k = Some k' → observers st !! k' = Some ob →
                   ob_dep ob ∈ D) as (D & Q3 & HD).
  { unfold depend_ob. rewrite Eob2.
    destruct (observers st !! k) as [ob|] eqn:Eob.
    - exists [ob_dep ob]. split.
      + pose proof (Qstep _ (ob_dep ob) st2 Q1)
          as (? & ? & ? & ? & ? & ? & r' & ? & ? & Hn & ?).
        unfold Q. split_and!; try done. exists r'. split_and!; try done.
        intros x [Hx|Hx]; apply Hn; [by left|right].
        rewrite !elem_of_cons in *. set_solver.
      + intros k' ob' [= <-]. rewrite Eob. intros [= <-]. by left.
    - exists []. split; [done|]. intros k' ob' [= <-]. by rewrite Eob. }
  set (st3 := depend_ob k st2) in *.
  match goal with
  | |- _ → ?G =>
      assert (∀ s, Q (c_dep cell :: D) s →
                Some (storedValue st cell, s) = Some (v, st') → G) as Hret
  end.
  { intros s HQ [= <- <-]. exact (Hfin D s HQ HD). }
  destruct (storedValue st cell) as [| | | | |b] eqn:Ev; try by apply Hret.
  destruct (objs st3 !! b) as [o|]; [|by apply Hret].
  destruct (isArray o); [|by apply Hret].
  destruct (dependArray f b st3) as [st4|] eqn:E4; [|done].
  apply Hret.
  eapply (dependArray_depends (Q (c_dep cell :: D))); [|exact E4|exact Q3].
  intros d s. apply Qkeep.
Qed.

Lemma subs_frame_stable d L b :
  stable_obs (λ s, target s = None ∧ subsOf s d = L ∧ d < dep_uid s
                   ∧ config_async s = b).
Proof.
  split; try done.
  - intros st (Ht & Hs & Hd & Hb). split_and!; try done.
    + unfold subsOf in *. simpl. rewrite lookup_insert_ne; [done|lia].
    + simpl. lia.
  - intros d' st (Ht & Hs & Hd & Hb). unfold depend. by rewrite Ht.
Qed.

(** X13 — A write through the setter of a reactive field reaches the
    subscribers of the field.  In a production build, or with
    [config.async] on, outside the evaluation of a watcher, when the value
    differs from the one held and the field (whose Dep is one that was
    created) is not a getter without a setter, and no subscriber is a
    sync watcher, the setter returns normally after [notify] has set the
    dirty flag of the lazy subscribers and handed the others to
    [queueWatcher], in the order of the snapshot taken from the subscriber
    list as it was before the write. *)
Theorem reactiveSetter_reaches_subscribers fuel c cell newVal st :
  heap_ok st → unobserved st < fuel →
  cells st !! c = Some cell →
  user_prop (PAccessor (c_getter cell) (c_setter cell) true true) = true →
  target st = None → c_dep cell < dep_uid st →
  unchanged newVal (storedValue st cell) = false →
  c_getter cell = None ∨ is_Some (c_setter cell) →
  production || config_async st = true →
  (∀ w, w ∈ subsOf st (c_dep cell) →
     ∃ r, watchers st !! w = Some r
          ∧ (w_lazy r = true ∨ w_sync r = false)) →
  ∃ st',
    reactiveSetter (S fuel) c newVal st = Some (Normal (), st')
    ∧ log st'
      = log st
        ++ (if negb production && c_customSetter cell
            then [EvCustomSetter c] else [])
        ++ EvNotify (c_dep cell)
           :: (EvQueueWatcher <$>
                 filter (λ w, w_lazy <$> watchers st !! w = Some false)
                        (snapshot_order st (c_dep cell)))
    ∧ (∀ w r, watchers st !! w = Some r →
         watchers st' !! w
         = Some (if decide (w ∈ subsOf st (c_dep cell) ∧ w_lazy r = true)
                 then {| w_vm := w_vm r; w_deep := w_deep r;
                         w_user := w_user r; w_lazy := w_lazy r;
                         w_sync := w_sync r; w_dirty := true;
                         w_active := w_active r; w_deps := w_deps r;
                         w_newDeps := w_newDeps r; w_depIds := w_depIds r;
                         w_newDepIds := w_newDepIds r;
                         w_value := w_value r |}
                 else r))
    ∧ ∀ w, watchers st !! w = None → watchers st' !! w = None.
Proof.
  intros Hok Hn Hc Hu Ht Hd Hch Hgs Hmode Hsubs.
  rewrite (reactiveSetter_unfold fuel c cell newVal st Hc Hu), Hch.
  set (st2 := if negb production && c_customSetter cell
              then emit (EvCustomSetter c) st else st).
  cbv zeta.
  assert (bool_decide (is_Some (c_getter cell))
          && bool_decide (c_setter cell = None) = false) as ->.
  { destruct Hgs as [->|[x ->]]; [done|]. apply andb_false_r. }
  set (st3 := match c_setter cell with
              | Some (SUser s) => with_slots (<[s := newVal]>) st2
              | _ => with_cells (alter (set_val newVal) c) st2
              end).
  set (P := λ s : State, target s = None
              ∧ subsOf s (c_dep cell) = subsOf st (c_dep cell)
              ∧ c_dep cell < dep_uid s
              ∧ config_async s = config_async st).
  assert (objs st3 = objs st ∧ watchers st3 = watchers st
          ∧ log st3 = log st ++ (if negb production && c_customSetter cell
                                  then [EvCustomSetter c] else [])
          ∧ P st3) as (Eo3 & Ew3 & El3 & P3).
  { unfold st3, st2, P.
    destruct (c_setter cell) as [[?|?]|];
      destruct (negb production && c_customSetter cell); simpl;
      rewrite ?app_nil_r; by split_and!. }
  assert (heap_ok st3) as Hok3 by (by apply (heap_ok_ext st)).
  assert (unobserved st3 < fuel) as Hn3.
  { unfold unobserved. rewrite Eo3. exact Hn. }
  assert (∃ ob st4,
    (if c_shallow cell then Some (Normal None, st3)
     else observe fuel newVal false st3) = Some (Normal ob, st4)
    ∧ watchers st4 = watchers st3 ∧ log st4 = log st3 ∧ P st4)
    as (ob & st4 & -> & Ew4 & El4 & P4).
  { destruct (c_shallow cell); [by exists None, st3|].
    destruct (observe_total fuel newVal false st3 Hok3 Hn3)
      as (ob & st4 & E4 & _ & Hg4 & _).
    exists ob, st4. split; [done|].
    split; [apply (gr_watchers _ _ _ Hg4)|].
    split; [apply (gr_log _ _ _ Hg4)|].
    eapply (observe_stable P); [|exact E4|exact P3].
    apply subs_frame_stable. }
  set (st5 := with_cells (alter (set_childOb ob) c) st4).
  destruct P4 as (_ & Es4 & _ & Ea4).
  assert (snapshot_order st5 (c_dep cell) = snapshot_order st (c_dep cell))
    as Hsnap.
  { unfold snapshot_order. change (subsOf st5 (c_dep cell))
      with (subsOf st4 (c_dep cell)).
    change (config_async st5) with (config_async st4).
    by rewrite Es4, Ea4. }
  destruct (notify_deferred_state (c_dep cell) st5) as (N1 & N2 & N3 & _).
  { change (config_async st5) with (config_async st4). by rewrite Ea4. }
  { intros w Hin. change (subsOf st5 (c_dep cell))
      with (subsOf st4 (c_dep cell)) in Hin. rewrite Es4 in Hin.
    change (watchers st5) with (watchers st4). rewrite Ew4, Ew3.
    by apply Hsubs. }
  exists (notify (c_dep cell) st5).2. split.
  { destruct (notify (c_dep cell) st5) as [res s']. simpl in N1.
    by rewrite N1. }
  split.
  - rewrite N2, Hsnap. change (log st5) with (log st4).
    change (watchers st5) with (watchers st4).
    rewrite El4, El3, Ew4, Ew3. by rewrite <-app_assoc.
  - assert (∀ w, watchers (notify (c_dep cell) st5).2 !! w
      = (λ r, if decide (w ∈ subsOf st (c_dep cell) ∧ w_lazy r = true)
              then set_dirty true r else r) <$> watchers st !! w) as Hw.
    { intros w. rewrite N3. change (subsOf st5 (c_dep cell))
        with (subsOf st4 (c_dep cell)).
      change (watchers st5) with (watchers st4).
      by rewrite Es4, Ew4, Ew3. }
    split.
    + intros w r Er. rewrite Hw, Er. simpl. by case_decide.
    + intros w Er. by rewrite Hw, Er.
Qed.

(** ** Observation without [asRootData] *)

Lemma reactiveGetter_depends (P : State → Prop) fuel c st v st' :
  (∀ d s, P s → P (depend d s)) →
  reactiveGetter fuel c st = Some (v, st') → P st → P st'.
Proof.
  intros Hdep. revert c st v st'.
  induction fuel as [|f IH]; intros c st v st'; simpl; [done|].
  destruct (cells st !! c) as [cell|]; [|done].
  intros Hr Hst.
  assert (∃ value st1,
    match c_getter cell with
    | None => Some (c_val cell, st)
    | Some (GUser s) => Some (slotOf st s, st)
    | Some (GReactive c') => reactiveGetter f c' st
    end = Some (value, st1) ∧ P st1) as (value & st1 & E1 & H1).
  { destruct (c_getter cell) as [[s|c']|].
    - eauto.
    - destruct (reactiveGetter f c' st) as [[v1 s1]|] eqn:E; [|done].
      eauto.
    - eauto. }
  rewrite E1 in Hr.
  destruct (target st1); [|by simplify_eq].
  pose proof (Hdep (c_dep cell) st1 H1) as H2.
  destruct (c_childOb cell) as [k|]; [|by simplify_eq].
  assert (P (depend_ob k (depend (c_dep cell) st1))) as H3.
  { unfold depend_ob. destruct (observers _ !! k); [by apply Hdep|done]. }
  destruct value as [| | | | |b]; try by simplify_eq.
  destruct (objs _ !! b) as [o|]; [|by simplify_eq].
  destruct (isArray o); [|by simplify_eq].
  destruct (dependArray f b _) as [st4|] eqn:E4; [|done].
  simplify_eq. eapply dependArray_depends; eauto.
Qed.

Lemma readProp_depends (P : State → Prop) fuel a key st v st' :
  (∀ d s, P s → P (depend d s)) →
  readProp fuel a key st = Some (v, st') → P st → P st'.
Proof.
  intros Hdep. unfold readProp.
  destruct (objs st !! a) as [o|]; [|by intros [= _ <-]].
  destruct (lookupProp key (o_props o)) as [[?|[g|] ?]|];
    try by intros [= _ <-].
  destruct g; simpl; [by intros [= _ <-]|].
  by apply reactiveGetter_depends.
Qed.

Section StableNew.
Variable P : State → Prop.
Hypothesis HP : stable_new P.

Section NewBodies.
Variable fuel : nat.
Variable obs : JsVal → bool → State → option (Completion (option nat) * State).
Hypothesis Hobs : ∀ v st r st', obs v false st = Some (r, st') → P st → P st'.

Lemma defineReactive_body_new a key val cs sh st r st' :
  defineReactive_body fuel obs a key val cs sh st = Some (r, st') →
  P st → P st'.
Proof.
  unfold defineReactive_body. intros Hd Hst.
  pose proof (sn_newDep P HP st Hst) as H1.
  destruct (newDep st) as [d st1]. simpl in H1.
  destruct (objs st1 !! a) as [o|]; [|by simplify_eq].
  case_bool_decide; [by simplify_eq|].
  destruct (accessorsOf (lookupProp key (o_props o))) as [getter0 setter0].
  destruct (initialVal fuel a key getter0 setter0 val st1)
    as [[val1 st2]|] eqn:E2; [|done].
  assert (P st2) as H2.
  { unfold initialVal in E2.
    destruct (_ && _); [|by simplify_eq].
    eapply readProp_depends; [apply (sn_depend P HP)|done|done]. }
  destruct (if sh then _ else _) as [[[childOb|e] st3]|] eqn:E3; [| |done].
  - assert (P st3) as H3.
    { destruct sh; [by simplify_eq|by eapply Hobs]. }
    destruct (objs (with_cells _ st3) !! a) as [o4|] eqn:E4.
    + destruct (bool_decide (is_Some (lookupProp key (o_props o4)))
                || o_extensible o4); simplify_eq.
      * apply (sn_props P HP); [done|]. by apply (sn_cell P HP).
      * by apply (sn_cell P HP).
    + simplify_eq. by apply (sn_cell P HP).
  - simplify_eq. destruct sh; [done|by eapply Hobs].
Qed.

Lemma walk_new a keys st r st' :
  walk fuel obs a keys st = Some (r, st') → P st → P st'.
Proof.
  revert st. induction keys as [|key keys IH]; intros st; simpl.
  { by intros [= _ <-]. }
  destruct (defineReactive_body _ _ _ _ _ _ _ _) as [[[[]|e] st1]|] eqn:E;
    [| |done].
  - intros Hw Hst. eapply IH; [done|]. by eapply defineReactive_body_new.
  - intros [= _ <-] Hst. by eapply defineReactive_body_new.
Qed.

Lemma observeArray_new a i n st r st' :
  observeArray obs a i n st = Some (r, st') → P st → P st'.
Proof.
  revert i st. induction n as [|n IH]; intros i st; simpl.
  { by intros [= _ <-]. }
  destruct (obs _ false st) as [[[k|e] st1]|] eqn:E; [| |done].
  - intros Hw Hst. eapply IH; [done|]. by eapply Hobs.
  - intros [= _ <-] Hst. by eapply Hobs.
Qed.

(** The part of [new Observer] that follows [def(value, '__ob__', this)]. *)
Lemma newObserver_rest_new a o st3 r st' :
  (if isArray o then
     observeArray obs a 0 (length (o_elems o))
       (with_objs (alter (set_augmented true) a) st3)
   else walk fuel obs a (keysOf o) st3) = Some (r, st') →
  P st3 → P st'.
Proof.
  destruct (isArray o).
  - intros E4 H3. eapply observeArray_new; [done|].
    by apply (sn_augment P HP).
  - intros E4 H3. by eapply walk_new.
Qed.

Lemma newObserver_new a o st r st' :
  objs st !! a = Some o → o_ob o = None →
  newObserver fuel obs a o st = Some (r, st') → P st → P st'.
Proof.
  intros Ha Hob. unfold newObserver. intros Hn Hst.
  pose proof (sn_newDep P HP st Hst) as H1.
  destruct (newDep st) as [d st1] eqn:End.
  assert (objs st1 = objs st) as Eo by (by injection End as _ <-).
  simpl in H1.
  set (st2 := with_observers _ st1) in *.
  assert (P (with_objs (alter (set_ob (Some (length (observers st1)))) a) st2))
    as H3.
  { eapply (sn_set_ob P HP); [|done|by apply (sn_observer P HP)].
    simpl. by rewrite Eo. }
  destruct (if isArray o then _ else _) as [[[[]|e] st4]|] eqn:E4; [| |done];
    simplify_eq; by eapply newObserver_rest_new.
Qed.

End NewBodies.

Lemma observe_new fuel v st r st' :
  observe fuel v false st = Some (r, st') → P st → P st'.
Proof.
  revert v st r st'.
  induction fuel as [|f IH]; intros v st r st'; simpl; [done|].
  destruct v as [| | | | |a]; try by intros [= _ <-].
  destruct (objs st !! a) as [o|] eqn:Ea; [|by intros [= _ <-]].
  destruct (o_isVNode o); [by intros [= _ <-]|].
  intros Ho Hst.
  destruct (o_ob o) as [k|] eqn:Eob; [by simplify_eq|].
  destruct (_ && _); [|by simplify_eq].
  destruct (newObserver _ _ _ _ _) as [[[k|e] st1]|] eqn:En; [| |done];
    simplify_eq; eapply newObserver_new; eauto.
Qed.

Lemma defineReactive_new fuel a key val cs sh st r st' :
  defineReactive fuel a key val cs sh st = Some (r, st') → P st → P st'.
Proof. apply defineReactive_body_new. intros ? ? ? ?. apply observe_new. Qed.

End StableNew.

(** [asRootData] only adds [ob.vmCount++] to what [observe] does. *)
Lemma observe_root fuel v st :
  observe fuel v true st
  = match observe fuel v false st with
    | Some (Normal (Some k), st1) =>
        Some (Normal (Some k), with_observers (alter inc_vmCount k) st1)
    | other => other
    end.
Proof.
  destruct fuel as [|f]; simpl; [done|].
  destruct v as [| | | | |a]; try done.
  destruct (objs st !! a) as [o|]; [|done].
  destruct (o_isVNode o); [done|].
  destruct (o_ob o) as [k|]; [done|].
  destruct (_ && _); [|done].
  by destruct (newObserver _ _ _ _ _) as [[[k|e] st1]|].
Qed.

(** Observers that exist are left alone, those that are added count no
    instance, and the ids of Deps are not given again. *)
Lemma observers_kept_stable (L : list Observer) (n : nat) :
  stable_new (λ s, (∃ l, observers s = L ++ l
                         ∧ Forall (λ r, ob_vmCount r = 0) l)
                   ∧ n ≤ dep_uid s).
Proof.
  split; try done.
  - intros st [Hl Hn]. split; [done|]. simpl. lia.
  - intros d st [Hl Hn].
    pose proof (quiet_depend d st) as [_ _ _ Q4 _ _]. rewrite Q4.
    split; [done|]. unfold depend. destruct (target st) as [w|]; [|done].
    unfold addDep. destruct (watchers st !! w); [|done].
    by repeat case_decide.
  - intros a d st [(l & Hl & Hz) Hn]. split; [|done].
    eexists (l ++ [_]). simpl. split; [by rewrite Hl, app_assoc|].
    apply Forall_app. split; [done|]. by apply Forall_singleton.
Qed.

Lemma observe_fresh_child fuel a o st :
  heap_ok st → unobserved st < fuel →
  objs st !! a = Some o → o_isVNode o = false → o_ob o = None →
  observable st o = true →
  ∃ st' l o',
    observe fuel (VRef a) false st
      = Some (Normal (Some (length (observers st))), st')
    ∧ observers st'
      = observers st
        ++ {| ob_value := a; ob_dep := dep_uid st; ob_vmCount := 0 |} :: l
    ∧ Forall (λ r, ob_vmCount r = 0) l
    ∧ objs st' !! a = Some o' ∧ o_ob o' = Some (length (observers st))
    ∧ dep_uid st < dep_uid st'.
Proof.
  intros Hok Hn Ha Hvn Hob Hobs.
  destruct (observe_total fuel (VRef a) false st Hok Hn)
    as (ob & st' & E & _ & _ & Hre1 & _).
  destruct fuel as [|f]; [done|].
  pose proof E as E0. simpl in E0. rewrite Ha, Hvn, Hob in E0.
  change (shouldObserve st && negb isServerRendering
          && (isArray o || isPlainObject o) && o_extensible o
          && negb (o_isVue o)) with (observable st o) in E0.
  rewrite Hobs in E0.
  destruct (newObserver f (observe f) a o st) as [[[k|e] st1]|] eqn:En;
    [|done|done].
  injection E0 as <- <-.
  destruct (Hre1 k eq_refl) as (o' & Ha' & Hk').
  unfold newObserver in En. simpl in En.
  set (x := {| ob_value := a; ob_dep := dep_uid st; ob_vmCount := 0 |})
    in *.
  set (st3 := with_objs (alter (set_ob _) a) _) in En.
  destruct (if isArray o then _ else _) as [[[[]|e] st4]|] eqn:E4;
    [|done|done].
  injection En as <- <-.
  assert ((∃ l, observers st4 = (observers st ++ [x]) ++ l
                ∧ Forall (λ r, ob_vmCount r = 0) l)
          ∧ S (dep_uid st) ≤ dep_uid st4) as [(l & Hl & Hz) Hd].
  { pose proof (observers_kept_stable (observers st ++ [x])
                  (S (dep_uid st))) as HP.
    eapply (newObserver_rest_new _ HP); [|exact E4|].
    - intros v s r s'. apply (observe_new _ HP).
    - split; [|done]. exists []. by rewrite app_nil_r. }
  exists st4, l, o'. split; [exact E|].
  split; [by rewrite Hl, <-app_assoc|]. split; [done|]. split; [done|].
  split; [done|lia].
Qed.

(** X14 — [observe] on an observable object that has no Observer creates
    exactly one Observer for it: the next one in order of creation, over
    a Dep of its own, counted as root data once when [asRootData] is
    passed and not at all otherwise.  The Observers that existed are
    untouched, and those created for the values below it count no
    instance. *)
Theorem observe_fresh fuel a o root st :
  heap_ok st → unobserved st < fuel →
  objs st !! a = Some o → o_isVNode o = false → o_ob o = None →
  observable st o = true →
  ∃ st' l o',
    observe fuel (VRef a) root st
      = Some (Normal (Some (length (observers st))), st')
    ∧ observers st'
      = observers st
        ++ {| ob_value := a; ob_dep := dep_uid st;
              ob_vmCount := if root then 1 else 0 |} :: l
    ∧ Forall (λ r, ob_vmCount r = 0) l
    ∧ objs st' !! a = Some o' ∧ o_ob o' = Some (length (observers st))
    ∧ dep_uid st < dep_uid st'.
Proof.
  intros Hok Hn Ha Hvn Hob Hobs.
  destruct (observe_fresh_child fuel a o st Hok Hn Ha Hvn Hob Hobs)
    as (st' & l & o' & E & Hl & Hz & Ha' & Hk' & Hd).
  destruct root; [|by exists st', l, o'].
  rewrite observe_root, E.
  eexists _, l, o'. split; [done|]. simpl. split; [|done].
  rewrite Hl.
  assert (length (observers st) = length (observers st) + 0) as -> by lia.
  by rewrite alter_app_r.
Qed.

(** ** What [walk] makes of the properties *)

Lemma lookupProp_None key ps : lookupProp key ps = None ↔ key ∉ ps.*1.
Proof.
  induction ps as [|[k q] ps IH]; simpl.
  - split; [intros _; apply not_elem_of_nil|done].
  - case_decide as Hk.
    + subst. split; [done|]. intros Hn. exfalso. apply Hn. by left.
    + rewrite IH. rewrite not_elem_of_cons. naive_solver.
Qed.

Lemma elem_of_keysOf key p o :
  NoDup (o_props o).*1 → lookupProp key (o_props o) = Some p →
  key ∈ keysOf o ↔ prop_enumerable p = true.
Proof.
  unfold keysOf. generalize (o_props o). intros ps.
  induction ps as [|[k q] ps IH]; simpl; [done|].
  intros [Hk Hnd]%NoDup_cons. rewrite filter_cons. simpl.
  destruct (decide (k = key)) as [->|Hne].
  - intros [= ->]. case_decide as He; simpl.
    + split; [done|]. intros _. by left.
    + split; [|done]. intros Hin. exfalso. apply Hk.
      apply list_elem_of_fmap in Hin as ([k' q'] & -> & Hin).
      apply list_elem_of_filter in Hin as [_ Hin].
      apply list_elem_of_fmap. by exists (k', q').
  - intros Hp. rewrite <-(IH Hnd Hp).
    case_decide; simpl; [|done]. rewrite elem_of_cons. naive_solver.
Qed.

Lemma readProp_valueOf fuel a o key p st :
  objs st !! a = Some o → lookupProp key (o_props o) = Some p →
  user_prop p = true →
  readProp fuel a key st = Some (valueOf st p, st).
Proof.
  intros Ha Hp Hu. unfold readProp. rewrite Ha, Hp.
  by destruct p as [v ? ? ?|[[s|c]|] st0 ? ?].
Qed.

(** What the elementary changes of [observe] keep of an object. *)
Lemma reifiable_stable b : stable_obs (λ s, reifiable s b).
Proof.
  unfold reifiable. split.
  - done.
  - intros d st (oe & Hb & Hvn & Hcan). exists oe.
    pose proof (quiet_depend d st) as [Q1 _ _ _ Q5 _].
    rewrite Q1. split; [done|]. split; [done|].
    unfold observable in *. by rewrite Q5.
  - intros a k st o Ha Hnone (oe & Hb & Hvn & Hcan). simpl.
    destruct (decide (a = b)) as [->|Hne].
    + exists (set_ob (Some k) oe). rewrite lookup_alter_eq, Hb.
      split; [done|]. split; [done|]. left. by eexists.
    + exists oe. by rewrite lookup_alter_ne.
  - intros a st (oe & Hb & Hvn & Hcan). simpl.
    destruct (decide (a = b)) as [->|Hne].
    + exists (set_augmented true oe). by rewrite lookup_alter_eq, Hb.
    + exists oe. by rewrite lookup_alter_ne.
  - intros a o ps st Ha (oe & Hb & Hvn & Hcan). simpl.
    destruct (decide (a = b)) as [->|Hne].
    + exists (set_props ps o). rewrite lookup_insert_eq.
      rewrite Ha in Hb. injection Hb as ->. done.
    + exists oe. by rewrite lookup_insert_ne.
  - done.
  - done.
Qed.

Section Shape.
Variable fuel n : nat.
Variable obs : JsVal → bool → State → option (Completion (option nat) * State).
Hypothesis Hobs : ∀ v st, heap_ok st → unobserved st < n →
  ∃ ob st',
    obs v false st = Some (Normal ob, st')
    ∧ heap_ok st' ∧ grown_but (λ _, False) st st' ∧ reified v st ob st'.
Hypothesis HobsP : ∀ P : State → Prop, stable_obs P →
  ∀ v root st r st', obs v root st = Some (r, st') → P st → P st'.

Lemma defineReactive_body_shape a o ps key p st :
  heap_ok st → unobserved st < n →
  objs st !! a = Some (set_props ps o) → is_Some (o_ob o) →
  lookupProp key ps = Some p → user_prop p = true →
  ∃ st' ps',
    defineReactive_body fuel obs a key None false false st
      = Some (Normal (), st')
    ∧ heap_ok st' ∧ unobserved st' < n
    ∧ grown_but (λ b, b = a) st st'
    ∧ objs st' !! a = Some (set_props ps' o)
    ∧ (∀ key', key' ≠ key → lookupProp key' ps' = lookupProp key' ps)
    ∧ ps'.*1 = ps.*1
    ∧ (∀ b e w, p = PData (VRef b) e true w →
         reifiable st b → holds_observer st' b)
    ∧ if prop_configurable p then
        ∃ c cell,
          lookupProp key ps' = Some (reactiveProperty c)
          ∧ cells st' !! c = Some cell ∧ c_obj cell = a
          ∧ (∀ c', c_getter cell ≠ Some (GReactive c'))
          ∧ storedValue st' cell = valueOf st p
      else lookupProp key ps' = Some p.
Proof.
  intros Hok Hn Ha Hob Hp Hu. unfold defineReactive_body.
  destruct (newDep st) as [d st1] eqn:End.
  assert (st1 = (newDep st).2) as Est1 by (by rewrite End).
  assert (objs st1 = objs st) as Eo by (by rewrite Est1).
  assert (slots st1 = slots st) as Esl by (by rewrite Est1).
  assert (grown_but (λ b, b = a) st st1) as Hg1
    by (rewrite Est1; apply grown_newDep).
  assert (heap_ok st1) as Hok1 by (by apply (heap_ok_ext st)).
  assert (unobserved st1 < n) as Hn1.
  { pose proof (gr_unobserved _ _ _ Hg1). lia. }
  rewrite Eo, Ha. cbn [o_props set_props]. rewrite Hp.
  case_bool_decide as Hconf.
  { exists st1, ps. simpl in Hconf. injection Hconf as Hconf.
    split_and!; try done; [by rewrite Eo| |by rewrite Hconf].
    intros b e w ->. done. }
  assert (prop_configurable p = true) as ->.
  { destruct (prop_configurable p) eqn:E; [done|].
    destruct Hconf. simpl. by rewrite E. }
  destruct (accessorsOf (Some p)) as [g s] eqn:Eacc.
  assert (initialVal fuel a key g s None st1
          = Some (if bool_decide (g = None) || bool_decide (is_Some s)
                  then valueOf st p else VUndef, st1)) as ->.
  { unfold initialVal.
    rewrite (readProp_valueOf fuel a (set_props ps o) key p st1)
      by (by rewrite ?Eo).
    rewrite andb_true_r.
    destruct (_ || _); [|done].
    do 2 f_equal. unfold valueOf, slotOf. by rewrite Esl. }
  set (val1 := if _ : bool then _ else _).
  destruct (Hobs val1 st1 Hok1 Hn1) as (ob & st3 & -> & Hok3 & Hg3 & Hre3).
  set (cell := Build_Cell _ _ _ _ _ _ _ _).
  assert (objs st3 !! a = Some (set_props ps o)) as Ha3.
  { apply (gr_observed _ _ _ Hg3); [tauto|by rewrite Eo|done]. }
  simpl. rewrite Ha3. simpl. rewrite Hp. simpl.
  eexists _, (defineProp key (reactiveProperty (length (cells st3))) ps).
  split; [done|].
  assert (grown_but (λ b, b = a) st3
            (with_objs
               (<[a := set_props
                   (defineProp key (reactiveProperty (length (cells st3))) ps)
                   (set_props ps o)]>)
               (with_cells (λ cs, cs ++ [cell]) st3))) as Hg5.
  { eapply grown_but_trans; [apply grown_with_cells|].
    by eapply grown_insert_same. }
  assert (grown_but (λ b, b = a) st
            (with_objs
               (<[a := set_props
                   (defineProp key (reactiveProperty (length (cells st3))) ps)
                   (set_props ps o)]>)
               (with_cells (λ cs, cs ++ [cell]) st3))) as Hg.
  { eapply grown_but_trans; [exact Hg1|].
    eapply grown_but_trans; [|exact Hg5].
    eapply grown_but_weaken; [|exact Hg3]. by intros ? []. }
  split_and!.
  - eapply heap_ok_insert; [exact Ha3| | |by apply (heap_ok_ext st3)].
    + simpl. rewrite defineProp_keys by (by rewrite Hp).
      apply (hp_keys _ Hok3 a _ Ha3).
    + simpl. intros Hnone. destruct Hob as [k Hk]. congruence.
  - pose proof (gr_unobserved _ _ _ Hg). lia.
  - exact Hg.
  - simpl. by rewrite lookup_insert_eq.
  - intros key' Hne. by apply lookupProp_defineProp_ne.
  - apply defineProp_keys. by rewrite Hp.
  - intros b e w -> (oe & Hb & Hvn & Hcan). simpl in Eacc.
    injection Eacc as <- <-. unfold val1 in Hre3. simpl in Hre3.
    destruct Hre3 as [Hre1 Hre2].
    destruct (Hre2 oe) as [k ->]; [by rewrite Eo|done| |].
    { destruct Hcan as [?|Hcan]; [by left|right].
      unfold observable in *. by rewrite Est1. }
    destruct (Hre1 k eq_refl) as (o' & Ho' & Hk').
    unfold holds_observer. simpl.
    destruct (decide (a = b)) as [->|Hne].
    + eexists. rewrite lookup_insert_eq. split; [done|]. simpl. done.
    + exists o'. rewrite lookup_insert_ne by done.
      split; [done|]. by rewrite Hk'.
  - exists (length (cells st3)), cell. split_and!.
    + apply lookupProp_defineProp_eq.
    + simpl. by rewrite lookup_app_r, Nat.sub_diag.
    + done.
    + intros c' Hc'. simpl in Hc'.
      destruct p as [v ? ? ?|[[s0|c0]|] s1 ? ?]; simpl in *;
        simplify_eq.
    + unfold storedValue, cell. cbn [c_getter c_val].
      pose proof (gr_slots _ _ _ Hg) as Hs.
      destruct p as [v ? ? ?|[[s0|c0]|] s1 ? ?]; simpl in *;
        simplify_eq; try done.
      unfold slotOf. simpl. by rewrite Hs.
Qed.

Lemma walk_shape a o keys st ps :
  heap_ok st → unobserved st < n →
  objs st !! a = Some (set_props ps o) → is_Some (o_ob o) →
  NoDup keys →
  (∀ key, key ∈ keys →
     ∃ p, lookupProp key ps = Some p ∧ user_prop p = true) →
  ∃ st' ps',
    walk fuel obs a keys st = Some (Normal (), st')
    ∧ heap_ok st' ∧ unobserved st' < n
    ∧ grown_but (λ b, b = a) st st'
    ∧ objs st' !! a = Some (set_props ps' o)
    ∧ (∀ key, key ∉ keys → lookupProp key ps' = lookupProp key ps)
    ∧ ps'.*1 = ps.*1
    ∧ (∀ key b e w, key ∈ keys →
         lookupProp key ps = Some (PData (VRef b) e true w) →
         reifiable st b → holds_observer st' b)
    ∧ ∀ key p, key ∈ keys → lookupProp key ps = Some p →
        if prop_configurable p then
          ∃ c cell,
            lookupProp key ps' = Some (reactiveProperty c)
            ∧ cells st' !! c = Some cell ∧ c_obj cell = a
            ∧ (∀ c', c_getter cell ≠ Some (GReactive c'))
            ∧ storedValue st' cell = valueOf st p
        else lookupProp key ps' = Some p.
Proof.
  revert st ps. induction keys as [|key keys IH];
    intros st ps Hok Hn Ha Hob Hnd Hkeys; simpl.
  { exists st, ps. split_and!; try done; [apply grown_but_refl| |].
    - intros key b e w Hin. by apply not_elem_of_nil in Hin.
    - intros key p Hin. by apply not_elem_of_nil in Hin. }
  apply NoDup_cons in Hnd as [Hkey Hnd].
  destruct (Hkeys key) as (p & Hp & Hu); [by left|].
  destruct (defineReactive_body_shape a o ps key p st Hok Hn Ha Hob Hp Hu)
    as (st1 & ps1 & E1 & Hok1 & Hn1 & Hg1 & Ha1 & Hps1 & Hk1 & Hd1 & Hw1).
  rewrite E1.
  destruct (IH st1 ps1 Hok1 Hn1 Ha1 Hob Hnd)
    as (st2 & ps2 & -> & Hok2 & Hn2 & Hg2 & Ha2 & Hps2 & Hk2 & Hd2 & Hw2).
  { intros key' Hin. rewrite Hps1 by (intros ->; done).
    apply Hkeys. by right. }
  exists st2, ps2. split_and!; try done.
  - by eapply grown_but_trans.
  - intros key' Hnin. rewrite Hps2 by set_solver.
    apply Hps1. set_solver.
  - congruence.
  - intros key' b e w Hin Hp' Hre.
    apply elem_of_cons in Hin as [->|Hin].
    + rewrite Hp in Hp'. injection Hp' as ->.
      destruct (Hd1 b e w eq_refl Hre) as (o1 & Hb1 & Hob1).
      destruct (decide (b = a)) as [->|Hne].
      * exists (set_props ps2 o). by split.
      * exists o1. split; [|done].
        by apply (gr_observed _ _ _ Hg2).
    + assert (key' ≠ key) as Hne by (intros ->; done).
      apply (Hd2 key' b e w Hin); [by rewrite Hps1|].
      eapply (defineReactive_body_stable _ (reifiable_stable b));
        [|exact E1|exact Hre].
      apply HobsP, reifiable_stable.
  - intros key' p' Hin Hp'.
    pose proof (gr_slots _ _ _ Hg1) as Hs1.
    pose proof (gr_slots _ _ _ Hg2) as Hs2.
    destruct (gr_cells _ _ _ Hg2) as [l2 Hl2].
    assert (valueOf st1 p' = valueOf st p') as Hv.
    { unfold valueOf, slotOf. by rewrite Hs1. }
    apply elem_of_cons in Hin as [->|Hin].
    + rewrite Hp in Hp'. injection Hp' as <-.
      rewrite Hps2 by done.
      destruct (prop_configurable p); [|done].
      destruct Hw1 as (c & cell & Hl & Hc & Hobj & Hget & Hst).
      exists c, cell. split_and!; try done.
      * rewrite Hl2. apply lookup_app_l_Some. done.
      * rewrite <-Hst. unfold storedValue, slotOf. by rewrite Hs2.
    + assert (key' ≠ key) as Hne by (intros ->; done).
      specialize (Hw2 key' p' Hin). rewrite Hps1 in Hw2 by done.
      specialize (Hw2 Hp'). rewrite Hv in Hw2. done.
Qed.

Lemma observeArray_deep a o i m st :
  heap_ok st → unobserved st < n →
  objs st !! a = Some o → is_Some (o_ob o) →
  ∃ st',
    observeArray obs a i m st = Some (Normal (), st')
    ∧ heap_ok st' ∧ unobserved st' < n
    ∧ grown_but (λ _, False) st st'
    ∧ objs st' !! a = Some o
    ∧ ∀ j b, i ≤ j → j < i + m → o_elems o !! j = Some (VRef b) →
        reifiable st b → holds_observer st' b.
Proof.
  revert i st. induction m as [|m IH]; intros i st Hok Hn Ha Hob; simpl.
  { exists st. split_and!; try done; [apply grown_but_refl|].
    intros j b ? ?. lia. }
  rewrite Ha. simpl.
  destruct (Hobs (default VUndef (o_elems o !! i)) st Hok Hn)
    as (ob & st1 & E1 & Hok1 & Hg1 & Hre1).
  rewrite E1.
  assert (objs st1 !! a = Some o) as Ha1.
  { apply (gr_observed _ _ _ Hg1); [tauto|done|done]. }
  assert (unobserved st1 < n) as Hn1.
  { pose proof (gr_unobserved _ _ _ Hg1). lia. }
  destruct (IH (S i) st1 Hok1 Hn1 Ha1 Hob)
    as (st2 & -> & Hok2 & Hn2 & Hg2 & Ha2 & Hd2).
  exists st2. split_and!; try done; [by eapply grown_but_trans|].
  intros j b Hge Hlt Hj Hre.
  destruct (decide (j = i)) as [->|Hne].
  - rewrite Hj in Hre1. simpl in Hre1. destruct Hre1 as [Hr1 Hr2].
    destruct Hre as (oe & Hb & Hvn & Hcan).
    destruct (Hr2 oe Hb Hvn Hcan) as [k ->].
    destruct (Hr1 k eq_refl) as (o' & Ho' & Hk').
    exists o'. split; [|by rewrite Hk'].
    apply (gr_observed _ _ _ Hg2); [tauto|done|by rewrite Hk'].
  - apply (Hd2 j b); [lia|lia|done|].
    eapply (HobsP _ (reifiable_stable b)); [exact E1|exact Hre].
Qed.

End Shape.

(** The test of [observe] in a state that differs in the closures, the
    observers and the Deps only. *)
Lemma observable_ext st st' o :
  shouldObserve st' = shouldObserve st → observable st' o = observable st o.
Proof. unfold observable. by intros ->. Qed.

(** [observe] on a plain object that has no Observer. *)
Lemma observe_plain fuel a o st :
  heap_ok st → unobserved st < fuel →
  objs st !! a = Some o → o_isVNode o = false → o_ob o = None →
  observable st o = true → isArray o = false →
  ∃ st' ps',
    observe fuel (VRef a) false st
      = Some (Normal (Some (length (observers st))), st')
    ∧ heap_ok st' ∧ grown_but (λ _, False) st st'
    ∧ objs st' !! a
      = Some (set_props ps' (set_ob (Some (length (observers st))) o))
    ∧ (∀ key, key ∉ keysOf o → lookupProp key ps' = lookupProp key (o_props o))
    ∧ ps'.*1 = (o_props o).*1
    ∧ (∀ key b w,
         lookupProp key (o_props o) = Some (PData (VRef b) true true w) →
         reifiable st b → holds_observer st' b)
    ∧ ∀ key p, key ∈ keysOf o → lookupProp key (o_props o) = Some p →
        if prop_configurable p then
          ∃ c cell,
            lookupProp key ps' = Some (reactiveProperty c)
            ∧ cells st' !! c = Some cell ∧ c_obj cell = a
            ∧ (∀ c', c_getter cell ≠ Some (GReactive c'))
            ∧ storedValue st' cell = valueOf st p
        else lookupProp key ps' = Some p.
Proof.
  intros Hok Hn Ha Hvn Hob Hobs Harr.
  destruct fuel as [|f]; [lia|].
  simpl. rewrite Ha, Hvn, Hob.
  change (shouldObserve st && negb isServerRendering
          && (isArray o || isPlainObject o) && o_extensible o
          && negb (o_isVue o)) with (observable st o).
  rewrite Hobs. unfold newObserver. simpl. rewrite Harr.
  set (k := length (observers st)).
  set (x := {| ob_value := a; ob_dep := dep_uid st; ob_vmCount := 0 |}).
  set (st2 := with_observers _ _).
  set (st3 := with_objs _ st2).
  assert (objs st3 = <[a := set_ob (Some k) o]> (objs st)) as Eo3.
  { unfold st3, st2. simpl. by apply alter_lookup_insert. }
  assert (st3 = with_objs (<[a := set_ob (Some k) o]>)
                  (with_objs (λ _, objs st) st2)) as Est3.
  { unfold st3. unfold with_objs. simpl. f_equal.
    by apply alter_lookup_insert. }
  assert (grown_but (λ _, False) st st3 ∧ unobserved st3 < f ∧ heap_ok st3)
    as (Hg3 & Hn3 & Hok3).
  { assert (grown_but (λ _, False) st (with_objs (λ _, objs st) st2)) as Hg2.
    { split; try done. by exists []; rewrite app_nil_r. }
    assert (grown_but (λ _, False) st st3) as Hg3.
    { rewrite Est3. eapply grown_but_trans; [exact Hg2|].
      eapply grown_insert_observed; [exact Ha|done|by eexists]. }
    split; [done|]. split.
    - rewrite Est3.
      pose proof (unobserved_insert_observed
        (with_objs (λ _, objs st) st2) a o (set_ob (Some k) o) Ha Hob
        ltac:(by eexists)) as Hu.
      assert (unobserved (with_objs (λ _, objs st) st2) = unobserved st)
        by done.
      lia.
    - rewrite Est3. eapply heap_ok_insert; [exact Ha| | |].
      + apply (hp_keys _ Hok a o Ha).
      + simpl. done.
      + by apply (heap_ok_ext st). }
  assert (objs st3 !! a = Some (set_ob (Some k) o)) as Ha3.
  { by rewrite Eo3, lookup_insert_eq. }
  destruct (walk_shape f f (observe f)
              (λ v s, observe_total f v false s)
              (λ P HP, observe_stable P HP f)
              a (set_ob (Some k) o) (keysOf o) st3 (o_props o) Hok3 Hn3)
    as (st5 & ps5 & -> & Hok5 & Hn5 & Hg5 & Ha5 & Hother & Hk5 & Hd5 & Hw5).
  - rewrite Ha3. by destruct o.
  - by eexists.
  - apply NoDup_keysOf, (hp_keys _ Hok a o Ha).
  - intros key Hin. destruct (lookupProp_keysOf key o Hin) as [p Hp].
    exists p. split; [done|]. by apply (hp_user _ Hok a o key p).
  - exists st5, ps5. split; [done|]. split; [done|]. split.
    { eapply (grown_but_close a); [|exact Hg3|exact Hg5].
      intros o0 Ho0. rewrite Ha in Ho0. by injection Ho0 as <-. }
    split; [done|]. split; [done|]. split; [done|]. split.
    { intros key b w Hp (oe & Hb & Hvnb & Hcan).
      apply (Hd5 key b true w); [|done|].
      - by apply (elem_of_keysOf key _ o (hp_keys _ Hok a o Ha) Hp).
      - destruct (decide (b = a)) as [->|Hne].
        + exists (set_ob (Some k) o). split; [done|].
          rewrite Ha in Hb. injection Hb as <-.
          split; [done|]. left. by eexists.
        + exists oe. rewrite Eo3, lookup_insert_ne by done.
          split; [done|]. split; [done|]. done. }
    intros key p Hin Hp. specialize (Hw5 key p Hin Hp).
    assert (valueOf st3 p = valueOf st p) as <- by done. done.
Qed.

(** ** Observation and the values of an object *)

(** X15 — Making a plain object reactive does not change what its
    properties read as.  [observe] on an observable plain object without
    an Observer returns, and a read of any key but [__ob__] outside the
    evaluation of a watcher gives afterwards the value it gave before, be
    the property wrapped by [defineReactive] or left alone (not
    enumerable, not configurable, inherited or absent), and changes
    nothing. *)
Theorem observe_keeps_reads fuel a o root key st :
  heap_ok st → unobserved st < fuel →
  objs st !! a = Some o → o_isVNode o = false → o_ob o = None →
  observable st o = true → isArray o = false → target st = None →
  ordinary_key o key = true →
  ∃ st' v,
    observe fuel (VRef a) root st
      = Some (Normal (Some (length (observers st))), st')
    ∧ (∀ f, readProp f a key st = Some (v, st))
    ∧ (∀ f, readProp (S f) a key st' = Some (v, st')).
Proof.
  intros Hok Hn Ha Hvn Hob Hobs Harr Ht _.
  destruct (observe_plain fuel a o st Hok Hn Ha Hvn Hob Hobs Harr)
    as (st1 & ps' & E & Hok1 & Hg & Ha1 & Hother & Hkeys & _ & Hw).
  set (k := length (observers st)) in *.
  set (st' := if root then with_observers (alter inc_vmCount k) st1
              else st1).
  assert (observe fuel (VRef a) root st = Some (Normal (Some k), st')) as E'.
  { unfold st'. destruct root; [|done]. by rewrite observe_root, E. }
  assert (objs st' = objs st1 ∧ cells st' = cells st1
          ∧ slots st' = slots st1 ∧ target st' = target st1)
    as (Eo & Ec & Es & Et).
  { unfold st'. by destruct root. }
  pose proof (gr_slots _ _ _ Hg) as Hs1.
  pose proof (gr_target _ _ _ Hg) as Ht1.
  assert (∀ p, valueOf st' p = valueOf st p) as Hval.
  { intros p. unfold valueOf, slotOf. by rewrite Es, Hs1. }
  assert (objs st' !! a = Some (set_props ps' (set_ob (Some k) o))) as Ha'
    by (by rewrite Eo).
  assert (∀ p, lookupProp key (o_props o) = Some p →
               lookupProp key ps' = Some p →
               ∀ f, readProp f a key st' = Some (valueOf st p, st')) as Hleft.
  { intros p Hp Hp' f. rewrite <-Hval.
    eapply readProp_valueOf; [exact Ha'|exact Hp'|].
    by apply (hp_user _ Hok a o key p). }
  exists st'.
  destruct (lookupProp key (o_props o)) as [p|] eqn:Hp.
  - exists (valueOf st p). split; [done|]. split.
    { intros f. eapply readProp_valueOf; [exact Ha|exact Hp|].
      by apply (hp_user _ Hok a o key p). }
    pose proof (elem_of_keysOf key p o (hp_keys _ Hok a o Ha) Hp) as Hen.
    destruct (prop_enumerable p) eqn:Een.
    + assert (key ∈ keysOf o) as Hin by (by apply Hen).
      specialize (Hw key p Hin Hp).
      destruct (prop_configurable p).
      * destruct Hw as (c & cell & Hl & Hc & _ & Hget & Hst).
        intros f. unfold readProp. rewrite Ha'. cbn [o_props set_props].
        rewrite Hl. unfold reactiveProperty, callGetter.
        rewrite (reactiveGetter_read f c cell st');
          [|congruence|congruence|done].
        do 2 f_equal. rewrite <-Hst. unfold storedValue, slotOf.
        by rewrite Es.
      * intros f. by apply Hleft.
    + assert (key ∉ keysOf o) as Hnin by (rewrite Hen; congruence).
      intros f. apply Hleft; [done|]. by rewrite Hother.
  - exists (default VUndef (lookupInherited key (o_inherited o))).
    split; [done|]. split.
    { intros f. unfold readProp. by rewrite Ha, Hp. }
    intros f. unfold readProp. rewrite Ha'. cbn [o_props set_props].
    rewrite Hother, Hp; [done|].
    intros Hin. apply lookupProp_keysOf in Hin as [p' Hp']. congruence.
Qed.

(** X16 — [Vue.observable] returns the value it is given, always
    normally.  An object that can be observed, or is already, holds an
    Observer afterwards.  The Observers that existed are untouched, the
    ones created count no instance (none of them is for root data), no
    watcher is touched and nothing is called. *)
Theorem Vue_observable_spec fuel obj st :
  heap_ok st → unobserved st < fuel →
  ∃ st',
    Vue_observable fuel obj st = Some (Normal obj, st')
    ∧ heap_ok st'
    ∧ (∀ a o, obj = VRef a → objs st !! a = Some o → o_isVNode o = false →
         is_Some (o_ob o) ∨ observable st o = true →
         ∃ o' k, objs st' !! a = Some o' ∧ o_ob o' = Some k)
    ∧ (∃ l, observers st' = observers st ++ l
            ∧ Forall (λ r, ob_vmCount r = 0) l)
    ∧ log st' = log st ∧ watchers st' = watchers st
    ∧ slots st' = slots st.
Proof.
  intros Hok Hn. unfold Vue_observable.
  destruct (observe_total fuel obj false st Hok Hn)
    as (ob & st' & E & Hok' & Hg & Hre).
  rewrite E. exists st'. split; [done|]. split; [done|].
  split; [|split; [|split; [|split]]].
  - intros a o -> Ha Hvn Hcan. destruct Hre as [Hre1 Hre2].
    destruct (Hre2 o Ha Hvn Hcan) as [k ->].
    destruct (Hre1 k eq_refl) as (o' & Ho' & Hk). by exists o', k.
  - pose proof (observers_kept_stable (observers st) 0) as HP.
    eapply (observe_new _ HP) in E as [Hl _]; [done|].
    split; [|lia]. exists []. by rewrite app_nil_r.
  - apply (gr_log _ _ _ Hg).
  - apply (gr_watchers _ _ _ Hg).
  - apply (gr_slots _ _ _ Hg).
Qed.

(** X17 — Root data takes no new reactive property.  After
    [observe(data, true)] on an observable plain object, [set] with a key
    the object does not have ([__ob__] apart) changes nothing: it returns
    the value after a warning (outside production). *)
Theorem root_data_refuses_new_keys fuel fuel' a o key val st :
  heap_ok st → unobserved st < fuel →
  objs st !! a = Some o → o_isVNode o = false → o_ob o = None →
  observable st o = true → isArray o = false →
  key_in o key = false → ordinary_key o key = true →
  ∃ st1,
    observe fuel (VRef a) true st
      = Some (Normal (Some (length (observers st))), st1)
    ∧ set fuel' (VRef a) key val st1 = Some (Normal val, warn st1).
Proof.
  intros Hok Hn Ha Hvn Hob Hobs Harr Hkey _.
  destruct (observe_plain fuel a o st Hok Hn Ha Hvn Hob Hobs Harr)
    as (st1 & ps' & E & _ & _ & Ha1 & _ & Hkeys & _ & _).
  destruct (observe_fresh_child fuel a o st Hok Hn Ha Hvn Hob Hobs)
    as (st1' & l & o' & E' & Hl & _).
  rewrite E in E'. injection E' as <-.
  rewrite observe_root, E. eexists. split; [done|].
  unfold set. simpl. rewrite Ha1. unfold isArray. simpl.
  unfold isArray in Harr. rewrite Harr.
  assert (key_in (set_props ps' (set_ob (Some (length (observers st))) o))
            key = false) as ->.
  { unfold key_in in *. simpl.
    apply orb_false_iff in Hkey as [Hown Hinh]. rewrite Hinh.
    rewrite orb_false_r. apply bool_decide_eq_false.
    apply bool_decide_eq_false in Hown.
    rewrite <-not_eq_None_Some in *. intros Hn'. apply Hown. intros Hs.
    apply Hn'. apply lookupProp_None. rewrite Hkeys.
    by apply lookupProp_None. }
  simpl. rewrite Hl.
  assert (alter inc_vmCount (length (observers st))
            (observers st
             ++ {| ob_value := a; ob_dep := dep_uid st; ob_vmCount := 0 |}
                :: l) !! length (observers st)
          = Some {| ob_value := a; ob_dep := dep_uid st; ob_vmCount := 1 |})
    as ->.
  { rewrite list_lookup_alter_eq, lookup_app_r, Nat.sub_diag by lia. done. }
  simpl. by rewrite orb_true_r.
Qed.

(** ** [set] and [del] *)

Lemma lookupProp_filter_eq key ps :
  lookupProp key (filter (λ kp : string * Property, kp.1 ≠ key) ps) = None.
Proof.
  apply lookupProp_None. intros Hin.
  apply list_elem_of_fmap in Hin as ([k q] & -> & Hin).
  by apply list_elem_of_filter in Hin as [Hne _].
Qed.

Lemma lookupProp_filter_ne key key' ps :
  key' ≠ key →
  lookupProp key' (filter (λ kp : string * Property, kp.1 ≠ key) ps)
  = lookupProp key' ps.
Proof.
  intros Hne. induction ps as [|[k q] ps IH]; simpl; [done|].
  rewrite filter_cons. simpl. destruct (decide (k = key)) as [->|Hk].
  - rewrite decide_False by (by intros []). by rewrite decide_False.
  - rewrite decide_True by done. simpl. by rewrite IH.
Qed.

Lemma filter_snoc_absent key (p : Property) ps :
  key ∉ ps.*1 →
  filter (λ kp : string * Property, kp.1 ≠ key) (ps ++ [(key, p)]) = ps.
Proof.
  intros Hn. rewrite filter_app, filter_cons. simpl.
  rewrite decide_False by (by intros []). rewrite filter_nil, app_nil_r.
  induction ps as [|[k q] ps IH]; [done|].
  simpl in Hn. apply not_elem_of_cons in Hn as [Hk Hn].
  rewrite filter_cons. simpl. rewrite decide_True by done.
  f_equal. by apply IH.
Qed.

Lemma lookupProp_snoc key p ps :
  key ∉ ps.*1 → lookupProp key (ps ++ [(key, p)]) = Some p.
Proof.
  induction ps as [|[k q] ps IH]; simpl.
  - intros _. by rewrite decide_True.
  - intros [Hk Hn]%not_elem_of_cons. rewrite decide_False by done. by apply IH.
Qed.

(** X18 — [del] on a Vue instance, or on an object whose Observer has a
    positive [vmCount] (root data), with a key that is not a valid index
    of an array target, deletes nothing, even when the object has the
    key: it returns after a warning (outside production), and [notify] is
    not called. *)
Theorem del_refused a o key st :
  objs st !! a = Some o →
  (if isArray o then isValidArrayIndex key = None else True) →
  o_isVue o = true
  ∨ (∃ k r, o_ob o = Some k ∧ observers st !! k = Some r
            ∧ ob_vmCount r ≠ 0) →
  del (VRef a) key st = (Normal (), warn st)
  ∧ objs (warn st) = objs st ∧ subs (warn st) = subs st
  ∧ ∀ d, announcements d (log (warn st)) = announcements d (log st).
Proof.
  intros Ha Hidx Hguard. split.
  - unfold del. rewrite Ha.
    assert ((if isArray o then isValidArrayIndex key else None) = None) as ->.
    { by destruct (isArray o). }
    destruct Hguard as [-> | (k & r & -> & Hr & Hcount)]; [done|].
    simpl. rewrite Hr. destruct (o_isVue o); [done|]. simpl.
    by destruct (ob_vmCount r).
  - split_and!; try (unfold warn; by destruct production).
    intros d. apply announcements_warn.
Qed.

(** X19 — [del] takes effect only on an own property that can be
    deleted.  On an object that is neither a Vue instance nor root data,
    for a key that is neither a valid index of an array target nor a
    reserved name ([__ob__], [length] of an array): when the object does
    not have the key as an own property [del] returns and nothing has
    changed; when the property is not configurable [del] throws a
    [TypeError], nothing has changed and [notify] is not called. *)
Theorem del_leaves a o key st :
  objs st !! a = Some o →
  (if isArray o then isValidArrayIndex key = None else True) →
  ordinary_key o key = true →
  o_isVue o = false →
  (∀ k r, o_ob o = Some k → observers st !! k = Some r → ob_vmCount r = 0) →
  (hasOwn o key = false → del (VRef a) key st = (Normal (), st))
  ∧ (∀ p, lookupProp key (o_props o) = Some p →
       prop_configurable p = false →
       del (VRef a) key st = (Throw TypeError, st)).
Proof.
  intros Ha Hidx _ Hvue Hroot.
  assert (del (VRef a) key st
          = if negb (hasOwn o key) then (Normal (), st)
            else match deleteOwn key o with
                 | None => (Throw TypeError, st)
                 | Some o' =>
                     match o_ob o ≫= λ k, observers st !! k with
                     | None => (Normal (), with_objs (<[a := o']>) st)
                     | Some r => notify (ob_dep r) (with_objs (<[a := o']>) st)
                     end
                 end) as ->.
  { unfold del. rewrite Ha.
    assert ((if isArray o then isValidArrayIndex key else None) = None) as ->.
    { by destruct (isArray o). }
    rewrite Hvue. simpl.
    destruct (o_ob o) as [k|] eqn:Eob; simpl; [|done].
    destruct (observers st !! k) as [r|] eqn:Er; [|done].
    by rewrite (Hroot k r eq_refl Er). }
  split.
  - by intros ->.
  - intros p Hp Hconf. unfold hasOwn, deleteOwn. rewrite Hp, Hconf.
    rewrite bool_decide_eq_true_2 by (by eexists). done.
Qed.

(** X20 — [del] of an own configurable property, on an object that is
    neither a Vue instance nor root data (the key being neither a valid
    index of an array target nor a reserved name): the property is gone,
    the other properties are as they were, and [notify] is called on the
    Dep of the Observer of the object, once; on an object without an
    Observer nothing else happens. *)
Theorem del_removes a o key p st :
  objs st !! a = Some o →
  (if isArray o then isValidArrayIndex key = None else True) →
  ordinary_key o key = true →
  o_isVue o = false →
  (∀ k r, o_ob o = Some k → observers st !! k = Some r → ob_vmCount r = 0) →
  lookupProp key (o_props o) = Some p → prop_configurable p = true →
  ∃ o',
    objs (del (VRef a) key st).2 !! a = Some o'
    ∧ lookupProp key (o_props o') = None
    ∧ (∀ key', key' ≠ key →
         lookupProp key' (o_props o') = lookupProp key' (o_props o))
    ∧ o_ob o' = o_ob o
    ∧ match o_ob o ≫= λ k, observers st !! k with
      | None =>
          del (VRef a) key st = (Normal (), with_objs (<[a := o']>) st)
      | Some r =>
          ∀ d, announcements d (log (del (VRef a) key st).2)
               = announcements d (log st)
                 + (if decide (ob_dep r = d) then 1 else 0)
      end.
Proof.
  intros Ha Hidx _ Hvue Hroot Hp Hconf.
  set (o' := set_props (filter (λ kp, kp.1 ≠ key) (o_props o)) o).
  assert (del (VRef a) key st
          = match o_ob o ≫= λ k, observers st !! k with
            | None => (Normal (), with_objs (<[a := o']>) st)
            | Some r => notify (ob_dep r) (with_objs (<[a := o']>) st)
            end) as ->.
  { unfold del. rewrite Ha.
    assert ((if isArray o then isValidArrayIndex key else None) = None) as ->.
    { by destruct (isArray o). }
    rewrite Hvue. unfold hasOwn, deleteOwn. rewrite Hp, Hconf.
    rewrite bool_decide_eq_true_2 by (by eexists). simpl.
    destruct (o_ob o) as [k|] eqn:Eob; simpl; [|done].
    destruct (observers st !! k) as [r|] eqn:Er; [|done].
    by rewrite (Hroot k r eq_refl Er). }
  exists o'.
  assert (lookupProp key (o_props o') = None
          ∧ (∀ key', key' ≠ key →
               lookupProp key' (o_props o') = lookupProp key' (o_props o))
          ∧ o_ob o' = o_ob o) as (H1 & H2 & H3).
  { split; [apply lookupProp_filter_eq|]. split; [|done].
    intros key' Hne. by apply lookupProp_filter_ne. }
  destruct (o_ob o ≫= λ k, observers st !! k) as [r|].
  - destruct (notify_announces (ob_dep r) (with_objs (<[a := o']>) st))
      as (No & _ & _ & _ & Nl).
    split; [by rewrite No; simpl; rewrite lookup_insert_eq|].
    split_and!; try done.
  - simpl. rewrite lookup_insert_eq. by split_and!.
Qed.

(** X21 — [set] and [del] on an object without an Observer are the plain
    assignment and the plain [delete].  For a key the object does not
    have (and that is no reserved name), [set] adds a data property that
    reads as the value, and [del] of that key then gives back the state
    [set] started from. *)
Theorem set_del_roundtrip fuel a o key val st :
  objs st !! a = Some o →
  (if isArray o then isValidArrayIndex key = None else True) →
  ordinary_key o key = true →
  o_ob o = None → o_isVue o = false → o_extensible o = true →
  key_in o key = false →
  ∃ st1,
    set fuel (VRef a) key val st = Some (Normal val, st1)
    ∧ (∀ f, readProp f a key st1 = Some (val, st1))
    ∧ log st1 = log st ∧ cells st1 = cells st ∧ dep_uid st1 = dep_uid st
    ∧ del (VRef a) key st1 = (Normal (), st).
Proof.
  intros Ha Hidx _ Hob Hvue Hext Hkey.
  assert ((if isArray o then isValidArrayIndex key else None) = None) as Hi.
  { by destruct (isArray o). }
  assert (lookupProp key (o_props o) = None) as Hnone.
  { unfold key_in in Hkey. apply orb_false_iff in Hkey as [Hown _].
    apply bool_decide_eq_false in Hown.
    destruct (lookupProp key (o_props o)); [|done].
    destruct Hown. by eexists. }
  assert (key ∉ (o_props o).*1) as Hfresh by (by apply lookupProp_None).
  set (o1 := set_props (o_props o ++ [(key, PData val true true true)]) o).
  exists (with_objs (<[a := o1]>) st). split.
  { unfold set. rewrite Ha, Hi, Hkey, Hob, Hvue. simpl.
    unfold assign. by rewrite Ha, Hnone, Hext. }
  split.
  { intros f. unfold readProp. simpl. rewrite lookup_insert_eq. simpl.
    by rewrite lookupProp_snoc. }
  split; [done|]. split; [done|]. split; [done|].
  unfold del. simpl. rewrite lookup_insert_eq.
  change (isArray o1) with (isArray o). rewrite Hi.
  change (o_ob o1) with (o_ob o). change (o_isVue o1) with (o_isVue o).
  rewrite Hob, Hvue. simpl.
  unfold hasOwn, deleteOwn. simpl. rewrite lookupProp_snoc by done.
  rewrite bool_decide_eq_true_2 by (by eexists). simpl.
  rewrite filter_snoc_absent by done. f_equal.
  unfold with_objs. simpl. rewrite insert_insert_eq.
  assert (set_props (o_props o) o1 = o) as -> by (by destruct o).
  rewrite insert_id by done. by destruct st.
Qed.


Lemma splice1_length i val es :
  length (splice1 i val es) = length es `max` S i.
Proof.
  unfold splice1, growTo. rewrite length_app, length_take. simpl.
  rewrite length_drop, !length_app, !length_replicate. lia.
Qed.

Lemma splice1_lookup i val es j :
  splice1 i val es !! j
  = if decide (j = i) then Some val
    else if decide (j < length es) then es !! j
    else if decide (j < i) then Some VUndef
    else None.
Proof.
  unfold splice1, growTo.
  set (es1 := es ++ replicate (i - length es) VUndef).
  assert (length es1 = length es `max` i) as Hlen.
  { unfold es1. rewrite length_app, length_replicate. lia. }
  assert (∀ j, es1 !! j = if decide (j < length es) then es !! j
                          else if decide (j < i) then Some VUndef else None)
    as Hes1.
  { intros j'. unfold es1. case_decide.
    - by rewrite lookup_app_l.
    - rewrite lookup_app_r by lia. case_decide.
      + apply lookup_replicate_2. lia.
      + apply lookup_ge_None_2. rewrite length_replicate. lia. }
  destruct (decide (j = i)) as [->|Hne].
  - rewrite lookup_app_r by (rewrite length_take; lia).
    rewrite length_take.
    replace (i - i `min` length es1) with 0 by lia. done.
  - destruct (decide (j < i)) as [Hlt|Hge].
    + rewrite lookup_app_l by (rewrite length_take; lia).
      rewrite lookup_take_lt by done. rewrite Hes1.
      repeat case_decide; try done; lia.
    + rewrite lookup_app_r by (rewrite length_take; lia).
      rewrite length_take.
      replace (j - i `min` length es1) with (S (j - S i)) by lia.
      simpl. rewrite lookup_drop.
      replace (S i + (j - S i)) with j by lia. rewrite Hes1.
      repeat case_decide; try done; lia.
Qed.

Lemma splice1_within i val es :
  i ≤ length es →
  splice1 i val es
  = if decide (i < length es) then <[i := val]> es else es ++ [val].
Proof.
  intros Hi. apply list_eq. intros j. rewrite splice1_lookup.
  destruct (decide (i < length es)) as [Hlt|Hge].
  - destruct (decide (j = i)) as [->|Hne].
    + by rewrite list_lookup_insert_eq.
    + rewrite list_lookup_insert_ne by done.
      case_decide; [done|]. rewrite decide_False by lia.
      symmetry. apply lookup_ge_None_2. lia.
  - destruct (decide (j = i)) as [->|Hne].
    + rewrite lookup_app_r by lia.
      by replace (i - length es) with 0 by lia.
    + case_decide; [by rewrite lookup_app_l|].
      rewrite decide_False by lia.
      symmetry. apply lookup_ge_None_2. rewrite length_app. simpl. lia.
Qed.

(** X23 — [set] on an extensible array with a valid index that lies in
    the array or is its end, and is below 2^32 - 1: afterwards the element
    at the index is the value and the elements at the other indices are as
    they were (the array is longer by one when the index was its end).
    An array that holds an Observer and has the wrapped methods gets
    [notify] called on the Dep of that Observer, once; for any other array
    nothing else happens and the value is returned. *)
Theorem set_array_index fuel a o i key val st :
  heap_ok st → unobserved st < fuel →
  objs st !! a = Some o → isArray o = true →
  isValidArrayIndex key = Some i → o_extensible o = true →
  i ≤ length (o_elems o) → (Z.of_nat i < max_array_length)%Z →
  (∀ k, o_ob o = Some k → is_Some (observers st !! k)) →
  ∃ res st' o',
    set fuel (VRef a) key val st = Some (res, st')
    ∧ (∀ v, res = Normal v → v = val)
    ∧ objs st' !! a = Some o'
    ∧ o_elems o' = (if decide (i < length (o_elems o))
                    then <[i := val]> (o_elems o) else o_elems o ++ [val])
    ∧ o_elems o' !! i = Some val
    ∧ length (o_elems o') = length (o_elems o) `max` S i
    ∧ (∀ j, j ≠ i → o_elems o' !! j = o_elems o !! j)
    ∧ match (if o_augmented o then o_ob o else None)
            ≫= λ k, observers st !! k with
      | Some r =>
          ∀ d, announcements d (log st')
               = announcements d (log st)
                 + (if decide (ob_dep r = d) then 1 else 0)
      | None => res = Normal val ∧ log st' = log st
      end.
Proof.
  intros Hok Hn Ha Harr Hkey Hext Hin Hmax Hwf.
  set (o1 := set_elems (splice1 i val (o_elems o)) o).
  set (st1 := with_objs (<[a := o1]>) st).
  assert (o_elems o1 = (if decide (i < length (o_elems o))
                        then <[i := val]> (o_elems o)
                        else o_elems o ++ [val])
          ∧ o_elems o1 !! i = Some val
          ∧ length (o_elems o1) = length (o_elems o) `max` S i
          ∧ (∀ j, j ≠ i → o_elems o1 !! j = o_elems o !! j))
    as (L0 & L1 & L2 & L3).
  { simpl. split_and!.
    - by apply splice1_within.
    - by rewrite splice1_lookup, decide_True.
    - apply splice1_length.
    - intros j Hne. rewrite splice1_lookup.
      rewrite decide_False by done. case_decide; [done|].
      rewrite decide_False by lia. symmetry. apply lookup_ge_None_2. lia. }
  assert (set fuel (VRef a) key val st
          = match spliceArray fuel a i val st with
            | None => None
            | Some (Throw e, s) => Some (Throw e, s)
            | Some (Normal _, s) => Some (Normal val, s)
            end) as ->.
  { unfold set. by rewrite Ha, Harr, Hkey. }
  unfold spliceArray. rewrite Ha, Hext. cbv zeta.
  rewrite (bool_decide_eq_false_2 (length (o_elems o) < i)) by lia.
  rewrite andb_false_r.
  rewrite (bool_decide_eq_false_2 (Z.of_nat i = max_array_length)) by lia.
  rewrite andb_false_r.
  cbn [andb]. fold o1. fold st1.
  destruct (if o_augmented o then o_ob o else None) as [k|] eqn:Ek.
  2: { exists (Normal val), st1, o1. simpl.
       split; [done|]. split; [by intros v [= <-]|].
       split; [by rewrite lookup_insert_eq|]. by split_and!. }
  assert (o_ob o = Some k) as Hob.
  { destruct (o_augmented o); [done|discriminate]. }
  destruct (Hwf k Hob) as [r Hr]. simpl. rewrite Hr.
  assert (heap_ok st1) as Hok1.
  { eapply heap_ok_insert; [exact Ha| | |done].
    - apply (hp_keys _ Hok a o Ha).
    - simpl. intros Hnone. congruence. }
  assert (unobserved st1 < fuel) as Hn1.
  { unfold st1. by erewrite unobserved_insert_same. }
  destruct (observe_total fuel val false st1 Hok1 Hn1)
    as (ob & st2 & E2 & _ & Hg2 & _).
  rewrite E2.
  assert (objs st2 !! a = Some o1) as Ha2.
  { apply (gr_observed _ _ _ Hg2); [tauto| |by simpl; rewrite Hob].
    simpl. by rewrite lookup_insert_eq. }
  assert (observers st2 !! k = Some r) as Hr2.
  { pose proof (observers_kept_stable (observers st1) 0) as HP.
    eapply (observe_new _ HP) in E2 as [(l & Hl & _) _].
    - rewrite Hl. by apply lookup_app_l_Some.
    - split; [|lia]. exists []. by rewrite app_nil_r. }
  rewrite Hr2.
  destruct (notify_announces (ob_dep r) st2) as (No & _ & _ & _ & Nl).
  exists (match (notify (ob_dep r) st2).1 with
          | Normal _ => Normal val | Throw e => Throw e end),
    (notify (ob_dep r) st2).2, o1.
  split; [by destruct (notify (ob_dep r) st2) as [[[]|e] s']|].
  split.
  { intros v. by destruct (notify (ob_dep r) st2).1; intros [= <-]. }
  split; [by rewrite No|]. split; [done|]. split_and!; try done.
  intros d. rewrite Nl. f_equal. by rewrite (gr_log _ _ _ Hg2).
Qed.

(** X24 — While observation is switched off with [toggleObserving(false)],
    [observe] creates nothing: for any value it returns at once, with the
    Observer the value already holds if there is one and with nothing
    otherwise, and leaves the state as it is but for [vmCount++] on that
    Observer under [asRootData].  Switching observation on again gives
    back the state before the switch. *)
Theorem observe_switched_off fuel v root st :
  let off := toggleObserving false st in
  let held :=
    match v with
    | VRef a => objs st !! a ≫= λ o, if o_isVNode o then None else o_ob o
    | _ => None
    end in
  observe (S fuel) v root off
  = Some (Normal held,
          match held with
          | Some k =>
              if root then with_observers (alter inc_vmCount k) off else off
          | None => off
          end)
  ∧ (shouldObserve st = true → toggleObserving true off = st).
Proof.
  split.
  - simpl. destruct v as [| | | | |a]; try done.
    destruct (objs st !! a) as [o|]; [|done]. simpl.
    destruct (o_isVNode o); [done|].
    by destruct (o_ob o).
  - intros Hs. unfold toggleObserving, with_shouldObserve. simpl.
    rewrite <-Hs. by destruct st.
Qed.

(** X25 — [dependArray], called for an array that a watcher under
    evaluation has read, registers with that watcher the Dep of the
    Observer of every element that holds one: the Dep is among the
    [newDeps] of the watcher afterwards, and the watcher is a subscriber
    of a Dep it did not hold before.  Elements that are no objects, or
    hold no Observer, are passed over; objects, observers and the log are
    as they were.  On an array none of whose elements is an array,
    [dependArray] returns. *)
Theorem dependArray_registers fuel a o w r st :
  graph_ok st → target st = Some w → watchers st !! w = Some r →
  objs st !! a = Some o →
  (∀ st', dependArray fuel a st = Some st' →
     objs st' = objs st ∧ observers st' = observers st ∧ log st' = log st
     ∧ ∃ r', watchers st' !! w = Some r' ∧ w_deps r' = w_deps r
         ∧ ∀ b oe k ob,
             VRef b ∈ o_elems o → objs st !! b = Some oe →
             o_ob oe = Some k → observers st !! k = Some ob →
             ob_dep ob ∈ w_newDeps r'
             ∧ (ob_dep ob ∉ w_newDeps r → ob_dep ob ∉ w_deps r →
                  w ∈ subsOf st' (ob_dep ob)))
  ∧ ((∀ b oe, VRef b ∈ o_elems o → objs st !! b = Some oe →
        isArray oe = false) →
     ∃ st', dependArray (S fuel) a st = Some st').
Proof.
  intros Hok Ht Er Ha.
  set (Q := λ (D : list nat) (s : State),
    graph_ok s ∧ target s = Some w
    ∧ objs s = objs st ∧ cells s = cells st ∧ log s = log st
    ∧ observers s = observers st
    ∧ ∃ r', watchers s !! w = Some r' ∧ w_deps r' = w_deps r
        ∧ (∀ x, x ∈ w_newDeps r ∨ x ∈ D → x ∈ w_newDeps r')
        ∧ (∀ x, x ∈ w_newDeps r' → x ∉ w_newDeps r → x ∉ w_deps r →
             w ∈ subsOf s x)).
  assert (Q [] st) as Q0.
  { unfold Q. split_and!; try done. exists r.
    split; [done|]. split; [done|]. split; [|by intros x Hx Hnx].
    intros x [Hx|Hx]; [done|]. by apply not_elem_of_nil in Hx. }
  assert (∀ D d s, Q D s → Q (d :: D) (depend d s)) as Qstep.
  { intros D d s. apply tracking_depend. }
  assert (∀ D D' s, (∀ x, x ∈ D' → x ∈ D) → Q D s → Q D' s) as Qweak.
  { intros D D' s Hsub (? & ? & ? & ? & ? & ? & r' & ? & ? & Hn & ?).
    unfold Q. split_and!; try done. exists r'. split_and!; try done.
    intros x [Hx|Hx]; apply Hn; [by left|right; by apply Hsub]. }
  assert (∀ D d s, Q D s → Q D (depend d s)) as Qkeep.
  { intros D d s HQ. apply (Qweak (d :: D)); [|by apply Qstep].
    intros x Hx. by right. }
  set (F := λ (f : nat) (e : JsVal) (s : State),
    match e with
    | VRef b =>
        match objs s !! b with
        | Some oe =>
            let s1 := match o_ob oe with
                      | Some k => depend_ob k s | None => s end in
            if isArray oe then dependArray f b s1 else Some s1
        | None => Some s
        end
    | _ => Some s
    end).
  assert (∀ f D e s s', F f e s = Some s' → Q D s → Q D s') as Fkeep.
  { intros f D e s s'. unfold F.
    destruct e as [| | | | |b]; try by intros [= <-].
    destruct (objs s !! b) as [oe|]; [|by intros [= <-]].
    intros Hs HQ.
    assert (Q D (match o_ob oe with
                 | Some k => depend_ob k s | None => s end)) as H1.
    { destruct (o_ob oe) as [k|]; [|done]. unfold depend_ob.
      destruct (observers s !! k); [by apply Qkeep|done]. }
    destruct (isArray oe); [|by injection Hs as <-].
    eapply (dependArray_depends (Q D)); [|exact Hs|exact H1].
    intros d s0. apply Qkeep. }
  assert (∀ f e s s' b oe k ob, F f e s = Some s' → Q [] s →
            e = VRef b → objs st !! b = Some oe → o_ob oe = Some k →
            observers st !! k = Some ob → Q [ob_dep ob] s') as Fhit.
  { intros f e s s' b oe k ob Hs HQ -> Hb Hk Hob. unfold F in Hs.
    destruct HQ as (HQ & HQrest).
    pose proof (conj HQ HQrest : Q [] s) as HQ'.
    destruct HQrest as (_ & Eo & _ & _ & Eob & _).
    rewrite Eo, Hb, Hk in Hs. unfold depend_ob in Hs.
    rewrite Eob, Hob in Hs.
    pose proof (Qstep [] (ob_dep ob) s HQ') as H1.
    destruct (isArray oe); [|by injection Hs as <-].
    eapply (dependArray_depends (Q [ob_dep ob])); [|exact Hs|exact H1].
    intros d s0. apply Qkeep. }
  assert (∀ f es s s', foldM (F f) es s = Some s' → Q [] s →
            Q [] s'
            ∧ ∀ b oe k ob, VRef b ∈ es → objs st !! b = Some oe →
                o_ob oe = Some k → observers st !! k = Some ob →
                Q [ob_dep ob] s') as Hall.
  { intros f es. induction es as [|e es IH]; intros s s'; simpl.
    { intros [= <-] HQ. split; [done|].
      intros b oe k ob Hin. by apply not_elem_of_nil in Hin. }
    destruct (F f e s) as [s1|] eqn:E1; [|done].
    intros Hrest HQ.
    pose proof (Fkeep f [] e s s1 E1 HQ) as HQ1.
    destruct (IH s1 s' Hrest HQ1) as [HQ' Hin'].
    split; [done|].
    intros b oe k ob Hin Hb Hk Hob.
    apply elem_of_cons in Hin as [Heq|Hin]; [|by eapply Hin'].
    eapply (foldM_preserves (Q [ob_dep ob])); [|exact Hrest|].
    - intros x s0 s0'. apply Fkeep.
    - eapply Fhit; eauto. }
  split.
  - intros st' Hd. destruct fuel as [|f]; [done|].
    simpl in Hd. rewrite Ha in Hd.
    destruct (Hall f (o_elems o) st st' Hd Q0) as [HQ' Hin'].
    destruct HQ' as (_ & _ & Eo & _ & El & Eob & r' & Er' & Hd' & _ & _).
    split; [done|]. split; [done|]. split; [done|].
    exists r'. split; [done|]. split; [done|].
    intros b oe k ob Hin Hb Hk Hob.
    destruct (Hin' b oe k ob Hin Hb Hk Hob)
      as (_ & _ & _ & _ & _ & _ & r'' & Er'' & _ & Hn & Hs).
    rewrite Er' in Er''. injection Er'' as <-.
    split; [apply Hn; right; by left|].
    intros Hnn Hnd. apply Hs; [|done|done]. apply Hn. right. by left.
  - intros Hflat. simpl. rewrite Ha.
    assert (∀ es s, (∀ b, VRef b ∈ es → VRef b ∈ o_elems o) →
              objs s = objs st →
              (∀ s0 d, objs (depend d s0) = objs s0) →
              ∃ s', foldM (F fuel) es s = Some s') as Htot.
    { intros es. induction es as [|e es IH]; intros s Hsub Eo Hdep; simpl.
      { by exists s. }
      assert (∃ s1, F fuel e s = Some s1 ∧ objs s1 = objs st)
        as (s1 & -> & Eo1).
      { unfold F. destruct e as [| | | | |b]; try by exists s.
        rewrite Eo. destruct (objs st !! b) as [oe|] eqn:Eb; [|by exists s].
        rewrite (Hflat b oe); [|apply Hsub; by left|done].
        eexists. split; [done|].
        destruct (o_ob oe) as [k|]; [|done]. unfold depend_ob.
        destruct (observers s !! k); [by rewrite Hdep|done]. }
      apply IH; [|done|done]. intros b Hin. apply Hsub. by right. }
    apply Htot; [done|done|].
    intros s0 d. apply (qs_objs _ _ (quiet_depend d s0)).
Qed.

(** ** Observation reaches the values below *)

(** [observe] on an array that has no Observer. *)
Lemma observe_array fuel a o st :
  heap_ok st → unobserved st < fuel →
  objs st !! a = Some o → o_isVNode o = false → o_ob o = None →
  observable st o = true → isArray o = true →
  ∃ st',
    observe fuel (VRef a) false st
      = Some (Normal (Some (length (observers st))), st')
    ∧ objs st' !! a
      = Some (set_augmented true (set_ob (Some (length (observers st))) o))
    ∧ ∀ b, VRef b ∈ o_elems o → reifiable st b → holds_observer st' b.
Proof.
  intros Hok Hn Ha Hvn Hob Hobs Harr.
  destruct fuel as [|f]; [lia|].
  simpl. rewrite Ha, Hvn, Hob.
  change (shouldObserve st && negb isServerRendering
          && (isArray o || isPlainObject o) && o_extensible o
          && negb (o_isVue o)) with (observable st o).
  rewrite Hobs. unfold newObserver. simpl. rewrite Harr.
  set (k := length (observers st)).
  set (x := {| ob_value := a; ob_dep := dep_uid st; ob_vmCount := 0 |}).
  set (st2 := with_observers _ _).
  set (o4 := set_augmented true (set_ob (Some k) o)).
  set (st4 := with_objs (alter (set_augmented true) a) _).
  assert (st4 = with_objs (<[a := o4]>) (with_objs (λ _, objs st) st2))
    as Est4.
  { unfold st4, with_objs. simpl. f_equal.
    rewrite (alter_lookup_insert (set_ob (Some k)) (objs st) a o Ha).
    rewrite (alter_lookup_insert (set_augmented true) _ a
               (set_ob (Some k) o)) by (by rewrite lookup_insert_eq).
    by rewrite insert_insert_eq. }
  assert (grown_but (λ _, False) st st4) as Hg4.
  { rewrite Est4.
    eapply grown_but_trans; [|by eapply grown_insert_observed;
                                 [exact Ha|done|by eexists]].
    split; try done. by exists []; rewrite app_nil_r. }
  assert (unobserved st4 < f) as Hn4.
  { rewrite Est4.
    pose proof (unobserved_insert_observed
      (with_objs (λ _, objs st) st2) a o o4 Ha Hob ltac:(by eexists)) as Hu.
    assert (unobserved (with_objs (λ _, objs st) st2) = unobserved st)
      by done.
    lia. }
  assert (heap_ok st4) as Hok4.
  { rewrite Est4. eapply heap_ok_insert; [exact Ha| | |].
    - apply (hp_keys _ Hok a o Ha).
    - simpl. done.
    - by apply (heap_ok_ext st). }
  assert (objs st4 !! a = Some o4) as Ha4.
  { rewrite Est4. simpl. by rewrite lookup_insert_eq. }
  destruct (observeArray_deep f (observe f)
              (λ v s, observe_total f v false s)
              (λ P HP, observe_stable P HP f)
              a o4 0 (length (o_elems o)) st4 Hok4 Hn4 Ha4)
    as (st5 & -> & _ & _ & _ & Ha5 & Hd5); [by eexists|].
  exists st5. split; [done|]. split; [done|].
  intros b Hin (oe & Hb & Hvnb & Hcan).
  apply list_elem_of_lookup in Hin as [j Hj].
  apply (Hd5 j b); [lia| |done|].
  - simpl. by eapply lookup_lt_Some.
  - destruct (decide (b = a)) as [->|Hne].
    + exists o4. split; [done|]. rewrite Ha in Hb. injection Hb as <-.
      split; [done|]. left. by eexists.
    + exists oe. rewrite Est4. simpl. rewrite lookup_insert_ne by done.
      by split_and!.
Qed.

(** X26 — Observation is deep.  [observe] on an observable object or array
    without an Observer also reifies what it holds: afterwards every
    element of the array, and every value of an enumerable configurable
    data property of the object, that [observe] accepts (an object that
    is no VNode and holds an Observer or can be given one) holds an
    Observer.  The elements of an array are left as they are, and the
    array is marked as having the wrapped methods. *)
Theorem observe_deep fuel a o root st :
  heap_ok st → unobserved st < fuel →
  objs st !! a = Some o → o_isVNode o = false → o_ob o = None →
  observable st o = true →
  ∃ st' o',
    observe fuel (VRef a) root st
      = Some (Normal (Some (length (observers st))), st')
    ∧ objs st' !! a = Some o' ∧ o_elems o' = o_elems o
    ∧ o_augmented o' = (isArray o || o_augmented o)
    ∧ ∀ b,
        (if isArray o then VRef b ∈ o_elems o
         else ∃ key w,
           lookupProp key (o_props o) = Some (PData (VRef b) true true w)) →
        reifiable st b → holds_observer st' b.
Proof.
  intros Hok Hn Ha Hvn Hob Hobs.
  assert (∃ st' o',
    observe fuel (VRef a) false st
      = Some (Normal (Some (length (observers st))), st')
    ∧ objs st' !! a = Some o' ∧ o_elems o' = o_elems o
    ∧ o_augmented o' = (isArray o || o_augmented o)
    ∧ ∀ b,
        (if isArray o then VRef b ∈ o_elems o
         else ∃ key w,
           lookupProp key (o_props o) = Some (PData (VRef b) true true w)) →
        reifiable st b → holds_observer st' b)
    as (st' & o' & E & Ha' & He & Hau & Hd).
  { destruct (isArray o) eqn:Harr.
    - destruct (observe_array fuel a o st Hok Hn Ha Hvn Hob Hobs Harr)
        as (st' & E & Ha' & Hd).
      eexists st', _. by split_and!.
    - destruct (observe_plain fuel a o st Hok Hn Ha Hvn Hob Hobs Harr)
        as (st' & ps' & E & _ & _ & Ha' & _ & _ & Hd & _).
      eexists st', _. split; [done|]. split; [done|]. split; [done|].
      split; [done|]. intros b (key & w & Hp). by apply (Hd key b w). }
  destruct root.
  - rewrite observe_root, E. eexists _, o'. split; [done|].
    split; [done|]. split; [done|]. split; [done|].
    intros b Hb Hre. destruct (Hd b Hb Hre) as (oe & ? & ?). by exists oe.
  - by exists st', o'.
Qed.

End Properties.

(** * The scenario, checked *)

Lemma demo1_reachable : reachable (host := dev_host) demo1.
Proof.
  unfold demo1.
  eapply reachable_step; [|apply step_newDep].
  eapply reachable_step; [|apply step_newDep].
  eapply reachable_step; [apply reachable_init|].
  apply step_host, host_step_with_vms.
Qed.

Lemma demo3_reachable : reachable (host := dev_host) demo3.
Proof.
  unfold demo3.
  apply (reachable_step
    (newWatcher (host := dev_host) 0 false false false false false demo2).2);
    [|apply step_host, host_step_with_config_async].
  eapply reachable_step; [|apply step_newWatcher].
  eapply reachable_step; [|apply step_newWatcher].
  apply demo1_reachable.
Qed.

Lemma demo5_reachable : reachable (host := dev_host) demo5.
Proof.
  unfold demo5.
  eapply reachable_step; [|apply step_newWatcher].
  eapply reachable_step; [|apply step_newWatcher].
  eapply reachable_step; [|apply step_run].
  apply demo3_reachable.
Qed.

Lemma demo6_reachable : reachable (host := dev_host) demo6.
Proof.
  unfold demo6.
  eapply reachable_step; [apply demo5_reachable|].
  apply step_host, host_step_with_vms.
Qed.

Lemma demo3_ok : graph_ok demo3.
Proof. exact (reachable_graph_ok _ demo3_reachable). Qed.

Lemma demo5_ok : graph_ok demo5.
Proof. exact (reachable_graph_ok _ demo5_reachable). Qed.

Lemma demo6_ok : graph_ok demo6.
Proof. exact (reachable_graph_ok _ demo6_reachable). Qed.

(** Watcher 1 read Dep 1 on its first run and reads Dep 0 on the second. *)
Lemma get_dependency_set_witness :
  graph_ok demo3
  ∧ ∃ r, watchers demo3 !! 1 = Some r ∧ w_newDeps r = []
    ∧ ∃ r',
        watchers (get (host := dev_host) 1 demo3).2 !! 1 = Some r'
        ∧ (∀ d, d ∈ w_deps r' ↔ d ∈ fired (host := dev_host) 1 demo3)
        ∧ w_depIds r' = list_to_set (w_deps r')
        ∧ w_newDeps r' = [] ∧ w_newDepIds r' = ∅
        ∧ (∀ d, d ∈ w_deps r → d ∉ fired (host := dev_host) 1 demo3 →
             1 ∉ subsOf (get (host := dev_host) 1 demo3).2 d)
        ∧ (∀ d, d ∈ fired (host := dev_host) 1 demo3 → d ∉ w_deps r →
             1 ∈ subsOf (get (host := dev_host) 1 demo3).2 d).
Proof.
  split; [exact demo3_ok|].
  eexists. split; [reflexivity|]. split; [reflexivity|].
  apply (get_dependency_set (host := dev_host) 1 _ demo3 demo3_ok);
    reflexivity.
Defined.

(** The getter of the [user] watcher 3 throws. *)
Lemma get_getter_throws_witness :
  graph_ok demo5
  ∧ ∃ r, watchers demo5 !! 3 = Some r ∧ w_newDeps r = []
    ∧ result (getter (Host := dev_host) 3 (pushTarget (Some 3) demo5))
        = Throw (VStr "boom")
    ∧ (get (host := dev_host) 3 demo5).1 = Normal VUndef
    ∧ targetStack (get (host := dev_host) 3 demo5).2 = targetStack demo5
    ∧ target (get (host := dev_host) 3 demo5).2 = target demo5.
Proof.
  split; [exact demo5_ok|].
  eexists. split; [reflexivity|]. split; [reflexivity|].
  split; [reflexivity|].
  pose proof (get_getter_throws (host := dev_host) 3 _ (VStr "boom") demo5
                demo5_ok eq_refl eq_refl eq_refl) as (Hres & Hs & Ht & _).
  split; [exact (proj1 Hres)|]. by split.
Defined.

Lemma demo2_ok : graph_ok demo2.
Proof.
  apply (reachable_graph_ok (host := dev_host)). unfold demo2.
  eapply reachable_step; [apply demo1_reachable|apply step_newWatcher].
Qed.

(** Watcher 1, neither lazy nor sync, while [config.async] is on. *)
Lemma update_dispatch_witness :
  graph_ok demo2
  ∧ ∃ r, watchers demo2 !! 1 = Some r
    ∧ production (Host := dev_host) || config_async demo2 = true
    ∧ (update (host := dev_host) 1 demo2).1 = Normal ()
    ∧ log (update (host := dev_host) 1 demo2).2
      = log demo2 ++ [EvQueueWatcher 1]
    ∧ watchers (update (host := dev_host) 1 demo2).2 = watchers demo2
    ∧ subs (update (host := dev_host) 1 demo2).2 = subs demo2.
Proof.
  split; [exact demo2_ok|].
  eexists. split; [reflexivity|]. split; [reflexivity|].
  exact (proj2 (update_dispatch (host := dev_host) 1 _ demo2 demo2_ok
                  eq_refl) eq_refl).
Defined.

(** C6, as stated, fails: in a build that is not a production build, with
    [config.async] off, watcher 1, which is neither lazy nor sync, is
    handed to [queueWatcher] and run within the call of [update]: its
    getter is called before [update] returns. *)
Lemma update_queued_runs_inline :
  production (Host := dev_host) = false
  ∧ config_async demo5 = false
  ∧ (w_lazy <$> watchers demo5 !! 1) = Some false
  ∧ (w_sync <$> watchers demo5 !! 1) = Some false
  ∧ log (update (host := dev_host) 1 demo5).2
    = log demo5 ++ [EvQueueWatcher 1; EvGetter 1].
Proof.
  split; [reflexivity|]. split; [reflexivity|].
  split; [vm_compute; reflexivity|]. split; [vm_compute; reflexivity|].
  vm_compute. reflexivity.
Qed.

Lemma teardown_spec_witness :
  graph_ok demo6
  ∧ ∃ r, watchers demo6 !! 2 = Some r ∧ w_active r = true
    ∧ (∀ d, d ∈ w_deps r → 2 ∉ subsOf (teardown 2 demo6) d)
    ∧ teardown 2 (teardown 2 demo6) = teardown 2 demo6
    ∧ vms (teardown 2 demo6) = vms demo6.
Proof.
  split; [exact demo6_ok|].
  eexists. split; [reflexivity|]. split; [reflexivity|].
  pose proof (teardown_spec 2 _ demo6 demo6_ok eq_refl eq_refl)
    as (Hun & _ & Hidem & Hvm).
  split; [exact Hun|]. split; [exact Hidem|exact Hvm].
Defined.

Lemma reachable_subs_NoDup_witness :
  reachable (host := dev_host) demo5 ∧ NoDup (subsOf demo5 0).
Proof.
  split; [exact demo5_reachable|].
  exact (proj1 (reachable_subs_NoDup (host := dev_host) demo5 0
                  demo5_reachable)).
Defined.

(** C2, as stated, fails: [addSub] appends a subscriber that is already in
    the list. *)
Lemma addSub_appends_present :
  1 ∈ subsOf (addSub 0 1 init) 0
  ∧ subsOf (addSub 0 1 (addSub 0 1 init)) 0 = [1; 1]
  ∧ ¬ NoDup (subsOf (addSub 0 1 (addSub 0 1 init)) 0).
Proof.
  split; [by apply list_elem_of_singleton|]. split; [reflexivity|].
  intros Hnd. change (NoDup [1; 1]) in Hnd.
  apply NoDup_cons in Hnd as [Hnin _]. apply Hnin. by left.
Qed.


(** C8, as stated, fails: the instance is being destroyed and the walk over
    the Deps of the watcher is made (watcher 2 leaves the subscribers of
    Dep 0); it is the [_watchers] list of the instance that is left as it
    was. *)
Lemma teardown_walk_not_skipped :
  (vm_isBeingDestroyed <$> vms demo6 !! 0) = Some true
  ∧ subsOf demo6 0 = [2; 1]
  ∧ subsOf (teardown 2 demo6) 0 = [1]
  ∧ (vm_watchers <$> vms (teardown 2 demo6) !! 0) = Some [1; 2; 3; 4].
Proof. by repeat split. Qed.

Lemma heap1_ok : heap_ok heap1.
Proof. apply heap_okb_sound. vm_compute. reflexivity. Qed.

(** The object at 0 is observed twice. *)
Lemma observe_idempotent_witness :
  observe (host := dev_host) 3 (VRef 0) true heap0
    = Some (Normal (Some 0), heap0')
  ∧ ∃ st2,
      observe (host := dev_host) 1 (VRef 0) false heap0'
        = Some (Normal (Some 0), st2)
      ∧ st2 = heap0'.
Proof.
  assert (observe (host := dev_host) 3 (VRef 0) true heap0
            = Some (Normal (Some 0), heap0')) as H
    by (vm_compute; reflexivity).
  split; [exact H|].
  destruct (observe_idempotent (host := dev_host) 3 0 (VRef 0) true false 0
              heap0 heap0' H) as (st2 & H1 & H2 & _).
  exists st2. split; [exact H1|exact H2].
Defined.

Lemma heap1_cell_g : cells heap1 !! 3 = Some cell_g.
Proof. vm_compute. reflexivity. Qed.

Lemma heap1_cell_b : cells heap1 !! 2 = Some cell_b.
Proof. vm_compute. reflexivity. Qed.

(** The field [g] of the object at 3 (closure 3) has a getter and no
    setter; 6 is written where 5 is read. *)
Lemma setter_getter_only_witness :
  cells heap1 !! 3 = Some cell_g
  ∧ c_getter cell_g = Some (GUser 0) ∧ c_setter cell_g = None
  ∧ ∃ st',
      reactiveSetter (host := dev_host) 1 3 (VNum (Fin 6)) heap1
        = Some (Normal (), st')
      ∧ slotOf st' 0 = slotOf heap1 0
      ∧ ∀ d, announcements d (log st') = announcements d (log heap1).
Proof.
  split; [exact heap1_cell_g|]. split; [reflexivity|]. split; [reflexivity|].
  destruct (setter_getter_only (host := dev_host) 0 3 cell_g 0 (VNum (Fin 6))
              heap1 heap1_cell_g eq_refl eq_refl)
    as (st' & H1 & H2 & _ & _ & _ & _ & _ & _ & H3 & _).
  exists st'. split; [exact H1|]. split; [exact H2|exact H3].
Defined.

(** C4, as stated, fails on the same field: 6 differs from the 5 that is
    held, and the setter stores nothing and does not call [notify]. *)
Lemma setter_drops_changed_value :
  (storedValue heap1 <$> cells heap1 !! 3) = Some (VNum (Fin 5))
  ∧ unchanged (VNum (Fin 6)) (VNum (Fin 5)) = false
  ∧ (c_dep <$> cells heap1 !! 3) = Some 7
  ∧ ∃ st',
      reactiveSetter (host := dev_host) 1 3 (VNum (Fin 6)) heap1
        = Some (Normal (), st')
      ∧ (storedValue st' <$> cells st' !! 3) = Some (VNum (Fin 5))
      ∧ announcements 7 (log st') = 0.
Proof.
  split; [vm_compute; reflexivity|]. split; [reflexivity|].
  split; [vm_compute; reflexivity|].
  exists heap1. split; [vm_compute; reflexivity|].
  split; vm_compute; reflexivity.
Qed.

Lemma heap1_unobserved : unobserved heap1 < 2.
Proof. vm_compute. lia. Qed.

(** The object at 4 is written to the field [b] of the object at 0
    (closure 2, Dep 2). *)
Lemma reactiveSetter_spec_witness :
  heap_ok heap1 ∧ unobserved heap1 < 2
  ∧ cells heap1 !! 2 = Some cell_b
  ∧ user_prop (PAccessor (c_getter cell_b) (c_setter cell_b) true true) = true
  ∧ ∃ r st' cell' ob,
      reactiveSetter (host := dev_host) 3 2 (VRef 4) heap1 = Some (r, st')
      ∧ cells st' !! 2 = Some cell'
      ∧ c_val cell' = VRef 4
      ∧ c_childOb cell' = ob
      ∧ reified (host := dev_host) (VRef 4) heap1 ob st'
      ∧ announcements 2 (log st') = S (announcements 2 (log heap1)).
Proof.
  split; [exact heap1_ok|]. split; [exact heap1_unobserved|].
  split; [exact heap1_cell_b|]. split; [reflexivity|].
  exact (reactiveSetter_spec (host := dev_host) 2 2 cell_b (VRef 4) heap1
           heap1_ok heap1_unobserved heap1_cell_b eq_refl).
Defined.

Lemma heap1_root : objs heap1 !! 0 = Some root_object.
Proof. vm_compute. reflexivity. Qed.




(** ** The further properties, on the scenario *)

Lemma reachable_subscriber_holds_witness :
  reachable (host := dev_host) demo3 ∧ 2 ∈ subsOf demo3 0
  ∧ ∃ r, watchers demo3 !! 2 = Some r ∧ (0 ∈ w_deps r ∨ 0 ∈ w_newDeps r).
Proof.
  assert (2 ∈ subsOf demo3 0) as Hin.
  { assert (subsOf demo3 0 = [2]) as -> by (vm_compute; reflexivity).
    by left. }
  split; [exact demo3_reachable|]. split; [exact Hin|].
  exact (reachable_subscriber_holds (host := dev_host) demo3 0 2
           demo3_reachable Hin).
Defined.

Lemma reachable_target_top_witness :
  reachable (host := dev_host) demo3
  ∧ target demo3 = mjoin (head (targetStack demo3))
  ∧ watchers demo3 !! S (watcher_uid demo3) = None.
Proof.
  split; [exact demo3_reachable|].
  exact (reachable_target_top (host := dev_host) demo3 demo3_reachable).
Defined.

Lemma removeSub_addSub_witness :
  subsOf (removeSub 0 1 (addSub 0 1 demo3)) 0 = subsOf demo3 0
  ∧ ∀ d', d' ≠ 0 →
      subsOf (removeSub 0 1 (addSub 0 1 demo3)) d' = subsOf demo3 d'.
Proof.
  apply (removeSub_addSub 0 1 demo3).
  assert (subsOf demo3 0 = [2]) as -> by (vm_compute; reflexivity).
  apply not_elem_of_cons. split; [lia|apply not_elem_of_nil].
Defined.

Lemma run_after_teardown_witness :
  ∃ r, watchers demo6 !! 2 = Some r
       ∧ run (host := dev_host) 2 (teardown 2 demo6)
         = (Normal (), teardown 2 demo6).
Proof.
  eexists. split; [reflexivity|].
  exact (run_after_teardown (host := dev_host) 2 _ demo6 eq_refl).
Defined.

Lemma evaluate_spec_witness :
  graph_ok demo5
  ∧ ∃ r, watchers demo5 !! 4 = Some r ∧ w_newDeps r = []
    ∧ result (getter (Host := dev_host) 4 (pushTarget (Some 4) demo5))
        = Throw (VStr "boom")
    ∧ ∃ r',
        watchers (evaluate (host := dev_host) 4 demo5).2 !! 4 = Some r'
        ∧ (∀ d, d ∈ w_deps r' ↔ d ∈ fired (host := dev_host) 4 demo5)
        ∧ (evaluate (host := dev_host) 4 demo5).1 = Throw (VStr "boom")
        ∧ w_value r' = w_value r ∧ w_dirty r' = w_dirty r.
Proof.
  split; [exact demo5_ok|].
  eexists. split; [reflexivity|]. split; [reflexivity|].
  split; [reflexivity|].
  exact (evaluate_spec (host := dev_host) 4 _ demo5 demo5_ok eq_refl eq_refl).
Defined.

Lemma watcher_depend_spec_witness :
  graph_ok (pushTarget (Some 3) demo5)
  ∧ ∃ r r', watchers (pushTarget (Some 3) demo5) !! 3 = Some r
    ∧ watchers (pushTarget (Some 3) demo5) !! 2 = Some r'
    ∧ ∃ nds,
        watchers (watcher_depend 2 (pushTarget (Some 3) demo5)) !! 3
          = Some (set_deps (w_deps r) nds (w_depIds r) (list_to_set nds) r)
        ∧ (∀ d, d ∈ w_deps r' → d ∈ nds)
        ∧ (∀ d, d ∈ w_deps r' → d ∉ w_newDeps r → d ∉ w_deps r →
             3 ∈ subsOf (watcher_depend 2 (pushTarget (Some 3) demo5)) d).
Proof.
  assert (graph_ok (pushTarget (Some 3) demo5)) as Hok
    by (apply graph_ok_pushTarget, demo5_ok).
  split; [exact Hok|].
  eexists _, _. split; [reflexivity|]. split; [reflexivity|].
  exact (watcher_depend_spec 3 2 _ _ (pushTarget (Some 3) demo5) Hok
           eq_refl eq_refl eq_refl).
Defined.

Lemma notify_stops_at_throw_witness :
  snapshot_order (host := prod_host) demo7 1 = [] ++ 4 :: [3]
  ∧ ∃ st2,
      notify_with (host := prod_host) (update (host := prod_host)) 1 demo7
        = (Throw (VStr "boom"), st2)
      ∧ (w_dirty <$> watchers demo7 !! 3) = Some false
      ∧ (w_dirty <$> watchers st2 !! 3) = Some false.
Proof.
  split; [vm_compute; reflexivity|].
  exists (update (host := prod_host) 4 (emit (EvNotify 1) demo7)).2.
  split.
  - apply (notify_stops_at_throw (host := prod_host)
             (update (host := prod_host)) 1 demo7 [] 4 [3] (VStr "boom")
             (emit (EvNotify 1) demo7)).
    + vm_compute; reflexivity.
    + reflexivity.
    + vm_compute; reflexivity.
  - split; vm_compute; reflexivity.
Defined.

Lemma demo8_reachable : reachable (host := dev_host) demo8.
Proof.
  unfold demo8.
  apply (reachable_step (evaluate (host := dev_host) 3 demo5).2);
    [|apply step_host, host_step_with_config_async].
  eapply reachable_step; [apply demo5_reachable|apply step_evaluate].
Qed.

(** Dep 0 has the subscribers 2 and 1, which are queued, and the lazy
    watcher 3, which is marked dirty. *)
Lemma notify_deferred_witness :
  reachable (host := dev_host) demo8
  ∧ production (Host := dev_host) || config_async demo8 = true
  ∧ subsOf demo8 0 = [2; 1; 3]
  ∧ (notify (host := dev_host) 0 demo8).1 = Normal ()
  ∧ log (notify (host := dev_host) 0 demo8).2
    = log demo8 ++ [EvNotify 0; EvQueueWatcher 2; EvQueueWatcher 1]
  ∧ (w_dirty <$> watchers demo8 !! 3) = Some false
  ∧ (w_dirty <$> watchers (notify (host := dev_host) 0 demo8).2 !! 3)
    = Some true
  ∧ subs (notify (host := dev_host) 0 demo8).2 = subs demo8.
Proof.
  split; [exact demo8_reachable|]. split; [reflexivity|].
  assert (subsOf demo8 0 = [2; 1; 3]) as Hs by (vm_compute; reflexivity).
  split; [exact Hs|].
  destruct (notify_deferred (host := dev_host) 0 demo8 demo8_reachable
              eq_refl)
    as (H1 & H2 & _ & H3 & _ & H4).
  { intros w Hin. rewrite Hs in Hin.
    assert (w = 2 ∨ w = 1 ∨ w = 3) as Hw.
    { apply elem_of_cons in Hin as [Hw|Hin]; [left; exact Hw|].
      apply elem_of_cons in Hin as [Hw|Hin]; [right; left; exact Hw|].
      apply elem_of_cons in Hin as [Hw|Hin]; [right; right; exact Hw|].
      exfalso. exact (not_elem_of_nil _ Hin). }
    destruct Hw as [Hw|[Hw|Hw]]; rewrite Hw.
    - eexists. split; [vm_compute; reflexivity|]. right. reflexivity.
    - eexists. split; [vm_compute; reflexivity|]. right. reflexivity.
    - eexists. split; [vm_compute; reflexivity|]. left. reflexivity. }
  split; [exact H1|].
  split; [rewrite H2; vm_compute; reflexivity|].
  split; [vm_compute; reflexivity|].
  split; [|exact H4].
  assert (watchers demo8 !! 3
          = Some {| w_vm := 0; w_deep := false; w_user := true;
                    w_lazy := true; w_sync := false; w_dirty := false;
                    w_active := true; w_deps := [0; 1]; w_newDeps := [];
                    w_depIds := list_to_set [0; 1]; w_newDepIds := ∅;
                    w_value := VUndef |}) as Er.
  { vm_compute. reflexivity. }
  rewrite (H3 3 _ Er). vm_compute. reflexivity.
Defined.

Lemma newWatcher_spec_witness :
  graph_ok demo3
  ∧ watchers demo3 !! 3 = None
  ∧ (newWatcher (host := dev_host) 0 false true true false false demo3).1
    = Normal 3
  ∧ log (newWatcher (host := dev_host) 0 false true true false false demo3).2
    = log demo3
  ∧ vm_watchers <$>
      vms (newWatcher (host := dev_host) 0 false true true false false
             demo3).2 !! 0
    = Some [1; 2; 3].
Proof.
  split; [exact demo3_ok|].
  destruct (newWatcher_spec (host := dev_host) 0 (demo_vm false [1; 2])
              false true true false false demo3 demo3_ok)
    as (Hfresh & _ & Hvm & r & _ & _ & _ & _ & Hres & _ & _ & Hlog & _).
  { vm_compute; reflexivity. }
  split; [exact Hfresh|]. split; [exact Hres|]. split; [exact Hlog|].
  rewrite Hvm. reflexivity.
Defined.

Lemma heap1_reachable : reachable (host := dev_host) heap1.
Proof.
  assert (reachable (host := dev_host) heap0) as H0.
  { unfold heap0.
    eapply reachable_step; [|apply step_host, host_step_with_slots].
    eapply reachable_step; [apply reachable_init|].
    apply step_host, host_step_with_objs. }
  assert (∀ fuel v root st, reachable (host := dev_host) st →
            reachable (host := dev_host) (observed fuel v root st)) as Hobs.
  { intros fuel v root st Hr. unfold observed.
    destruct (observe fuel v root st) as [[r st']|] eqn:E; [|done].
    eapply reachable_step; [exact Hr|]. eapply step_observe, E. }
  unfold heap1. by do 3 apply Hobs.
Qed.

Lemma heap2_reachable : reachable (host := dev_host) heap2.
Proof.
  unfold heap2. eapply reachable_step; [apply heap1_reachable|].
  apply step_newWatcher.
Qed.

Lemma heap1_cell_a : cells heap1 !! 0 = Some cell_a.
Proof. vm_compute. reflexivity. Qed.

Lemma reactiveGetter_untracked_witness :
  target heap1 = None
  ∧ reactiveGetter 1 0 heap1 = Some (VNum (Fin 1), heap1).
Proof.
  split; [reflexivity|].
  exact (proj2 (reactiveGetter_untracked 0 0 cell_a heap1 eq_refl
                  heap1_cell_a) ltac:(done)).
Defined.

Lemma reactiveGetter_tracks_witness :
  graph_ok (pushTarget (Some 1) heap2)
  ∧ ∃ st' r',
      reactiveGetter 2 2 (pushTarget (Some 1) heap2) = Some (VRef 1, st')
      ∧ watchers st' !! 1 = Some r'
      ∧ 2 ∈ w_newDeps r' ∧ 3 ∈ w_newDeps r' ∧ 1 ∈ subsOf st' 2.
Proof.
  set (st := pushTarget (Some 1) heap2).
  assert (graph_ok st) as Hok.
  { apply graph_ok_pushTarget.
    exact (reachable_graph_ok (host := dev_host) _ heap2_reachable). }
  split; [exact Hok|].
  assert (cells st !! 2 = Some cell_b) as Hc by (vm_compute; reflexivity).
  assert (∃ r, watchers st !! 1 = Some r ∧ w_deps r = [1]
               ∧ w_newDeps r = []) as (r & Er & Hd & Hn).
  { eexists. split; [vm_compute; reflexivity|]. split; reflexivity. }
  assert (reactiveGetter 2 2 st = Some (VRef 1, depend_ob 1 (depend 2 st)))
    as E by (vm_compute; reflexivity).
  destruct (proj1 (reactiveGetter_tracks 2 2 cell_b 1 r st Hok eq_refl Er Hc
                     ltac:(done)) _ _ E)
    as (_ & _ & _ & _ & r' & Er' & _ & H2 & Hsub & Hob).
  exists (depend_ob 1 (depend 2 st)), r'.
  split; [exact E|]. split; [exact Er'|]. split; [exact H2|]. split.
  - apply (Hob 1 {| ob_value := 1; ob_dep := 3; ob_vmCount := 0 |});
      [reflexivity|vm_compute; reflexivity].
  - apply Hsub; rewrite ?Hd, ?Hn.
    + apply not_elem_of_nil.
    + apply not_elem_of_cons. split; [by simpl|apply not_elem_of_nil].
Defined.

Lemma heap1_child : objs heap1 !! 1 = Some child_object.
Proof. vm_compute. reflexivity. Qed.

Lemma heap1_array : objs heap1 !! 2 = Some root_array.
Proof. vm_compute. reflexivity. Qed.

Lemma heap1_loose : objs heap1 !! 4 = Some loose_object.
Proof. vm_compute. reflexivity. Qed.

Lemma heap2_ok : heap_ok heap2.
Proof. apply heap_okb_sound. vm_compute. reflexivity. Qed.

Lemma reactiveSetter_reaches_subscribers_witness :
  heap_ok heap2 ∧ unobserved heap2 < 2
  ∧ production (Host := dev_host) || config_async heap2 = true
  ∧ ∃ st',
      reactiveSetter (host := dev_host) 3 0 (VNum (Fin 7)) heap2
        = Some (Normal (), st')
      ∧ log st' = log heap2 ++ [EvNotify 1; EvQueueWatcher 1].
Proof.
  assert (unobserved heap2 < 2) as Hn by (vm_compute; lia).
  split; [exact heap2_ok|]. split; [exact Hn|].
  split; [vm_compute; reflexivity|].
  assert (subsOf heap2 1 = [1]) as Hs by (vm_compute; reflexivity).
  destruct (reactiveSetter_reaches_subscribers (host := dev_host) 2 0 cell_a
              (VNum (Fin 7)) heap2 heap2_ok Hn)
    as (st' & E & Hlog & _).
  - vm_compute. reflexivity.
  - reflexivity.
  - reflexivity.
  - vm_compute. lia.
  - vm_compute. reflexivity.
  - left. reflexivity.
  - vm_compute. reflexivity.
  - intros w Hin. change (w ∈ subsOf heap2 1) in Hin. rewrite Hs in Hin.
    assert (w = 1) as Hw.
    { apply elem_of_cons in Hin as [Hw|Hin]; [exact Hw|].
      exfalso. exact (not_elem_of_nil _ Hin). }
    rewrite Hw.
    eexists. split; [vm_compute; reflexivity|]. right. reflexivity.
  - exists st'. split; [exact E|]. rewrite Hlog. vm_compute. reflexivity.
Defined.

Lemma observe_fresh_witness :
  heap_ok heap1 ∧ unobserved heap1 < 2
  ∧ ∃ st' l o',
      observe (host := dev_host) 2 (VRef 4) true heap1
        = Some (Normal (Some (length (observers heap1))), st')
      ∧ observers st'
        = observers heap1
          ++ {| ob_value := 4; ob_dep := dep_uid heap1; ob_vmCount := 1 |}
             :: l
      ∧ Forall (λ r, ob_vmCount r = 0) l
      ∧ objs st' !! 4 = Some o'
      ∧ o_ob o' = Some (length (observers heap1))
      ∧ dep_uid heap1 < dep_uid st'.
Proof.
  split; [exact heap1_ok|]. split; [exact heap1_unobserved|].
  apply (observe_fresh (host := dev_host) 2 4 loose_object true heap1
           heap1_ok heap1_unobserved heap1_loose);
    vm_compute; reflexivity.
Defined.

Lemma observe_keeps_reads_witness :
  ∃ st' v,
    observe (host := dev_host) 2 (VRef 4) false heap1
      = Some (Normal (Some (length (observers heap1))), st')
    ∧ (∀ f, readProp f 4 "c" heap1 = Some (v, heap1))
    ∧ (∀ f, readProp (S f) 4 "c" st' = Some (v, st')).
Proof.
  apply (observe_keeps_reads (host := dev_host) 2 4 loose_object false "c"
           heap1 heap1_ok heap1_unobserved heap1_loose);
    vm_compute; reflexivity.
Defined.

Lemma Vue_observable_spec_witness :
  ∃ st',
    Vue_observable (host := dev_host) 2 (VRef 4) heap1
      = Some (Normal (VRef 4), st')
    ∧ heap_ok st'
    ∧ (∃ o' k, objs st' !! 4 = Some o' ∧ o_ob o' = Some k)
    ∧ log st' = log heap1.
Proof.
  destruct (Vue_observable_spec (host := dev_host) 2 (VRef 4) heap1 heap1_ok
              heap1_unobserved) as (st' & E & Hok & Hob & _ & Hlog & _).
  exists st'. split; [exact E|]. split; [exact Hok|]. split; [|exact Hlog].
  apply (Hob 4 loose_object eq_refl heap1_loose eq_refl).
  right. vm_compute. reflexivity.
Defined.

Lemma root_data_refuses_new_keys_witness :
  ∃ st1,
    observe (host := dev_host) 2 (VRef 4) true heap1
      = Some (Normal (Some (length (observers heap1))), st1)
    ∧ set (host := dev_host) 0 (VRef 4) "z" (VNum (Fin 3)) st1
      = Some (Normal (VNum (Fin 3)), warn (host := dev_host) st1).
Proof.
  apply (root_data_refuses_new_keys (host := dev_host) 2 0 4 loose_object
           "z" (VNum (Fin 3)) heap1 heap1_ok heap1_unobserved heap1_loose);
    vm_compute; reflexivity.
Defined.

Lemma del_refused_witness :
  del (host := dev_host) (VRef 0) "a" heap1
    = (Normal (), warn (host := dev_host) heap1)
  ∧ objs (warn (host := dev_host) heap1) = objs heap1.
Proof.
  destruct (del_refused (host := dev_host) 0 root_object "a" heap1 heap1_root
              I) as (H1 & H2 & _).
  - right. exists 0, {| ob_value := 0; ob_dep := 0; ob_vmCount := 1 |}.
    split; [reflexivity|]. split; [vm_compute; reflexivity|].
    intros Hz. discriminate Hz.
  - split; [exact H1|exact H2].
Defined.

Lemma del_leaves_witness :
  del (host := dev_host) (VRef 1) "zz" heap1 = (Normal (), heap1).
Proof.
  apply (del_leaves (host := dev_host) 1 child_object "zz" heap1 heap1_child
           I eq_refl eq_refl); [|reflexivity].
  intros k r [= <-] Hr.
  assert (observers heap1 !! 1
          = Some {| ob_value := 1; ob_dep := 3; ob_vmCount := 0 |}) as Hr'
    by (vm_compute; reflexivity).
  rewrite Hr' in Hr. injection Hr as <-. reflexivity.
Defined.

Lemma del_removes_witness :
  ∃ o',
    objs (del (host := dev_host) (VRef 1) "c" heap1).2 !! 1 = Some o'
    ∧ lookupProp "c" (o_props o') = None
    ∧ announcements 3 (log (del (host := dev_host) (VRef 1) "c" heap1).2)
      = announcements 3 (log heap1) + 1.
Proof.
  assert (observers heap1 !! 1
          = Some {| ob_value := 1; ob_dep := 3; ob_vmCount := 0 |}) as Hr'
    by (vm_compute; reflexivity).
  destruct (del_removes (host := dev_host) 1 child_object "c"
              (reactiveProperty 1) heap1 heap1_child I eq_refl eq_refl)
    as (o' & Ho' & Hgone & _ & _ & Hn).
  - intros k r [= <-] Hr. rewrite Hr' in Hr. injection Hr as <-.
    reflexivity.
  - reflexivity.
  - reflexivity.
  - exists o'. split; [exact Ho'|]. split; [exact Hgone|].
    change (o_ob child_object ≫= λ k, observers heap1 !! k)
      with (observers heap1 !! 1) in Hn.
    rewrite Hr' in Hn. exact (Hn 3).
Defined.

Lemma set_del_roundtrip_witness :
  ∃ st1,
    set (host := dev_host) 0 (VRef 4) "d" (VNum (Fin 3)) heap1
      = Some (Normal (VNum (Fin 3)), st1)
    ∧ (∀ f, readProp f 4 "d" st1 = Some (VNum (Fin 3), st1))
    ∧ del (host := dev_host) (VRef 4) "d" st1 = (Normal (), heap1).
Proof.
  destruct (set_del_roundtrip (host := dev_host) 0 4 loose_object "d"
              (VNum (Fin 3)) heap1 heap1_loose I eq_refl eq_refl eq_refl
              eq_refl eq_refl) as (st1 & E & Hread & _ & _ & _ & Hdel).
  exists st1. split; [exact E|]. split; [exact Hread|exact Hdel].
Defined.


Lemma heap3_ok : heap_ok heap3.
Proof. apply heap_okb_sound. vm_compute. reflexivity. Qed.

Lemma heap3_array : objs heap3 !! 2 = Some filled_array.
Proof. vm_compute. reflexivity. Qed.

(** The array at 2 holds one element; 5 is put at its end. *)
Lemma set_array_index_witness :
  objs heap3 !! 2 = Some filled_array
  ∧ 1 ≤ length (o_elems filled_array)
  ∧ (Z.of_nat 1 < max_array_length)%Z
  ∧ ∃ res st' o',
      set (host := dev_host) 2 (VRef 2) "1" (VNum (Fin 5)) heap3
        = Some (res, st')
      ∧ objs st' !! 2 = Some o'
      ∧ o_elems o' = [VRef 4; VNum (Fin 5)]
      ∧ announcements 5 (log st') = announcements 5 (log heap3) + 1.
Proof.
  assert (observers heap3 !! 2
          = Some {| ob_value := 2; ob_dep := 5; ob_vmCount := 1 |}) as Hr'
    by (vm_compute; reflexivity).
  assert (unobserved heap3 < 2) as Hun by (vm_compute; lia).
  split; [exact heap3_array|]. split; [exact (le_n 1)|].
  split; [reflexivity|].
  destruct (set_array_index (host := dev_host) 2 2 filled_array 1 "1"
              (VNum (Fin 5)) heap3 heap3_ok Hun heap3_array
              eq_refl eq_refl eq_refl (le_n 1) eq_refl)
    as (res & st' & o' & E & _ & Ho' & He & _ & _ & _ & Hn).
  { intros k Hk. injection Hk as <-. rewrite Hr'. by eexists. }
  exists res, st', o'. split; [exact E|]. split; [exact Ho'|].
  split; [rewrite He; reflexivity|].
  change ((if o_augmented filled_array then o_ob filled_array else None)
          ≫= λ k, observers heap3 !! k)
    with (observers heap3 !! 2) in Hn.
  rewrite Hr' in Hn. exact (Hn 5).
Defined.

Lemma heap3_reachable : reachable (host := dev_host) heap3.
Proof.
  unfold heap3. eapply reachable_step; [|apply step_pushTarget].
  destruct (set (host := dev_host) 2 (VRef 2) "0" (VRef 4) heap2)
    as [[r st']|] eqn:E; [|exact heap2_reachable].
  eapply reachable_step; [exact heap2_reachable|]. eapply step_set, E.
Qed.

Lemma dependArray_registers_witness :
  graph_ok heap3
  ∧ ∃ st' r',
      dependArray 1 2 heap3 = Some st'
      ∧ watchers st' !! 1 = Some r'
      ∧ 8 ∈ w_newDeps r' ∧ 1 ∈ subsOf st' 8.
Proof.
  assert (graph_ok heap3) as Hok
    by exact (reachable_graph_ok (host := dev_host) _ heap3_reachable).
  split; [exact Hok|].
  assert (objs heap3 !! 2 = Some filled_array) as Ha
    by (vm_compute; reflexivity).
  assert (∃ r, watchers heap3 !! 1 = Some r ∧ w_deps r = [1]
               ∧ w_newDeps r = []) as (r & Er & Hd & Hn).
  { eexists. split; [vm_compute; reflexivity|]. split; reflexivity. }
  pose proof (proj1 (dependArray_registers 1 2 filled_array 1 r heap3 Hok
                       eq_refl Er Ha)) as Hreg.
  destruct (proj2 (dependArray_registers 0 2 filled_array 1 r heap3 Hok
                     eq_refl Er Ha)) as [st' E].
  { intros b oe Hin Hb. apply elem_of_cons in Hin as [Hin|Hin];
      [|exfalso; exact (not_elem_of_nil _ Hin)].
    injection Hin as ->.
    assert (objs heap3 !! 4 = Some (set_ob (Some 4) (set_props
              [("c", reactiveProperty 4)] loose_object))) as Hb'
      by (vm_compute; reflexivity).
    rewrite Hb' in Hb. injection Hb as <-. reflexivity. }
  destruct (Hreg st' E) as (_ & _ & _ & r' & Er' & _ & Hel).
  destruct (Hel 4 (set_ob (Some 4) (set_props [("c", reactiveProperty 4)]
                     loose_object))
              4 {| ob_value := 4; ob_dep := 8; ob_vmCount := 0 |})
    as [H8 Hsub].
  - left.
  - vm_compute. reflexivity.
  - reflexivity.
  - vm_compute. reflexivity.
  - exists st', r'. split; [exact E|]. split; [exact Er'|].
    split; [exact H8|]. apply Hsub; rewrite ?Hd, ?Hn.
    + apply not_elem_of_nil.
    + apply not_elem_of_cons. split; [by simpl|apply not_elem_of_nil].
Defined.

Lemma heap0_ok : heap_ok heap0.
Proof. apply heap_okb_sound. vm_compute. reflexivity. Qed.

Lemma observe_deep_witness :
  heap_ok heap0 ∧ unobserved heap0 < 6
  ∧ ∃ st' o',
      observe (host := dev_host) 6 (VRef 0) true heap0
        = Some (Normal (Some (length (observers heap0))), st')
      ∧ objs st' !! 0 = Some o'
      ∧ holds_observer st' 1.
Proof.
  assert (unobserved heap0 < 6) as Hn by (vm_compute; lia).
  split; [exact heap0_ok|]. split; [exact Hn|].
  destruct (observe_deep (host := dev_host) 6 0
              (plain_object [("a", data (VNum (Fin 1))); ("b", data (VRef 1))])
              true heap0 heap0_ok Hn)
    as (st' & o' & E & Ho' & _ & _ & Hd);
    [vm_compute; reflexivity..|].
  exists st', o'. split; [exact E|]. split; [exact Ho'|].
  apply Hd.
  - exists "b", true. reflexivity.
  - exists (plain_object [("c", data (VNum (Fin 2)))]).
    split; [vm_compute; reflexivity|]. split; [reflexivity|].
    right. vm_compute. reflexivity.
Defined.
